(** * napalm-ros: SSH session lifecycle, host-key cache and script deployment

    A shallow embedding of [napalm_ros/ssh_client.py], [napalm_ros/models.py]
    and [ROSDriver.load_replace_candidate] / [ROSDriver.get_config] of
    [napalm_ros/ros.py], with the properties of their specification stated
    and settled against the embedding.  Module [ros] embeds the driver's
    constructor and the parts of [ros.py] that work on rows of the
    management API: [find_rows], [flatten_split], [convert_arp_table],
    [convert_vrf_table], [LLDPInterfaces], [get_ntp_servers],
    [get_mac_address_table] and [get_lldp_neighbors].

    Conventions.
    - A Python [bytes] value is a [list ascii] (one [ascii] per octet).
    - A Python [str] value is a [string] holding its UTF-8 encoding, so
      [s.encode("utf8")] is the identity and [b.decode("utf8")] is the
      identity on well-formed input and raises [UnicodeDecodeError] otherwise.
    - Python code runs in the monad [M]: a state transformer that returns
      either a value or a raised exception; state changes made before an
      exception is raised persist, as in Python.
    - Everything outside the process (network, device, local files, clock,
      the routeros_diff collaborator) is an oracle of the record [Env]; the
      oracles see the trace of events issued so far. *)

From Stdlib Require Import ZArith NArith Ascii String.
From stdpp Require Import gmap strings list.

Local Open Scope string_scope.
Local Open Scope list_scope.

(** ** Exceptions and results *)

Inductive exn : Type :=
| ValueError (msg : string)
| AttributeError (msg : string)
| BinasciiError (msg : string)
| UnicodeDecodeError
| SshClientAlreadyOpen (msg : string)
| SshClientNotOpen (msg : string)
| SshCommandException (msg : string)
| CommandErrorException (msg : string)
| OSError (msg : string)
| SocketTimeout
| SSHException (msg : string)
| DoesNotExist
| IntegrityError
| CollaboratorError (msg : string).

Inductive result (A : Type) : Type :=
| Ok (a : A)
| Raise (e : exn).
Arguments Ok {A} a.
Arguments Raise {A} e.

Definition is_ok {A} (r : result A) : bool :=
  match r with Ok _ => true | Raise _ => false end.

(** ** Python built-ins used by the driver *)

Module Py.

Definition bytes := list ascii.

(** A bytes literal [b"..."]. *)
Definition b (s : string) : bytes := list_ascii_of_string s.

Definition LF : ascii := "010"%char.
Definition DQUOTE : ascii := "034"%char.
Definition nl : string := String LF EmptyString.
Definition dquote : string := String DQUOTE EmptyString.

(** Truthiness of a [str] / [bytes] value: non-empty. *)
Definition truthy_str (s : string) : bool :=
  match s with EmptyString => false | String _ _ => true end.

Definition truthy_bytes (s : bytes) : bool :=
  match s with [] => false | _ :: _ => true end.

(** [x or y] on bytes. *)
Definition bytes_or (x y : bytes) : bytes := if truthy_bytes x then x else y.

(** ASCII whitespace, the default argument of [bytes.strip]:
    space, tab, newline, vertical tab, form feed, carriage return. *)
Definition is_space (c : ascii) : bool :=
  let n := N_of_ascii c in
  ((n =? 32) || ((9 <=? n) && (n <=? 13)))%N.

Fixpoint lstrip (s : bytes) : bytes :=
  match s with
  | [] => []
  | c :: s' => if is_space c then lstrip s' else s
  end.

Definition rstrip (s : bytes) : bytes := rev (lstrip (rev s)).

(** [bytes.strip()] *)
Definition strip (s : bytes) : bytes := rstrip (lstrip s).

(** [s.split(sep, 1)] for a one-character separator: the list [[s]] when
    [sep] does not occur, and [[head; tail]] cut at its first occurrence
    otherwise. *)
Fixpoint split1 (sep : ascii) (s : string) : list string :=
  match s with
  | EmptyString => [EmptyString]
  | String c s' =>
      if Ascii.eqb c sep then [EmptyString; s']
      else match split1 sep s' with
           | [h; t] => [String c h; t]
           | _ => [s]
           end
  end.

Fixpoint starts_with (p s : bytes) : bool :=
  match p, s with
  | [], _ => true
  | _ :: _, [] => false
  | x :: p', y :: s' => Ascii.eqb x y && starts_with p' s'
  end.

(** [needle in hay] on bytes: [needle] occurs as a contiguous run. *)
Fixpoint bytes_in (needle hay : bytes) : bool :=
  match hay with
  | [] => starts_with needle []
  | _ :: hay' => starts_with needle hay || bytes_in needle hay'
  end.

Definition is_ascii (c : ascii) : bool := (N_of_ascii c <? 128)%N.

(** Well-formed UTF-8 (RFC 3629), as CPython's strict decoder accepts it.
    [k] counts the continuation octets still owed and [lo], [hi] bound the
    next one. *)
Fixpoint utf8_wf (k : nat) (lo hi : N) (s : bytes) : bool :=
  match s with
  | [] => match k with O => true | S _ => false end
  | c :: s' =>
      let n := N_of_ascii c in
      match k with
      | S k' => ((lo <=? n) && (n <=? hi))%N && utf8_wf k' 128 191 s'
      | O =>
          if (n <? 128)%N then utf8_wf 0 128 191 s'
          else if ((194 <=? n) && (n <=? 223))%N then utf8_wf 1 128 191 s'
          else if (n =? 224)%N then utf8_wf 2 160 191 s'
          else if (n =? 237)%N then utf8_wf 2 128 159 s'
          else if ((225 <=? n) && (n <=? 239))%N then utf8_wf 2 128 191 s'
          else if (n =? 240)%N then utf8_wf 3 144 191 s'
          else if ((241 <=? n) && (n <=? 243))%N then utf8_wf 3 128 191 s'
          else if (n =? 244)%N then utf8_wf 3 128 143 s'
          else false
      end
  end.

(** [b.decode("utf8")] *)
Definition decode_utf8 (s : bytes) : result string :=
  if utf8_wf 0 128 191 s then Ok (string_of_list_ascii s)
  else Raise UnicodeDecodeError.

(** [s.encode("utf8")] *)
Definition encode_utf8 (s : string) : bytes := list_ascii_of_string s.

(** [s[:n]] on a [str]: the first [n] code points.  An octet starts a code
    point unless it is a continuation octet (10xxxxxx). *)
Definition is_continuation (c : ascii) : bool :=
  let n := N_of_ascii c in ((128 <=? n) && (n <=? 191))%N.

Fixpoint str_take (n : nat) (s : string) : string :=
  match s with
  | EmptyString => EmptyString
  | String c s' =>
      if is_continuation c then String c (str_take n s')
      else match n with
           | O => EmptyString
           | S n' => String c (str_take n' s')
           end
  end.

(** [range(0, stop, step)] *)
Definition range0 (stop step : nat) : list nat :=
  map (fun k => k * step) (seq 0 ((stop + step - 1) / step)).

End Py.

(** ** Python's [base64] module (RFC 4648, as CPython's binascii does it) *)

Module base64.
Import Py.

Definition table_b2a_base64 : bytes :=
  b "ABCDEFGHIJKLMNOPQRSTUVWXYZabcdefghijklmnopqrstuvwxyz0123456789+/".

Definition BASE64_PAD : ascii := "="%char.

Definition b2a_char (n : N) : ascii :=
  nth (N.to_nat n) table_b2a_base64 BASE64_PAD.

(** [None] stands for the entries of the table that are not in the
    alphabet (64 and above in CPython's table). *)
Definition table_a2b_base64 (c : ascii) : option N :=
  let n := N_of_ascii c in
  (if (65 <=? n) && (n <=? 90) then Some (n - 65)
   else if (97 <=? n) && (n <=? 122) then Some (n - 71)
   else if (48 <=? n) && (n <=? 57) then Some (n + 4)
   else if n =? 43 then Some 62
   else if n =? 47 then Some 63
   else None)%N.

(** The base64 text of a run of octets, three octets to four characters,
    padded with [=]. *)
Fixpoint b2a (s : bytes) : bytes :=
  match s with
  | [] => []
  | [x] =>
      let x := N_of_ascii x in
      [b2a_char (N.shiftr x 2);
       b2a_char (N.shiftl (N.land x 3) 4);
       BASE64_PAD; BASE64_PAD]
  | [x; y] =>
      let x := N_of_ascii x in
      let y := N_of_ascii y in
      [b2a_char (N.shiftr x 2);
       b2a_char (N.lor (N.shiftl (N.land x 3) 4) (N.shiftr y 4));
       b2a_char (N.shiftl (N.land y 15) 2);
       BASE64_PAD]
  | x :: y :: z :: s' =>
      let x := N_of_ascii x in
      let y := N_of_ascii y in
      let z := N_of_ascii z in
      b2a_char (N.shiftr x 2)
      :: b2a_char (N.lor (N.shiftl (N.land x 3) 4) (N.shiftr y 4))
      :: b2a_char (N.lor (N.shiftl (N.land y 15) 2) (N.shiftr z 6))
      :: b2a_char (N.land z 63)
      :: b2a s'
  end.

(** [binascii.b2a_base64(s)]: one line of base64 and a newline. *)
Definition b2a_base64 (s : bytes) : bytes := b2a s ++ [LF].

(** [base64.b64encode(s)]: base64 on a single line. *)
Definition b64encode (s : bytes) : bytes := b2a s.

Definition MAXLINESIZE : nat := 76.
Definition MAXBINSIZE : nat := (MAXLINESIZE / 4) * 3.

(** [base64.encodebytes(s)]: a line of base64 for every [MAXBINSIZE]
    octets of input, each ended by a newline. *)
Definition encodebytes (s : bytes) : bytes :=
  flat_map (fun i => b2a_base64 (firstn MAXBINSIZE (skipn i s)))
           (range0 (length s) MAXBINSIZE).

(** [binascii.a2b_base64(data)] in its default, non-strict mode.  [acc]
    holds the octets produced so far, newest first. *)
Fixpoint a2b_loop (data : bytes) (quad_pos : nat) (leftchar : N)
    (pads : nat) (acc : bytes) : result bytes :=
  match data with
  | [] =>
      match quad_pos with
      | 0 => Ok (rev acc)
      | 1 => Raise (BinasciiError "Invalid base64-encoded string: number of data characters cannot be 1 more than a multiple of 4")
      | _ => Raise (BinasciiError "Incorrect padding")
      end
  | this_ch :: data' =>
      if Ascii.eqb this_ch BASE64_PAD then
        if (2 <=? quad_pos)%nat then
          if (4 <=? quad_pos + S pads)%nat then Ok (rev acc)
          else a2b_loop data' quad_pos leftchar (S pads) acc
        else a2b_loop data' quad_pos leftchar pads acc
      else
        match table_a2b_base64 this_ch with
        | None => a2b_loop data' quad_pos leftchar pads acc
        | Some v =>
            match quad_pos with
            | 0 => a2b_loop data' 1 v 0 acc
            | 1 =>
                a2b_loop data' 2 (N.land v 15) 0
                  (ascii_of_N (N.lor (N.shiftl leftchar 2) (N.shiftr v 4)) :: acc)
            | 2 =>
                a2b_loop data' 3 (N.land v 3) 0
                  (ascii_of_N (N.lor (N.shiftl leftchar 4) (N.shiftr v 2)) :: acc)
            | _ =>
                a2b_loop data' 0 0 0
                  (ascii_of_N (N.lor (N.shiftl leftchar 6) v) :: acc)
            end
        end
  end.

Definition a2b_base64 (data : bytes) : result bytes := a2b_loop data 0 0 0 [].

(** [base64.b64decode(s)] for a [str] argument: the text must be ASCII. *)
Definition b64decode (s : string) : result bytes :=
  let data := list_ascii_of_string s in
  if forallb is_ascii data then a2b_base64 data
  else Raise (ValueError "string argument should contain only ASCII characters").

End base64.

(** ** Objects of the program *)

(** [paramiko.PKey] objects the client builds from a stored host key. *)
Inductive pkey : Type :=
| RSAKey (data : Py.bytes)
| ECDSAKey (data : Py.bytes).

(** The server key a transport reports: [get_name()] and [asbytes()]. *)
Record ssh_key : Type := mk_ssh_key {
  get_name : string;
  asbytes : Py.bytes
}.

(** What [exec_command] hands back once the remote process has ended: the
    contents of its output streams and [recv_exit_status()].  Each stream is
    read at most once on every path of the driver, so a stream is modelled
    by its contents; [stdin] is never used. *)
Record exec_reply : Type := mk_exec_reply {
  stdout : Py.bytes;
  stderr : Py.bytes;
  exit_status : Z
}.

(** The arguments of [SSHClient.connect] together with the single host key
    registered by [get_host_keys().add(host, host_key_type, host_key)]. *)
Record connect_request : Type := mk_connect_request {
  cr_host : string;
  cr_username : string;
  cr_timeout : Z;
  cr_pkey : option string;
  cr_password : option string;
  cr_host_key_type : string;
  cr_host_key : pkey
}.

(** Calls that leave the process, in the order they are issued. *)
Inductive event : Type :=
| EvSocketConnect (host : string) (port : Z)
| EvStartClient (host : string)
| EvTransportClose (host : string)
| EvSocketClose (host : string)
| EvSave (hostname : string)
| EvConnect (cid : nat) (req : connect_request)
| EvClose (cid : nat)
| EvExec (cid : nat) (command : string)
| EvOpenSftp (cid : nat)
| EvSftpWrite (cid : nat) (path : string) (data : Py.bytes)
| EvSftpRead (cid : nat) (path : string)
| EvSftpClose (cid : nat)
| EvNow.

(** [class SshClient]: the attributes set by [__init__].  [client] is
    [None] or the identity of a [paramiko.SSHClient] object. *)
Module SshClient.
Record t : Type := mk {
  client : option nat;
  _open_count : Z;
  host : string;
  username : string;
  host_key : option string;
  private_key : option string;
  password : option string;
  timeout : Z
}.

(** [SshClient(host, username, host_key, private_key, password, timeout)] *)
Definition __init__ (host username : string) (host_key private_key password : option string)
    (timeout : Z) : t :=
  mk None 0 host username host_key private_key password timeout.

Definition set_client (v : option nat) (c : t) : t :=
  mk v (_open_count c) (host c) (username c) (host_key c) (private_key c)
     (password c) (timeout c).

Definition set_open_count (v : Z) (c : t) : t :=
  mk (client c) v (host c) (username c) (host_key c) (private_key c)
     (password c) (timeout c).

Definition set_host_key (v : option string) (c : t) : t :=
  mk (client c) (_open_count c) (host c) (username c) v (private_key c)
     (password c) (timeout c).
End SshClient.

(** [class SshHostKey(models.Model)]: [id] is [None] until the row is
    inserted; [created_at] is filled in by [auto_now_add] at insertion, here
    with the number of events issued so far. *)
Module SshHostKey.
Record t : Type := mk {
  id : option nat;
  created_at : option nat;
  hostname : string;
  host_key : string
}.

(** [SshHostKey(hostname=hostname)]: a [TextField] defaults to the empty
    string. *)
Definition __init__ (hostname : string) : t := mk None None hostname EmptyString.

Definition set_host_key (v : string) (r : t) : t :=
  mk (id r) (created_at r) (hostname r) v.
End SshHostKey.

(** The state of the process and of what it holds open.
    - [ssh_client]: the handle ([ROSDriver.ssh_client]);
    - [objects]: the rows of the [SshHostKey] table, keyed by their unique
      [hostname];
    - [next_id]: the table's next automatic primary key;
    - [connected]: the [paramiko.SSHClient] objects whose transport is up;
    - [next_client]: the identity of the next [SSHClient] object;
    - [trace]: the events issued so far, oldest first. *)
Record State : Type := mkState {
  ssh_client : SshClient.t;
  objects : gmap string SshHostKey.t;
  next_id : nat;
  connected : list nat;
  next_client : nat;
  trace : list event
}.

Definition set_ssh_client (v : SshClient.t) (st : State) : State :=
  mkState v (objects st) (next_id st) (connected st) (next_client st) (trace st).

Definition set_objects (v : gmap string SshHostKey.t) (st : State) : State :=
  mkState (ssh_client st) v (next_id st) (connected st) (next_client st) (trace st).

Definition set_next_id (v : nat) (st : State) : State :=
  mkState (ssh_client st) (objects st) v (connected st) (next_client st) (trace st).

Definition set_connected (v : list nat) (st : State) : State :=
  mkState (ssh_client st) (objects st) (next_id st) v (next_client st) (trace st).

Definition set_next_client (v : nat) (st : State) : State :=
  mkState (ssh_client st) (objects st) (next_id st) (connected st) v (trace st).

Definition set_trace (v : list event) (st : State) : State :=
  mkState (ssh_client st) (objects st) (next_id st) (connected st) (next_client st) v.

(** ** The environment *)

(** The oracles answer for everything the program does not decide itself.
    An oracle that takes a [list event] is asked with the trace as it stands
    before the call. *)
Record Env : Type := mkEnv {
  (** [socket.connect((host, port))] under [settimeout(5)] *)
  socket_connect : list event -> string -> Z -> option exn;
  (** [transport.start_client()] then [transport.get_remote_server_key()]:
      the key the server presents *)
  remote_server_key : list event -> string -> result ssh_key;
  (** [paramiko.RSAKey(data=...)] / [paramiko.ECDSAKey(data=...)] *)
  pkey_init : pkey -> option exn;
  (** [paramiko.RSAKey.from_private_key_file(path)] *)
  from_private_key_file : string -> option exn;
  (** [SSHClient.connect(...)] *)
  ssh_connect : list event -> connect_request -> option exn;
  (** [SSHClient.exec_command(command)] and [recv_exit_status()] *)
  exec_command : list event -> string -> result exec_reply;
  (** [SSHClient.open_sftp()] *)
  open_sftp : list event -> option exn;
  (** [sftp_client.open(path, "w")] and [f.write(data)] *)
  sftp_write : list event -> string -> Py.bytes -> option exn;
  (** [sftp_client.open(path, "r")] and [f.read()] *)
  sftp_read : list event -> string -> result Py.bytes;
  (** [Path(filename).read_text()] *)
  read_text : string -> result string;
  (** [datetime.now().isoformat()] *)
  now_isoformat : list event -> string;
  (** [str.strip()] *)
  str_strip : string -> string;
  (** routeros_diff: [RouterOSConfig], [RouterOSConfig.parse],
      [config.diff(old=..., old_verbose=...)], [diff.sections], [str(diff)] *)
  RouterOSConfig : Type;
  ConfigDiff : Type;
  ConfigSection : Type;
  parse : string -> result RouterOSConfig;
  diff : RouterOSConfig -> RouterOSConfig -> option RouterOSConfig -> result ConfigDiff;
  sections : ConfigDiff -> list ConfigSection;
  diff_str : ConfigDiff -> string
}.
Existing Class Env.

(** ** The monad of Python code *)

Definition M (A : Type) : Type := State -> result A * State.

Definition ret {A} (a : A) : M A := fun st => (Ok a, st).

Definition raise {A} (e : exn) : M A := fun st => (Raise e, st).

Definition bind {A B} (m : M A) (f : A -> M B) : M B :=
  fun st =>
    match m st with
    | (Ok a, st') => f a st'
    | (Raise e, st') => (Raise e, st')
    end.

(** [try: m finally: cleanup] *)
Definition finally {A} (m : M A) (cleanup : M unit) : M A :=
  fun st =>
    match m st with
    | (r, st') =>
        match cleanup st' with
        | (Ok _, st'') => (r, st'')
        | (Raise e, st'') => (Raise e, st'')
        end
    end.

(** [try: m except ...: handler], for the exceptions [handler] accepts. *)
Definition try_except {A} (m : M A) (handler : exn -> option (M A)) : M A :=
  fun st =>
    match m st with
    | (Ok a, st') => (Ok a, st')
    | (Raise e, st') =>
        match handler e with
        | Some h => h st'
        | None => (Raise e, st')
        end
    end.

Definition get : M State := fun st => (Ok st, st).

Definition modify (f : State -> State) : M unit := fun st => (Ok tt, f st).

Definition lift {A} (r : result A) : M A := fun st => (r, st).

Definition lift_exn (r : option exn) : M unit :=
  match r with
  | None => ret tt
  | Some e => raise e
  end.

Declare Scope py_scope.
Delimit Scope py_scope with py.
Notation "x <- m ;; k" := (bind m (fun x => k))
  (at level 100, m at next level, right associativity) : py_scope.
Notation "m ;;; k" := (bind m (fun _ => k))
  (at level 100, right associativity) : py_scope.
Local Open Scope py_scope.

(** Record [ev] and ask the oracle with the trace as it stood before. *)
Definition call {A} (ev : event) (oracle : list event -> result A) : M A :=
  fun st => (oracle (trace st), set_trace (trace st ++ [ev]) st).

Definition call_exn (ev : event) (oracle : list event -> option exn) : M unit :=
  fun st =>
    (match oracle (trace st) with None => Ok tt | Some e => Raise e end,
     set_trace (trace st ++ [ev]) st).

Definition emit (ev : event) : M unit :=
  fun st => (Ok tt, set_trace (trace st ++ [ev]) st).

(** ** The program *)

(** An argument typed [Union[str, RouterOSConfig]]; [C] is the type of
    [RouterOSConfig] objects.  A [RouterOSConfig] object is truthy (the
    class defines neither [__bool__] nor [__len__]). *)
Inductive config_arg (C : Type) : Type :=
| ConfigStr (s : string)
| ConfigObj (c : C).
Arguments ConfigStr {C} s.
Arguments ConfigObj {C} c.

Section Program.
Context {E : Env}.
Import Py.

(** *** napalm_ros/ssh_client.py: [get_fingerprint] *)

Definition _preferred_keys : list string :=
  ["ecdsa-sha2-nistp256"; "ecdsa-sha2-nistp384"; "ecdsa-sha2-nistp521"; "ssh-rsa"].

(** [transport.start_client()] and [transport.get_remote_server_key()].
    paramiko negotiates the host key algorithm from the transport's
    [_preferred_keys] and fails when the server has none of them. *)
Definition start_client (host : string) : M ssh_key :=
  ssh_key <- call (EvStartClient host) (fun tr => remote_server_key E tr host) ;;
  if existsb (String.eqb (get_name ssh_key)) _preferred_keys then ret ssh_key
  else raise (SSHException "Incompatible ssh peer (no acceptable host key)").

Definition get_fingerprint (host : string) (port : Z) : M string :=
  call_exn (EvSocketConnect host port) (fun tr => socket_connect E tr host port) ;;;
  ssh_key <- finally
               (finally (start_client host) (emit (EvTransportClose host)))
               (emit (EvSocketClose host)) ;;
  let printable_type := get_name ssh_key in
  let printable_key := strip (base64.encodebytes (asbytes ssh_key)) in
  text <- lift (decode_utf8 printable_key) ;;
  ret (printable_type ++ " " ++ text)%string.

(** *** napalm_ros/models.py *)

(** [SshHostKey.objects.get(hostname=hostname)] *)
Definition objects_get (hostname : string) : M SshHostKey.t :=
  st <- get ;;
  match objects st !! hostname with
  | Some row => ret row
  | None => raise DoesNotExist
  end.

(** [self.save()]: an object without [id] is inserted (the hostname must be
    new, it is a unique column), an object with an [id] replaces its row. *)
Definition save (self : SshHostKey.t) : M SshHostKey.t :=
  st <- get ;;
  emit (EvSave (SshHostKey.hostname self)) ;;;
  match SshHostKey.id self with
  | None =>
      match objects st !! SshHostKey.hostname self with
      | Some _ => raise IntegrityError
      | None =>
          let row := SshHostKey.mk (Some (next_id st)) (Some (length (trace st)))
                       (SshHostKey.hostname self) (SshHostKey.host_key self) in
          modify (fun st => set_next_id (S (next_id st))
                              (set_objects (<[SshHostKey.hostname self := row]> (objects st)) st)) ;;;
          ret row
      end
  | Some _ =>
      modify (fun st => set_objects (<[SshHostKey.hostname self := self]> (objects st)) st) ;;;
      ret self
  end.

(** [SshHostKey.fetch_host_key]; the object is mutated in place, so the
    model hands the updated object back. *)
Definition fetch_host_key (self : SshHostKey.t) (commit : bool) : M SshHostKey.t :=
  fingerprint <- get_fingerprint (SshHostKey.hostname self) 22 ;;
  let self := SshHostKey.set_host_key fingerprint self in
  if commit then save self else ret self.

(** [SshHostKeyManager.for_hostname] *)
Definition for_hostname (hostname : string) : M SshHostKey.t :=
  host_key <- try_except (objects_get hostname)
                (fun e => match e with
                          | DoesNotExist => Some (ret (SshHostKey.__init__ hostname))
                          | _ => None
                          end) ;;
  if negb (truthy_str (SshHostKey.host_key host_key))
  then fetch_host_key host_key true
  else ret host_key.

(** *** napalm_ros/ssh_client.py: [class SshClient] *)

Definition self : M SshClient.t := fun st => (Ok (ssh_client st), st).

Definition update_self (f : SshClient.t -> SshClient.t) : M unit :=
  modify (fun st => set_ssh_client (f (ssh_client st)) st).

Definition is_connected (cid : nat) (st : State) : bool :=
  existsb (Nat.eqb cid) (connected st).

(** [paramiko.SSHClient()] *)
Definition new_SSHClient : M nat :=
  fun st => (Ok (next_client st), set_next_client (S (next_client st)) st).

(** [client.connect(...)]: the transport is up when the call returns. *)
Definition client_connect (cid : nat) (req : connect_request) : M unit :=
  call_exn (EvConnect cid req) (fun tr => ssh_connect E tr req) ;;;
  modify (fun st => set_connected (connected st ++ [cid]) st).

(** [client.close()]: harmless on a client that is not connected. *)
Definition client_close (cid : nat) : M unit :=
  emit (EvClose cid) ;;;
  modify (fun st => set_connected (List.remove Nat.eq_dec cid (connected st)) st).

Definition open : M unit :=
  update_self (fun c => SshClient.set_open_count (SshClient._open_count c + 1) c) ;;;
  c <- self ;;
  host_key <- match SshClient.host_key c with
              | Some k => ret k
              | None => raise (AttributeError "'NoneType' object has no attribute 'split'")
              end ;;
  parts <- match split1 " " host_key with
           | [host_key_type; host_key_data] => ret (host_key_type, host_key_data)
           | _ => raise (ValueError "not enough values to unpack (expected 2, got 1)")
           end ;;
  let '(host_key_type, host_key_data) := parts in
  data <- lift (base64.b64decode host_key_data) ;;
  let host_key := if String.eqb host_key_type "ssh-rsa" then RSAKey data
                  else ECDSAKey data in
  lift_exn (pkey_init E host_key) ;;;
  pkey <- match SshClient.private_key c with
          | Some path => lift_exn (from_private_key_file E path) ;;; ret (Some path)
          | None => ret None
          end ;;
  let password := match SshClient.password c with
                  | Some p => if truthy_str p then Some p else None
                  | None => None
                  end in
  cid <- new_SSHClient ;;
  update_self (SshClient.set_client (Some cid)) ;;;
  client_connect cid
    (mk_connect_request (SshClient.host c) (SshClient.username c) (SshClient.timeout c)
       pkey password host_key_type host_key).

Definition close : M unit :=
  update_self (fun c => SshClient.set_open_count (SshClient._open_count c - 1) c) ;;;
  c <- self ;;
  if (SshClient._open_count c =? 0)%Z then
    match SshClient.client c with
    | Some cid => client_close cid
    | None => raise (AttributeError "'NoneType' object has no attribute 'close'")
    end
  else ret tt.

Definition _assert_open : M unit :=
  c <- self ;;
  if (SshClient._open_count c =? 0)%Z
  then raise (SshClientNotOpen "SSH client needs to be opened first. Call client.open()")
  else ret tt.

(** [self.client.exec_command(command)] and
    [stdout.channel.recv_exit_status()].  A client that is [None], or whose
    transport is [None] because it is not connected, has no such
    attribute. *)
Definition client_exec_command (command : string) : M exec_reply :=
  c <- self ;;
  match SshClient.client c with
  | None => raise (AttributeError "'NoneType' object has no attribute 'exec_command'")
  | Some cid =>
      st <- get ;;
      if is_connected cid st
      then call (EvExec cid command) (fun tr => exec_command E tr command)
      else raise (AttributeError "'NoneType' object has no attribute 'open_session'")
  end.

Definition exec (command : string) : M exec_reply :=
  _assert_open ;;;
  client_exec_command command.

(** [stdout.readlines()]: the lines of the stream, each with its newline,
    decoded. *)
Fixpoint lines_of (cur : bytes) (s : bytes) : list bytes :=
  match s with
  | [] => match cur with [] => [] | _ => [rev cur] end
  | c :: s' =>
      if Ascii.eqb c LF then rev (c :: cur) :: lines_of [] s'
      else lines_of (c :: cur) s'
  end.

Fixpoint decode_all (ls : list bytes) : result (list string) :=
  match ls with
  | [] => Ok []
  | l :: ls' =>
      match decode_utf8 l with
      | Raise e => Raise e
      | Ok s => match decode_all ls' with
                | Raise e => Raise e
                | Ok ss => Ok (s :: ss)
                end
      end
  end.

Definition readlines (s : bytes) : result (list string) := decode_all (lines_of [] s).

Definition run (command : string) (raise_exceptions : bool) : M (list string) :=
  _assert_open ;;;
  r <- exec command ;;
  if (exit_status r =? 0)%Z || negb raise_exceptions then
    ls <- lift (readlines (stdout r)) ;;
    ret (map (str_strip E) ls)
  else
    error <- lift (decode_utf8 (bytes_or (stderr r) (stdout r))) ;;
    raise (SshCommandException
             ("Error executing: " ++ command ++ nl ++ "Error: " ++ error)%string).

(** [self.client.open_sftp()] *)
Definition client_open_sftp : M nat :=
  c <- self ;;
  match SshClient.client c with
  | None => raise (AttributeError "'NoneType' object has no attribute 'open_sftp'")
  | Some cid =>
      st <- get ;;
      if is_connected cid st
      then call_exn (EvOpenSftp cid) (open_sftp E) ;;; ret cid
      else raise (AttributeError "'NoneType' object has no attribute 'open_sftp_client'")
  end.

Definition write_file (path : string) (data : bytes) : M unit :=
  _assert_open ;;;
  sftp_client <- client_open_sftp ;;
  finally
    (call_exn (EvSftpWrite sftp_client path data) (fun tr => sftp_write E tr path data))
    (emit (EvSftpClose sftp_client)).

Definition read_file (path : string) : M bytes :=
  _assert_open ;;;
  sftp_client <- client_open_sftp ;;
  finally
    (call (EvSftpRead sftp_client path) (fun tr => sftp_read E tr path))
    (emit (EvSftpClose sftp_client)).

Definition truthy_opt (s : option string) : bool :=
  match s with
  | Some s => truthy_str s
  | None => false
  end.

Definition __enter__ : M unit :=
  c <- self ;;
  (if negb (truthy_opt (SshClient.host_key c)) then
     r <- for_hostname (SshClient.host c) ;;
     update_self (SshClient.set_host_key (Some (SshHostKey.host_key r)))
   else ret tt) ;;;
  open.

Definition __exit__ : M unit := close.

(** [with self.ssh_client: body] *)
Definition with_ssh_client {A} (body : M A) : M A :=
  __enter__ ;;;
  finally body __exit__.

(** *** napalm_ros/ros.py *)

(** [ROSDriver.get_config]; the value is the dictionary's only entry,
    [running]. *)
Definition get_config (full : bool) : M string :=
  let cmd := if full then "/export verbose" else "/export" in
  with_ssh_client
    (r <- exec cmd ;;
     if negb (exit_status r =? 0)%Z then
       let error := bytes_or (stderr r) (stdout r) in
       msg <- lift (decode_utf8 error) ;;
       raise (CommandErrorException (str_take 150 msg))
     else
       lift (decode_utf8 (stdout r))).

Definition truthy_config (c : option (config_arg (RouterOSConfig E))) : bool :=
  match c with
  | None => false
  | Some (ConfigStr s) => truthy_str s
  | Some (ConfigObj _) => true
  end.

(** Lines 504 to 526 of [load_replace_candidate]: from the arguments to
    the diff that is to be applied. *)
Definition candidate_diff (filename : option string)
    (config current_config current_config_verbose : option (config_arg (RouterOSConfig E)))
    : M (ConfigDiff E) :=
  if negb (truthy_opt filename) && negb (truthy_config config)
  then raise (ValueError "filename or config must be specified")
  else
    config <- (match filename with
               | Some f =>
                   if truthy_str f
                   then text <- lift (read_text E f) ;; ret (Some (ConfigStr text))
                   else ret config
               | None => ret config
               end) ;;
    current_config <-
      (let fetch := (running <- get_config false ;; lift (parse E running)) in
       match current_config with
       | None => fetch                       (* not current_config *)
       | Some (ConfigStr s) =>
           if truthy_str s then lift (parse E s)  (* isinstance(current_config, str) *)
           else fetch                        (* not current_config *)
       | Some (ConfigObj c) => ret c
       end) ;;
    current_config_verbose <-
      (match current_config_verbose with
       | Some (ConfigStr s) => c <- lift (parse E s) ;; ret (Some c)
       | Some (ConfigObj c) => ret (Some c)
       | None => ret None
       end) ;;
    config <- (match config with
               | Some (ConfigStr s) => lift (parse E s)
               | Some (ConfigObj c) => ret c
               | None => raise (AttributeError "'NoneType' object has no attribute 'diff'")
               end) ;;
    lift (diff E config current_config current_config_verbose).

Definition SUCCESS : bytes := b "SUCCESS".

Definition import_command (file_name : string) : string :=
  ("/import " ++ dquote ++ file_name ++ dquote)%string.

Definition script_of (d : ConfigDiff E) (file_name : string) : string :=
  (diff_str E d
   ++ (nl ++ "/file remove " ++ dquote ++ file_name ++ dquote)
   ++ (nl ++ ":put SUCCESS"))%string.

Definition failure_message (file_name : string) : string :=
  ("Error while executing script. File remains on the router in file " ++ file_name)%string.

(** Lines 528 to 553 of [load_replace_candidate]: apply the diff. *)
Definition apply_diff (d : ConfigDiff E) : M unit :=
  match sections E d with
  | [] => ret tt
  | _ :: _ =>
      now <- call EvNow (fun tr => Ok (now_isoformat E tr)) ;;
      let file_name := ("script-" ++ now ++ ".rsc")%string in
      let script := script_of d file_name in
      with_ssh_client
        (write_file file_name (encode_utf8 script) ;;;
         r <- exec (import_command file_name) ;;
         let stderr := stderr r in
         let stdout := stdout r in
         let success := bytes_in SUCCESS stdout in
         if negb success
         then raise (CommandErrorException (failure_message file_name))
         else ret tt)
  end.

(** [ROSDriver.load_replace_candidate] *)
Definition load_replace_candidate (filename : option string)
    (config current_config current_config_verbose : option (config_arg (RouterOSConfig E))) : M unit :=
  d <- candidate_diff filename config current_config current_config_verbose ;;
  apply_diff d.

End Program.

(** ** A scenario *)

Module Scenario.
Import Py.

Definition key_octets (n : nat) : bytes := map ascii_of_nat (seq 0 n).

(** A device that presents an RSA key of [n] octets, accepts every
    connection and file, prints [reply] for an import and answers it with
    exit status [status]. *)
Definition device (n : nat) (reply : string) (status : Z) : Env :=
  {| socket_connect := fun _ host _ =>
       if String.eqb host "unreachable" then Some (OSError "No route to host") else None;
     remote_server_key := fun _ host =>
       if String.eqb host "silent" then Raise (SSHException "Error reading SSH protocol banner")
       else Ok (mk_ssh_key "ssh-rsa" (key_octets n));
     pkey_init := fun _ => None;
     from_private_key_file := fun _ => None;
     ssh_connect := fun _ _ => None;
     exec_command := fun _ command =>
       if String.prefix "/export" command
       then Ok (mk_exec_reply (b "/ip address") [] 0)
       else Ok (mk_exec_reply (b reply) [] status);
     open_sftp := fun _ => None;
     sftp_write := fun _ _ _ => None;
     sftp_read := fun _ _ => Ok [];
     read_text := fun path =>
       if String.eqb path "desired.rsc" then Ok "/ip dns" else Raise (OSError "No such file");
     now_isoformat := fun _ => "2021-03-04T05:06:07";
     str_strip := fun s => s;
     RouterOSConfig := string;
     ConfigDiff := list string;
     ConfigSection := string;
     parse := fun s => Ok s;
     diff := fun new old _ => Ok (if String.eqb new old then [] else [new]);
     sections := fun d => d;
     diff_str := fun d => String.concat nl d |}.

Definition handle (host_key : option string) : SshClient.t :=
  SshClient.__init__ "router1" "admin" host_key None (Some "secret") 60.

Definition start (host_key : option string) : State :=
  mkState (handle host_key) ∅ 0 [] 0 [].

(** The device whose import prints the marker, and one whose import fails
    without it (and still reports exit status 0). *)
Definition good : Env := device 3 "SUCCESS" 0.
Definition bad : Env := device 3 "failure: no such item" 0.

Definition script_name : string := "script-2021-03-04T05:06:07.rsc".

(** The states of a deployment of ["/ip dns"] on a device that runs
    ["/ip address"], up to the execution of the script. *)
Section Stages.
Context (dev : Env).

Definition diffed : State :=
  snd (candidate_diff (E:=dev) None (Some (ConfigStr "/ip dns")) None None (start None)).

Definition entered : State :=
  snd (__enter__ (E:=dev) (set_trace (trace diffed ++ [EvNow]) diffed)).

Definition uploaded : State :=
  snd (write_file (E:=dev) script_name
         (Py.encode_utf8 ("/ip dns" ++ Py.nl ++ "/file remove " ++ Py.dquote ++ script_name
                          ++ Py.dquote ++ Py.nl ++ ":put SUCCESS")%string)
         entered).

Definition executed : State :=
  snd (exec (E:=dev) (import_command script_name) uploaded).

End Stages.

End Scenario.

(** ** Auxiliary definitions for the proofs *)

Definition all_ascii : list ascii := map ascii_of_nat (seq 0 256).

(** [s] does not contain the separator. *)
Definition no_sep (sep : ascii) (s : string) : Prop :=
  Forall (fun c => c <> sep) (list_ascii_of_string s).

(** A character is [read] as the sextet [v] when the decoder's table maps
    it to [v] and it is not the padding character. *)
Definition reads (c : ascii) (v : N) : bool :=
  match base64.table_a2b_base64 c with Some m => N.eqb m v | None => false end
  && negb (Ascii.eqb c base64.BASE64_PAD).

(** The input is a whole number of three-octet groups. *)
Fixpoint whole3 (s : Py.bytes) : bool :=
  match s with
  | [] => true
  | _ :: _ :: _ :: s' => whole3 s'
  | _ => false
  end.

(** ** Sequences of acquisitions and releases *)

Inductive op : Type := Acquire | Release.

Section Nesting.
Context {E : Env}.

(** The calls of [ops], one after the other, on the handle. *)
Fixpoint run_ops (ops : list op) : M unit :=
  match ops with
  | [] => ret tt
  | Acquire :: ops' => open ;;; run_ops ops'
  | Release :: ops' => close ;;; run_ops ops'
  end.

End Nesting.

(** Properly balanced: no release without an acquisition before it, and
    every acquisition released. *)
Fixpoint balanced_from (depth : nat) (ops : list op) : bool :=
  match ops with
  | [] => Nat.eqb depth 0
  | Acquire :: ops' => balanced_from (S depth) ops'
  | Release :: ops' =>
      match depth with
      | O => false
      | S d => balanced_from d ops'
      end
  end.

Definition balanced (ops : list op) : bool := balanced_from 0 ops.

(** The number of acquisitions in a sequence. *)
Definition acquires (ops : list op) : nat :=
  length (List.filter (fun o => match o with Acquire => true | Release => false end) ops).

Definition is_connect (ev : event) : bool :=
  match ev with EvConnect _ _ => true | _ => false end.

Definition is_close (ev : event) : bool :=
  match ev with EvClose _ => true | _ => false end.

(** How often the physical connection was opened / closed in a trace. *)
Definition connects (tr : list event) : nat := length (List.filter is_connect tr).
Definition closes (tr : list event) : nat := length (List.filter is_close tr).

Definition open_count (st : State) : Z := SshClient._open_count (ssh_client st).

Definition not_open_msg : string :=
  "SSH client needs to be opened first. Call client.open()".


(** ** The host-key table *)

(** The key material of [hostname] is cached: there is a row for it and its
    [host_key] is not empty. *)
Definition cached (st : State) (hostname : string) : Prop :=
  exists row, objects st !! hostname = Some row
              /\ Py.truthy_str (SshHostKey.host_key row) = true.

(** The table is keyed by the [hostname] column of its rows. *)
Definition keyed_by_hostname (st : State) : Prop :=
  forall h row, objects st !! h = Some row -> SshHostKey.hostname row = h.

(** The events of one key fetch that got as far as the handshake. *)
Definition fetch_events (host : string) (port : Z) : list event :=
  [EvSocketConnect host port; EvStartClient host; EvTransportClose host;
   EvSocketClose host].

Definition not_LF (c : ascii) : bool := negb (Ascii.eqb c Py.LF).

(** The text [get_fingerprint] prints for a key. *)
Definition printed (key : ssh_key) : string :=
  (get_name key ++ " "
   ++ string_of_list_ascii (Py.strip (base64.encodebytes (asbytes key))))%string.


(** A body: a non-empty text whose first and last characters are not
    whitespace. *)
Inductive body : Py.bytes -> Prop :=
| body_one c : Py.is_space c = false -> body [c]
| body_more c mid d : Py.is_space c = false -> Py.is_space d = false ->
    body ((c :: mid) ++ [d]).

Section FetchFailure.
Context {E : Env}.

(** The ways a key fetch from [host] fails in state [st], and the exception
    it fails with: the host cannot be reached or the connection times out
    ([socket_connect] fails), the handshake fails ([remote_server_key]
    fails), or the server has no key of an accepted algorithm. *)
Inductive fetch_failure (st : State) (host : string) : exn -> Prop :=
| fetch_unreachable e :
    socket_connect E (trace st) host 22 = Some e ->
    fetch_failure st host e
| fetch_handshake e :
    socket_connect E (trace st) host 22 = None ->
    remote_server_key E (trace st ++ [EvSocketConnect host 22]) host = Raise e ->
    fetch_failure st host e
| fetch_algorithm key :
    socket_connect E (trace st) host 22 = None ->
    remote_server_key E (trace st ++ [EvSocketConnect host 22]) host = Ok key ->
    existsb (String.eqb (get_name key)) _preferred_keys = false ->
    fetch_failure st host (SSHException "Incompatible ssh peer (no acceptable host key)").

End FetchFailure.

Definition is_save (ev : event) : bool :=
  match ev with EvSave _ => true | _ => false end.


(** ** Deployment runs *)

(** [m] only adds events that satisfy [P] to the trace, whatever its
    outcome. *)
Definition emits {A} (P : event -> bool) (m : M A) : Prop :=
  forall st, exists evs, trace (snd (m st)) = trace st ++ evs /\ forallb P evs = true.

(** The events of resolving the host key and of opening and closing the
    session. *)
Definition session_event (ev : event) : bool :=
  match ev with
  | EvSocketConnect _ _ | EvStartClient _ | EvTransportClose _ | EvSocketClose _
  | EvSave _ | EvConnect _ _ | EvClose _ => true
  | _ => false
  end.

(** The events of fetching the current configuration: those of a session
    and the export command. *)
Definition fetch_current_event (ev : event) : bool :=
  match ev with
  | EvExec _ command => String.eqb command "/export"
  | _ => session_event ev
  end.

(** A command that removes a file on the device. *)
Definition is_file_remove (ev : event) : bool :=
  match ev with
  | EvExec _ command => String.prefix "/file remove" command
  | _ => false
  end.

Section Runs.
Context {E : Env}.

(** The run of [load_replace_candidate] from [st] has a non-empty diff and
    gets as far as the execution of the uploaded script [file_name], which
    returns [r] in state [st4]; the session was entered in [st2]. *)
Definition reaches_execution (filename : option string)
    (config current_config current_config_verbose : option (config_arg (RouterOSConfig E)))
    (st : State) (file_name : string) (st2 : State) (r : exec_reply) (st4 : State) : Prop :=
  exists d st1 st3,
    candidate_diff filename config current_config current_config_verbose st = (Ok d, st1)
    /\ sections E d <> []
    /\ file_name = ("script-" ++ now_isoformat E (trace st1) ++ ".rsc")%string
    /\ __enter__ (set_trace (trace st1 ++ [EvNow]) st1) = (Ok tt, st2)
    /\ write_file file_name (Py.encode_utf8 (script_of d file_name)) st2 = (Ok tt, st3)
    /\ exec (import_command file_name) st3 = (Ok r, st4).

End Runs.

(** The environment [E] with the exit status of every import replaced by
    [k]. *)
Definition with_import_status (k : Z) (E : Env) : Env :=
  {| socket_connect := socket_connect E;
     remote_server_key := remote_server_key E;
     pkey_init := pkey_init E;
     from_private_key_file := from_private_key_file E;
     ssh_connect := ssh_connect E;
     exec_command := fun tr command =>
       if String.prefix "/import " command
       then match exec_command E tr command with
            | Ok r => Ok (mk_exec_reply (stdout r) (stderr r) k)
            | Raise e => Raise e
            end
       else exec_command E tr command;
     open_sftp := open_sftp E;
     sftp_write := sftp_write E;
     sftp_read := sftp_read E;
     read_text := read_text E;
     now_isoformat := now_isoformat E;
     str_strip := str_strip E;
     RouterOSConfig := RouterOSConfig E;
     ConfigDiff := ConfigDiff E;
     ConfigSection := ConfigSection E;
     parse := parse E;
     diff := diff E;
     sections := sections E;
     diff_str := diff_str E |}.


(** ** Frames *)

(** [m] leaves the part [f] of the state as it is, whatever its outcome. *)
Definition keeps {A X} (f : State -> X) (m : M A) : Prop :=
  forall st, f (snd (m st)) = f st.

(** What a session consists of: the handle, the connected clients and the
    identity of the next client. *)
Definition session_part (st : State) : SshClient.t * list nat * nat :=
  (ssh_client st, connected st, next_client st).

(** What the host-key cache consists of. *)
Definition table_part (st : State) : gmap string SshHostKey.t * nat :=
  (objects st, next_id st).

(** The code points of a [str]: its octets that are not continuation
    octets. *)
Fixpoint code_points (s : string) : nat :=
  match s with
  | EmptyString => 0
  | String c s' => (if Py.is_continuation c then 0 else 1) + code_points s'
  end.


(** ** napalm_ros/ros.py: the helpers on rows of the management API *)

Module ros.

(** The values of a row's fields as the API client delivers them. *)
Inductive pyval : Type :=
| VNone
| VBool (b : bool)
| VInt (z : Z)
| VStr (s : string).

(** A row is a [dict] from field names to values. *)
Abbreviation row := (gmap string pyval).

(** The exceptions of this part of the driver. *)
Inductive error : Type :=
| KeyError (key : string)
| AttributeError (msg : string)
| ValueError (msg : string)
| TypeError (msg : string)
| IndexError (msg : string)
| AssertionError (msg : string)
| TrapError (msg : string)
| Other (msg : string).

Inductive outcome (A : Type) : Type :=
| Return (a : A)
| Throw (e : error).
Arguments Return {A} a.
Arguments Throw {A} e.

(** [x == y]; a [bool] equals the [int] 0 or 1. *)
Definition py_eq (x y : pyval) : bool :=
  match x, y with
  | VNone, VNone => true
  | VStr a, VStr b => String.eqb a b
  | VInt a, VInt b => Z.eqb a b
  | VBool a, VBool b => Bool.eqb a b
  | VBool a, VInt b => Z.eqb (if a then 1 else 0) b
  | VInt a, VBool b => Z.eqb a (if b then 1 else 0)
  | _, _ => false
  end.

(** Truthiness. *)
Definition truthy (x : pyval) : bool :=
  match x with
  | VNone => false
  | VBool b => b
  | VInt z => negb (Z.eqb z 0)
  | VStr s => Py.truthy_str s
  end.

Definition type_name (x : pyval) : string :=
  match x with
  | VNone => "NoneType"
  | VBool _ => "bool"
  | VInt _ => "int"
  | VStr _ => "str"
  end.

Definition no_attribute (x : pyval) (attr : string) : error :=
  AttributeError ("'" ++ type_name x ++ "' object has no attribute '" ++ attr ++ "'")%string.

(** [entry.get(key)] and [entry.get(key, default)] *)
Definition get (entry : row) (key : string) : pyval := default VNone (entry !! key).
Definition get_or (entry : row) (key : string) (d : pyval) : pyval := default d (entry !! key).

(** [entry[key]] *)
Definition item (entry : row) (key : string) : outcome pyval :=
  match entry !! key with
  | Some v => Return v
  | None => Throw (KeyError key)
  end.

(** [s.split(sep)] for a one-character separator. *)
Fixpoint split (sep : ascii) (s : string) : list string :=
  match s with
  | EmptyString => [EmptyString]
  | String c s' =>
      if Ascii.eqb c sep then EmptyString :: split sep s'
      else match split sep s' with
           | h :: t => String c h :: t
           | [] => [String c EmptyString]
           end
  end.

(** [value.split(',')] on a field value: only a [str] has the method. *)
Definition split_value (v : pyval) : outcome (list string) :=
  match v with
  | VStr s => Return (split ","%char s)
  | _ => Throw (no_attribute v "split")
  end.

(** [sep.join(parts)] *)
Fixpoint join (sep : string) (parts : list string) : string :=
  match parts with
  | [] => EmptyString
  | [p] => p
  | p :: parts' => (p ++ sep ++ join sep parts')%string
  end.

(** [sep in s] and [s.count(sep)] for a one-character [sep]. *)
Fixpoint contains (sep : ascii) (s : string) : bool :=
  match s with
  | EmptyString => false
  | String c s' => Ascii.eqb c sep || contains sep s'
  end.

Fixpoint count (sep : ascii) (s : string) : nat :=
  match s with
  | EmptyString => 0
  | String c s' => (if Ascii.eqb c sep then 1 else 0) + count sep s'
  end.

Definition is_return {A} (o : outcome A) : bool :=
  match o with
  | Return _ => true
  | Throw _ => false
  end.

(** A [dict] with keys that are field values: the items in insertion
    order; assigning to a key that is there (up to [==]) replaces its value
    in place. *)
Fixpoint dict_set {V} (k : pyval) (v : V) (d : list (pyval * V)) : list (pyval * V) :=
  match d with
  | [] => [(k, v)]
  | (k', v') :: d' =>
      if py_eq k' k then (k', v) :: d' else (k', v') :: dict_set k v d'
  end.

Fixpoint dict_get {V} (k : pyval) (d : list (pyval * V)) : option V :=
  match d with
  | [] => None
  | (k', v') :: d' => if py_eq k' k then Some v' else dict_get k d'
  end.

(** [k in d] *)
Definition is_key {V} (k : pyval) (d : list (pyval * V)) : bool :=
  match dict_get k d with
  | Some _ => true
  | None => false
  end.

(** *** [find_rows] and [flatten_split] *)

(** [find_rows(rows, key, value)], as the list of the rows it yields. *)
Definition find_rows (rows : list row) (key : string) (value : pyval) : list row :=
  List.filter (fun r => py_eq (get r key) value) rows.

(** [flatten_split(rows, key)]: the generator is consumed row by row, so the
    first row that lacks the key, or whose value has no [split], decides the
    exception. *)
Fixpoint flatten_split (rows : list row) (key : string) : outcome (gset string) :=
  match rows with
  | [] => Return ∅
  | r :: rows' =>
      match item r key with
      | Throw e => Throw e
      | Return v =>
          match split_value v with
          | Throw e => Throw e
          | Return items =>
              match flatten_split rows' key with
              | Throw e => Throw e
              | Return acc => Return (list_to_set items ∪ acc)
              end
          end
      end
  end.

(** *** [class LLDPInterfaces] *)

Record LLDPInterfaces : Type := mkLLDPInterfaces {
  parent : string;
  child : string
}.

(** [LLDPInterfaces.fromApi(string)]:
    [parent, child = string.split(',')[::-1]] *)
Definition fromApi (v : pyval) : outcome LLDPInterfaces :=
  match split_value v with
  | Throw e => Throw e
  | Return parts =>
      match rev parts with
      | [p; c] => Return (mkLLDPInterfaces p c)
      | [] | [_] => Throw (ValueError "not enough values to unpack (expected 2, got 1)")
      | _ :: _ :: _ :: _ => Throw (ValueError "too many values to unpack (expected 2)")
      end
  end.

(** [LLDPInterfaces.__str__] *)
Definition __str__ (i : LLDPInterfaces) : string := join "/" [parent i; child i].

(** *** [convert_arp_table] and [convert_vrf_table] *)

Record arp_entry : Type := mk_arp_entry {
  arp_interface : pyval;
  arp_mac : string;
  arp_ip : string;
  (** [float(-1)] *)
  arp_age : Z
}.

Definition has_mac (entry : row) : bool :=
  match entry !! "mac-address" with Some _ => true | None => false end.

Section Casts.
(** [napalm.base.helpers.mac] and [napalm.base.helpers.ip] *)
Variables cast_mac cast_ip : pyval -> outcome string.

(** [convert_arp_table(table)], as [list(...)] consumes it. *)
Fixpoint convert_arp_table (table : list row) : outcome (list arp_entry) :=
  match table with
  | [] => Return []
  | entry :: table' =>
      if negb (has_mac entry) then convert_arp_table table'
      else
        match item entry "interface" with
        | Throw e => Throw e
        | Return interface =>
        match item entry "mac-address" with
        | Throw e => Throw e
        | Return m =>
        match cast_mac m with
        | Throw e => Throw e
        | Return mac =>
        match item entry "address" with
        | Throw e => Throw e
        | Return a =>
        match cast_ip a with
        | Throw e => Throw e
        | Return ip =>
        match convert_arp_table table' with
        | Throw e => Throw e
        | Return rest => Return (mk_arp_entry interface mac ip (-1) :: rest)
        end end end end end end
  end.

End Casts.

(** The value [convert_vrf_table] stores for a routing mark: [name],
    [type], [state.route_distinguisher] and the keys of
    [interfaces.interface]. *)
Record vrf : Type := mk_vrf {
  vrf_name : pyval;
  vrf_type : string;
  route_distinguisher : pyval;
  vrf_interfaces : gset string
}.

(** The body of the loop for one entry: the key and the value it assigns. *)
Definition vrf_of (entry : row) : outcome (pyval * vrf) :=
  match split_value (get entry "interfaces") with
  | Throw e => Throw e
  | Return ifaces =>
      match item entry "routing-mark" with
      | Throw e => Throw e
      | Return mark =>
          Return (mark, mk_vrf mark "L3VRF" (get entry "route-distinguisher")
                          (list_to_set ifaces))
      end
  end.

Fixpoint convert_vrf_loop (table : list row) (instances : list (pyval * vrf))
    : outcome (list (pyval * vrf)) :=
  match table with
  | [] => Return instances
  | entry :: table' =>
      match vrf_of entry with
      | Throw e => Throw e
      | Return (mark, v) => convert_vrf_loop table' (dict_set mark v instances)
      end
  end.

(** [convert_vrf_table(table)] *)
Definition convert_vrf_table (table : list row) : outcome (list (pyval * vrf)) :=
  convert_vrf_loop table [].

(** The last entry of [table] whose routing mark equals [mark]. *)
Definition last_marked (mark : pyval) (table : list row) : option row :=
  List.find (fun entry => py_eq (get entry "routing-mark") mark) (rev table).

(** *** [ROSDriver.get_ntp_servers] *)

(** [tuple(rows)[0]] *)
Definition first_row (rows : list row) : outcome row :=
  match rows with
  | r :: _ => Return r
  | [] => Throw (IndexError "tuple index out of range")
  end.

(** [get_ntp_servers], given the rows of [/system/ntp/client/print]; the
    dictionary maps every server to an empty dictionary. *)
Definition get_ntp_servers (rows : list row) : outcome (list (pyval * unit)) :=
  match first_row rows with
  | Throw e => Throw e
  | Return ntp_client_values =>
      match split_value (get_or ntp_client_values "server-dns-names" (VStr EmptyString)) with
      | Throw e => Throw e
      | Return names =>
          let fqdn_ntp_servers := List.filter Py.truthy_str names in
          let ntp_servers :=
            fold_left (fun d ntp_peer => dict_set (VStr ntp_peer) tt d) fqdn_ntp_servers [] in
          let primary_ntp := get ntp_client_values "primary-ntp" in
          let secondary_ntp := get ntp_client_values "secondary-ntp" in
          let ntp_servers :=
            if truthy primary_ntp && negb (py_eq primary_ntp (VStr "0.0.0.0"))
            then dict_set primary_ntp tt ntp_servers else ntp_servers in
          let ntp_servers :=
            if negb (py_eq secondary_ntp (VStr "0.0.0.0"))
            then dict_set secondary_ntp tt ntp_servers else ntp_servers in
          Return ntp_servers
      end
  end.

(** *** [ROSDriver.get_mac_address_table] *)

(** What iterating over an API call gives: the rows, and then the exception
    that ended the iteration, if one did. *)
Abbreviation api_reply := (list row * option error)%type.

Record mac_entry : Type := mk_mac_entry {
  mac : pyval;
  mac_interface : pyval;
  vlan : pyval;
  static : bool;
  active : pyval;
  moves : Z;
  (** [0.0] *)
  last_move : Z
}.

(** The entry for a row of [/interface/bridge/host/print]. *)
Definition bridge_entry (entry : row) : outcome mac_entry :=
  match item entry "mac-address" with
  | Throw e => Throw e
  | Return m =>
  match item entry "interface" with
  | Throw e => Throw e
  | Return i =>
  match item entry "dynamic" with
  | Throw e => Throw e
  | Return d =>
  match item entry "invalid" with
  | Throw e => Throw e
  | Return inv =>
      Return (mk_mac_entry m i (get_or entry "vid" (VInt 1)) (negb (truthy d))
                (VBool (negb (truthy inv))) 0 0)
  end end end end.

(** The entry for a row of [/interface/ethernet/switch/unicast-fdb/print]. *)
Definition switch_entry (entry : row) : outcome mac_entry :=
  match item entry "mac-address" with
  | Throw e => Throw e
  | Return m =>
  match item entry "port" with
  | Throw e => Throw e
  | Return i =>
  match item entry "vlan-id" with
  | Throw e => Throw e
  | Return v =>
  match item entry "dynamic" with
  | Throw e => Throw e
  | Return d =>
  match item entry "active" with
  | Throw e => Throw e
  | Return a => Return (mk_mac_entry m i v (negb (truthy d)) a 0 0)
  end end end end end.

(** [for entry in rows: table.append(f(entry))]: the table as the loop
    leaves it and the exception that ended it, if one did. *)
Fixpoint extend (f : row -> outcome mac_entry) (rows : list row) (table : list mac_entry)
    : list mac_entry * option error :=
  match rows with
  | [] => (table, None)
  | entry :: rows' =>
      match f entry with
      | Throw e => (table, Some e)
      | Return m => extend f rows' (table ++ [m])
      end
  end.

Definition iterate (f : row -> outcome mac_entry) (reply : api_reply)
    (table : list mac_entry) : list mac_entry * option error :=
  match extend f (fst reply) table with
  | (table', Some e) => (table', Some e)
  | (table', None) => (table', snd reply)
  end.

(** [get_mac_address_table], given what the two API calls give. *)
Definition get_mac_address_table (bridge switch : api_reply) : outcome (list mac_entry) :=
  match iterate bridge_entry bridge [] with
  | (_, Some e) => Throw e
  | (table, None) =>
      match iterate switch_entry switch table with
      | (table', Some (TrapError _)) => Return table'
      | (_, Some e) => Throw e
      | (table', None) => Return table'
      end
  end.

(** *** [ROSDriver.get_lldp_neighbors] *)

Record lldp_neighbor : Type := mk_lldp_neighbor {
  lldp_hostname : pyval;
  lldp_port : pyval
}.

(** What one entry contributes: the key [str(iface)] and the neighbor. *)
Definition lldp_of (entry : row) : outcome (string * lldp_neighbor) :=
  match item entry "interface" with
  | Throw e => Throw e
  | Return v =>
  match fromApi v with
  | Throw e => Throw e
  | Return iface =>
  match item entry "identity" with
  | Throw e => Throw e
  | Return h =>
  match item entry "interface-name" with
  | Throw e => Throw e
  | Return p => Return (__str__ iface, mk_lldp_neighbor h p)
  end end end end.

Fixpoint lldp_loop (rows : list row) (table : gmap string (list lldp_neighbor))
    : outcome (gmap string (list lldp_neighbor)) :=
  match rows with
  | [] => Return table
  | entry :: rows' =>
      match lldp_of entry with
      | Throw e => Throw e
      | Return (k, n) => lldp_loop rows' (<[k := default [] (table !! k) ++ [n]]> table)
      end
  end.

(** The neighbors that the entries with key [k] contribute, in the order
    of the entries. *)
Fixpoint neighbors_at (k : string) (rows : list row) : list lldp_neighbor :=
  match rows with
  | [] => []
  | entry :: rows' =>
      match lldp_of entry with
      | Return (k', n) =>
          if String.eqb k' k then n :: neighbors_at k rows' else neighbors_at k rows'
      | Throw _ => neighbors_at k rows'
      end
  end.

(** [get_lldp_neighbors], given the rows of [/ip/neighbor]; the table is a
    [defaultdict(list)]. *)
Definition get_lldp_neighbors (rows : list row) : outcome (gmap string (list lldp_neighbor)) :=
  lldp_loop rows ∅.

(** *** [ROSDriver.__init__] *)

Record ROSDriver : Type := mkROSDriver {
  hostname : string;
  username : string;
  password : string;
  timeout : Z;
  optional_args : row;
  port : pyval;
  (** [self.api = None] *)
  api : option unit;
  ssh_client : SshClient.t
}.

Section Init.
(** [Path(p).exists()] and [str(Path(p))] *)
Variable path_exists : string -> bool.
Variable path_str : string -> string.

(** [ROSDriver(hostname, username, password, timeout, optional_args)].  The
    handle holds the key file as the text [open] passes to paramiko; a falsy
    [private_key_file] is passed on as it is, is falsy for the handle too,
    and is held as [None]. *)
Definition __init__ (hostname username password : string) (timeout : Z)
    (optional_args : option row) : outcome ROSDriver :=
  let self_optional_args :=
    match optional_args with
    | Some d => if decide (d = ∅) then ∅ else d
    | None => ∅
    end in
  let port := get_or self_optional_args "port" (VInt 8728) in
  match optional_args with
  | None => Throw (no_attribute VNone "get")
  | Some d =>
      let private_ssh_key := get d "private_key_file" in
      let build key :=
        mkROSDriver hostname username password timeout self_optional_args port None
          (SshClient.__init__ hostname username None key (Some password) timeout) in
      if truthy private_ssh_key then
        match private_ssh_key with
        | VStr p =>
            if path_exists p then Return (build (Some (path_str p)))
            else Throw (AssertionError ("Private key file not found: " ++ path_str p)%string)
        | _ =>
            Throw (TypeError ("expected str, bytes or os.PathLike object, not "
                              ++ type_name private_ssh_key)%string)
        end
      else Return (build None)
  end.

End Init.

End ros.


(** * Properties *)

Example encodebytes_60 :
  base64.encodebytes (map ascii_of_nat (seq 0 60))
  = Py.b ("AAECAwQFBgcICQoLDA0ODxAREhMUFRYXGBkaGxwdHh8gISIjJCUmJygpKissLS4vMDEyMzQ1Njc4" ++ Py.nl ++ "OTo7" ++ Py.nl).
Proof. vm_compute. reflexivity. Qed.

Example b64decode_ex1 : base64.b64decode ("QUJD" ++ Py.nl ++ "RA==") = Ok (Py.b "ABCD").
Proof. vm_compute. reflexivity. Qed.

Example b64decode_ex2 : base64.b64decode "QUJ=D" = Ok (Py.b "AB").
Proof. vm_compute. reflexivity. Qed.

Example b64decode_ex3 : is_ok (base64.b64decode "QUJDRA=") = false.
Proof. vm_compute. reflexivity. Qed.

Example b64decode_ex4 : base64.b64decode "QU=JDRA==" = Ok (Py.b "ABCD").
Proof. vm_compute. reflexivity. Qed.

(** ** Facts about the built-ins *)

Section BuiltinFacts.
Import Py.

Lemma all_ascii_complete (c : ascii) : In c all_ascii.
Proof.
  assert (H : existsb (Ascii.eqb c) all_ascii = true).
  { destruct c as [[] [] [] [] [] [] [] []]; vm_compute; reflexivity. }
  apply existsb_exists in H. destruct H as [x [Hin Heq]].
  apply Ascii.eqb_eq in Heq. now subst.
Qed.

Lemma forall_ascii (P : ascii -> bool) :
  forallb P all_ascii = true -> forall c, P c = true.
Proof.
  intros H c. rewrite forallb_forall in H. apply H, all_ascii_complete.
Qed.

Lemma forall_ascii2 (P : ascii -> ascii -> bool) :
  forallb (fun x => forallb (P x) all_ascii) all_ascii = true ->
  forall x y, P x y = true.
Proof.
  intros H x y.
  apply (forall_ascii (P x)).
  apply (forall_ascii (fun x => forallb (P x) all_ascii) H).
Qed.

Lemma starts_with_spec (p s : bytes) :
  starts_with p s = true <-> exists post, s = p ++ post.
Proof.
  revert s. induction p as [|x p IH]; intros s; simpl.
  - split; [intros _; now exists s | reflexivity].
  - destruct s as [|y s]; simpl.
    + split; [discriminate | intros [post H]; discriminate].
    + rewrite andb_true_iff, Ascii.eqb_eq, IH. split.
      * intros [-> [post ->]]. now exists post.
      * intros [post H]. injection H as -> ->. split; [reflexivity | now exists post].
Qed.

(** [needle in hay] holds exactly when [hay] is [pre ++ needle ++ post]. *)
Lemma bytes_in_spec (needle hay : bytes) :
  bytes_in needle hay = true <-> exists pre post, hay = pre ++ needle ++ post.
Proof.
  induction hay as [|c hay IH]; simpl.
  - rewrite starts_with_spec. split.
    + intros [post H]. exists [], post. exact H.
    + intros [pre [post H]]. destruct pre; simpl in H.
      * now exists post.
      * discriminate.
  - rewrite orb_true_iff, starts_with_spec, IH. split.
    + intros [[post H] | [pre [post H]]].
      * exists [], post. exact H.
      * exists (c :: pre), post. simpl. now rewrite H.
    + intros [pre [post H]]. destruct pre as [|c' pre]; simpl in H.
      * left. now exists post.
      * right. injection H as _ H. now exists pre, post.
Qed.

Lemma lstrip_decomp (s : bytes) :
  exists ws, s = ws ++ lstrip s /\ Forall (fun c => is_space c = true) ws.
Proof.
  induction s as [|c s [ws [H1 H2]]]; simpl.
  - exists []. split; [reflexivity | constructor].
  - destruct (is_space c) eqn:Hc.
    + exists (c :: ws). split; [simpl; now rewrite <- H1 | now constructor].
    + exists []. split; [reflexivity | constructor].
Qed.

Lemma rstrip_decomp (s : bytes) :
  exists ws, s = rstrip s ++ ws /\ Forall (fun c => is_space c = true) ws.
Proof.
  unfold rstrip. destruct (lstrip_decomp (rev s)) as [ws [H1 H2]].
  exists (rev ws). split.
  - rewrite <- rev_app_distr, <- H1. now rewrite rev_involutive.
  - apply List.Forall_forall. intros c Hc. rewrite <- in_rev in Hc.
    rewrite List.Forall_forall in H2. now apply H2.
Qed.

Lemma strip_decomp (s : bytes) :
  exists ws1 ws2, s = ws1 ++ strip s ++ ws2
    /\ Forall (fun c => is_space c = true) ws1
    /\ Forall (fun c => is_space c = true) ws2.
Proof.
  unfold strip.
  destruct (lstrip_decomp s) as [ws1 [H1 H2]].
  destruct (rstrip_decomp (lstrip s)) as [ws2 [H3 H4]].
  exists ws1, ws2. split; [|split]; try assumption.
  now rewrite <- H3.
Qed.

Lemma strip_Forall (P : ascii -> Prop) (s : bytes) :
  Forall P s -> Forall P (strip s).
Proof.
  intros H. destruct (strip_decomp s) as [ws1 [ws2 [Hs _]]].
  rewrite Hs in H. apply Forall_app in H. destruct H as [_ H].
  apply Forall_app in H. now destruct H.
Qed.

Lemma utf8_wf_ascii (s : bytes) :
  Forall (fun c => is_ascii c = true) s -> utf8_wf 0 128 191 s = true.
Proof.
  induction 1 as [|c s Hc _ IH]; simpl; [reflexivity|].
  unfold is_ascii in Hc. now rewrite Hc.
Qed.

Lemma decode_utf8_ascii (s : bytes) :
  Forall (fun c => is_ascii c = true) s ->
  decode_utf8 s = Ok (string_of_list_ascii s).
Proof. intros H. unfold decode_utf8. now rewrite utf8_wf_ascii. Qed.

Lemma split1_first (sep : ascii) (h t : string) :
  no_sep sep h -> split1 sep (h ++ String sep t) = [h; t].
Proof.
  unfold no_sep. induction h as [|c h IH]; simpl; intros H.
  - now rewrite Ascii.eqb_refl.
  - inversion H as [|? ? Hc Hh]; subst.
    destruct (Ascii.eqb c sep) eqn:E.
    + apply Ascii.eqb_eq in E. contradiction.
    + now rewrite IH.
Qed.

End BuiltinFacts.

(** ** base64: decoding undoes encoding *)

Section Base64Facts.
Import Py base64.

Lemma forall_N_below (k : nat) (P : N -> bool) :
  forallb P (map N.of_nat (seq 0 k)) = true ->
  forall n, (n < N.of_nat k)%N -> P n = true.
Proof.
  intros H n Hn. rewrite forallb_forall in H. apply H.
  rewrite <- (N2Nat.id n). apply in_map, in_seq. lia.
Qed.

Lemma forall_N_below2 (k1 k2 : nat) (P : N -> N -> bool) :
  forallb (fun u => forallb (P u) (map N.of_nat (seq 0 k2)))
          (map N.of_nat (seq 0 k1)) = true ->
  forall u v, (u < N.of_nat k1)%N -> (v < N.of_nat k2)%N -> P u v = true.
Proof.
  intros H u v Hu Hv.
  apply (forall_N_below k2 (P u)); [|exact Hv].
  apply (forall_N_below k1 (fun u => forallb (P u) (map N.of_nat (seq 0 k2))) H u Hu).
Qed.

Lemma reads_b2a_char (n : N) : (n < 64)%N -> reads (b2a_char n) n = true.
Proof.
  revert n. apply (forall_N_below 64 (fun n => reads (b2a_char n) n)).
  vm_compute. reflexivity.
Qed.

Lemma reads_inv (c : ascii) (v : N) :
  reads c v = true ->
  table_a2b_base64 c = Some v /\ Ascii.eqb c BASE64_PAD = false.
Proof.
  unfold reads. rewrite andb_true_iff, negb_true_iff.
  intros [H1 H2]. split; [|exact H2].
  destruct (table_a2b_base64 c); [|discriminate].
  apply N.eqb_eq in H1. now subst.
Qed.

(** The four parts of an octet the encoder uses. *)
Lemma hi6_lt (x : ascii) : (N.shiftr (N_of_ascii x) 2 < 64)%N.
Proof.
  apply N.ltb_lt. revert x.
  apply (forall_ascii (fun x => N.shiftr (N_of_ascii x) 2 <? 64)%N).
  vm_compute. reflexivity.
Qed.

Lemma lo2_lt (x : ascii) : (N.land (N_of_ascii x) 3 < 4)%N.
Proof.
  apply N.ltb_lt. revert x.
  apply (forall_ascii (fun x => N.land (N_of_ascii x) 3 <? 4)%N).
  vm_compute. reflexivity.
Qed.

Lemma hi4_lt (x : ascii) : (N.shiftr (N_of_ascii x) 4 < 16)%N.
Proof.
  apply N.ltb_lt. revert x.
  apply (forall_ascii (fun x => N.shiftr (N_of_ascii x) 4 <? 16)%N).
  vm_compute. reflexivity.
Qed.

Lemma lo4_lt (x : ascii) : (N.land (N_of_ascii x) 15 < 16)%N.
Proof.
  apply N.ltb_lt. revert x.
  apply (forall_ascii (fun x => N.land (N_of_ascii x) 15 <? 16)%N).
  vm_compute. reflexivity.
Qed.

Lemma hi2_lt (x : ascii) : (N.shiftr (N_of_ascii x) 6 < 4)%N.
Proof.
  apply N.ltb_lt. revert x.
  apply (forall_ascii (fun x => N.shiftr (N_of_ascii x) 6 <? 4)%N).
  vm_compute. reflexivity.
Qed.

Lemma lo6_lt (x : ascii) : (N.land (N_of_ascii x) 63 < 64)%N.
Proof.
  apply N.ltb_lt. revert x.
  apply (forall_ascii (fun x => N.land (N_of_ascii x) 63 <? 64)%N).
  vm_compute. reflexivity.
Qed.

(** Joining and splitting sextets. *)
Lemma join24 (u v : N) : (u < 4)%N -> (v < 16)%N ->
  (N.lor (N.shiftl u 4) v < 64)%N
  /\ N.shiftr (N.lor (N.shiftl u 4) v) 4 = u
  /\ N.land (N.lor (N.shiftl u 4) v) 15 = v.
Proof.
  intros Hu Hv.
  pose proof (forall_N_below2 4 16
    (fun u v => let s := N.lor (N.shiftl u 4) v in
       (s <? 64)%N && (N.shiftr s 4 =? u)%N && (N.land s 15 =? v)%N)
    ltac:(vm_compute; reflexivity) u v Hu Hv) as H.
  simpl in H. rewrite !andb_true_iff in H. destruct H as [[H1 H2] H3].
  apply N.ltb_lt in H1. apply N.eqb_eq in H2, H3. auto.
Qed.

Lemma join42 (w t : N) : (w < 16)%N -> (t < 4)%N ->
  (N.lor (N.shiftl w 2) t < 64)%N
  /\ N.shiftr (N.lor (N.shiftl w 2) t) 2 = w
  /\ N.land (N.lor (N.shiftl w 2) t) 3 = t.
Proof.
  intros Hw Ht.
  pose proof (forall_N_below2 16 4
    (fun w t => let s := N.lor (N.shiftl w 2) t in
       (s <? 64)%N && (N.shiftr s 2 =? w)%N && (N.land s 3 =? t)%N)
    ltac:(vm_compute; reflexivity) w t Hw Ht) as H.
  simpl in H. rewrite !andb_true_iff in H. destruct H as [[H1 H2] H3].
  apply N.ltb_lt in H1. apply N.eqb_eq in H2, H3. auto.
Qed.

(** Rebuilding an octet from its parts. *)
Lemma octet_62 (x : ascii) :
  ascii_of_N (N.lor (N.shiftl (N.shiftr (N_of_ascii x) 2) 2)
                    (N.land (N_of_ascii x) 3)) = x.
Proof.
  apply Ascii.eqb_eq. revert x.
  apply (forall_ascii (fun x => Ascii.eqb (ascii_of_N
    (N.lor (N.shiftl (N.shiftr (N_of_ascii x) 2) 2) (N.land (N_of_ascii x) 3))) x)).
  vm_compute. reflexivity.
Qed.

Lemma octet_44 (x : ascii) :
  ascii_of_N (N.lor (N.shiftl (N.shiftr (N_of_ascii x) 4) 4)
                    (N.land (N_of_ascii x) 15)) = x.
Proof.
  apply Ascii.eqb_eq. revert x.
  apply (forall_ascii (fun x => Ascii.eqb (ascii_of_N
    (N.lor (N.shiftl (N.shiftr (N_of_ascii x) 4) 4) (N.land (N_of_ascii x) 15))) x)).
  vm_compute. reflexivity.
Qed.

Lemma octet_26 (x : ascii) :
  ascii_of_N (N.lor (N.shiftl (N.shiftr (N_of_ascii x) 6) 6)
                    (N.land (N_of_ascii x) 63)) = x.
Proof.
  apply Ascii.eqb_eq. revert x.
  apply (forall_ascii (fun x => Ascii.eqb (ascii_of_N
    (N.lor (N.shiftl (N.shiftr (N_of_ascii x) 6) 6) (N.land (N_of_ascii x) 63))) x)).
  vm_compute. reflexivity.
Qed.

(** One step of the decoder on a character of the alphabet. *)
Lemma a2b_step0 c v data lc p acc : reads c v = true ->
  a2b_loop (c :: data) 0 lc p acc = a2b_loop data 1 v 0 acc.
Proof. intros H. apply reads_inv in H as [H1 H2]. simpl. now rewrite H2, H1. Qed.

Lemma a2b_step1 c v data lc p acc : reads c v = true ->
  a2b_loop (c :: data) 1 lc p acc
  = a2b_loop data 2 (N.land v 15) 0
      (ascii_of_N (N.lor (N.shiftl lc 2) (N.shiftr v 4)) :: acc).
Proof. intros H. apply reads_inv in H as [H1 H2]. simpl. now rewrite H2, H1. Qed.

Lemma a2b_step2 c v data lc p acc : reads c v = true ->
  a2b_loop (c :: data) 2 lc p acc
  = a2b_loop data 3 (N.land v 3) 0
      (ascii_of_N (N.lor (N.shiftl lc 4) (N.shiftr v 2)) :: acc).
Proof. intros H. apply reads_inv in H as [H1 H2]. simpl. now rewrite H2, H1. Qed.

Lemma a2b_step3 c v data lc p acc : reads c v = true ->
  a2b_loop (c :: data) 3 lc p acc
  = a2b_loop data 0 0 0 (ascii_of_N (N.lor (N.shiftl lc 6) v) :: acc).
Proof. intros H. apply reads_inv in H as [H1 H2]. simpl. now rewrite H2, H1. Qed.

(** Between groups ([quad_pos = 0]) the decoder's [leftchar] and [pads]
    are dead. *)
Lemma a2b_loop_q0 data lc p acc :
  a2b_loop data 0 lc p acc = a2b_loop data 0 0 0 acc.
Proof.
  revert lc p. induction data as [|c data IH]; intros lc p; simpl; [reflexivity|].
  destruct (Ascii.eqb c BASE64_PAD).
  - rewrite IH. symmetry. apply IH.
  - destruct (table_a2b_base64 c); [reflexivity|].
    rewrite IH. symmetry. apply IH.
Qed.

(** Whitespace is skipped in every state. *)
Lemma is_space_skipped (c : ascii) : is_space c = true ->
  Ascii.eqb c BASE64_PAD = false /\ table_a2b_base64 c = None.
Proof.
  intros H.
  pose proof (forall_ascii
    (fun c => implb (is_space c)
       (negb (Ascii.eqb c BASE64_PAD)
        && match table_a2b_base64 c with None => true | Some _ => false end))
    ltac:(vm_compute; reflexivity) c) as Hc.
  simpl in Hc. rewrite H in Hc. simpl in Hc.
  rewrite andb_true_iff, negb_true_iff in Hc. destruct Hc as [H1 H2].
  split; [exact H1|]. now destruct (table_a2b_base64 c).
Qed.

Lemma a2b_skip_space c data q lc p acc : is_space c = true ->
  a2b_loop (c :: data) q lc p acc = a2b_loop data q lc p acc.
Proof. intros H. apply is_space_skipped in H as [H1 H2]. simpl. now rewrite H1, H2. Qed.

End Base64Facts.

Section Base64RoundTrip.
Import Py base64.

Lemma bytes_ind3 (P : bytes -> Prop) :
  P [] -> (forall x, P [x]) -> (forall x y, P [x; y]) ->
  (forall x y z s, P s -> P (x :: y :: z :: s)) ->
  forall s, P s.
Proof.
  intros H0 H1 H2 H3. fix IH 1.
  intros [|x [|y [|z s]]];
    [apply H0 | apply H1 | apply H2 | apply H3, IH].
Qed.

Lemma whole3_length (k : nat) (s : bytes) :
  length s = 3 * k -> whole3 s = true.
Proof.
  revert s. induction k as [|k IH]; intros s H.
  - destruct s; [reflexivity | discriminate].
  - destruct s as [|x [|y [|z s]]]; simpl in H; try lia.
    simpl. apply IH. lia.
Qed.

(** A full group of three octets is decoded back and leaves the decoder
    between groups. *)
Lemma a2b_group3 (x y z : ascii) data lc p acc :
  a2b_loop (b2a [x; y; z] ++ data) 0 lc p acc
  = a2b_loop data 0 0 0 (z :: y :: x :: acc).
Proof.
  cbn [b2a app].
  destruct (join24 _ _ (lo2_lt x) (hi4_lt y)) as [B2 [S2 L2]].
  destruct (join42 _ _ (lo4_lt y) (hi2_lt z)) as [B3 [S3 L3]].
  rewrite (a2b_step0 _ _ _ _ _ _ (reads_b2a_char _ (hi6_lt x))).
  rewrite (a2b_step1 _ _ _ _ _ _ (reads_b2a_char _ B2)).
  rewrite (a2b_step2 _ _ _ _ _ _ (reads_b2a_char _ B3)).
  rewrite (a2b_step3 _ _ _ _ _ _ (reads_b2a_char _ (lo6_lt z))).
  rewrite S2, L2, S3, L3.
  now rewrite octet_62, octet_44, octet_26.
Qed.

Lemma a2b_tail1 (x : ascii) data lc p acc :
  a2b_loop (b2a [x] ++ data) 0 lc p acc = Ok (rev (x :: acc)).
Proof.
  cbn [b2a app].
  assert (Hz : (0 < 16)%N) by lia.
  destruct (join24 _ _ (lo2_lt x) Hz) as [B2 [S2 L2]].
  rewrite N.lor_0_r in B2, S2, L2.
  rewrite (a2b_step0 _ _ _ _ _ _ (reads_b2a_char _ (hi6_lt x))).
  rewrite (a2b_step1 _ _ _ _ _ _ (reads_b2a_char _ B2)).
  rewrite S2, octet_62. reflexivity.
Qed.

Lemma a2b_tail2 (x y : ascii) data lc p acc :
  a2b_loop (b2a [x; y] ++ data) 0 lc p acc = Ok (rev (y :: x :: acc)).
Proof.
  cbn [b2a app].
  assert (Hz : (0 < 4)%N) by lia.
  destruct (join24 _ _ (lo2_lt x) (hi4_lt y)) as [B2 [S2 L2]].
  destruct (join42 _ _ (lo4_lt y) Hz) as [B3 [S3 L3]].
  rewrite N.lor_0_r in B3, S3, L3.
  rewrite (a2b_step0 _ _ _ _ _ _ (reads_b2a_char _ (hi6_lt x))).
  rewrite (a2b_step1 _ _ _ _ _ _ (reads_b2a_char _ B2)).
  rewrite (a2b_step2 _ _ _ _ _ _ (reads_b2a_char _ B3)).
  rewrite S2, L2, S3, octet_62, octet_44. reflexivity.
Qed.

(** Decoding the base64 text of [s] followed by [data]: a whole number of
    groups is decoded and the decoder carries on with [data]; a padded
    last group ends the decoding. *)
Lemma a2b_loop_b2a (s : bytes) : forall data lc p acc,
  a2b_loop (b2a s ++ data) 0 lc p acc
  = if whole3 s then a2b_loop data 0 0 0 (rev s ++ acc)
    else Ok (rev acc ++ s).
Proof.
  induction s as [|x|x y|x y z s IH] using bytes_ind3; intros data lc p acc.
  - simpl. apply a2b_loop_q0.
  - rewrite a2b_tail1. reflexivity.
  - rewrite a2b_tail2. simpl. now rewrite <- !app_assoc.
  - change (b2a (x :: y :: z :: s)) with (b2a [x; y; z] ++ b2a s).
    rewrite <- app_assoc, a2b_group3, IH.
    cbn [whole3]. destruct (whole3 s).
    + f_equal. simpl. now rewrite <- !app_assoc.
    + f_equal. simpl. now rewrite <- !app_assoc.
Qed.

(** [encodebytes] works line by line. *)
Lemma range0_succ (n : nat) :
  0 < n -> range0 n MAXBINSIZE
           = 0 :: map (fun i => MAXBINSIZE + i) (range0 (n - MAXBINSIZE) MAXBINSIZE).
Proof.
  intros Hn. unfold range0.
  change MAXBINSIZE with 57.
  assert (E : (n + 57 - 1) / 57 = S ((n - 57 + 57 - 1) / 57)).
  { destruct (Nat.le_gt_cases n 57) as [Hle|Hgt].
    - replace (n - 57 + 57 - 1) with 56 by lia.
      rewrite (Nat.div_small 56 57) by lia.
      symmetry. apply (Nat.div_unique _ _ 1 (n - 1)); lia.
    - replace (n + 57 - 1) with (1 * 57 + (n - 57 + 57 - 1)) by lia.
      rewrite Nat.div_add_l by lia. reflexivity. }
  rewrite E. cbn [seq map]. f_equal.
  rewrite <- seq_shift, !map_map. apply map_ext. intros k. lia.
Qed.

Lemma encodebytes_nil : encodebytes [] = [].
Proof. reflexivity. Qed.

Lemma encodebytes_line (s : bytes) :
  s <> [] ->
  encodebytes s
  = b2a_base64 (firstn MAXBINSIZE s) ++ encodebytes (skipn MAXBINSIZE s).
Proof.
  intros Hs. unfold encodebytes.
  rewrite range0_succ by (destruct s; [congruence | simpl; lia]).
  cbn [flat_map skipn]. f_equal.
  rewrite length_skipn, flat_map_concat_map, map_map, <- flat_map_concat_map.
  apply flat_map_ext. intros i.
  now rewrite skipn_skipn, (Nat.add_comm i).
Qed.

Lemma a2b_loop_encodebytes (n : nat) : forall (s : bytes) lc p acc,
  length s <= n ->
  a2b_loop (encodebytes s) 0 lc p acc = Ok (rev acc ++ s).
Proof.
  induction n as [|n IH]; intros s lc p acc Hn.
  - destruct s; [|simpl in Hn; lia]. simpl. now rewrite app_nil_r.
  - destruct s as [|c s]; [simpl; now rewrite app_nil_r|].
    rewrite encodebytes_line by discriminate.
    unfold b2a_base64. rewrite <- app_assoc, a2b_loop_b2a.
    remember (c :: s) as t eqn:Et.
    destruct (Nat.le_gt_cases MAXBINSIZE (length t)) as [Hlong|Hshort].
    + rewrite (whole3_length 19) by (rewrite length_firstn; change MAXBINSIZE with 57 in *; lia).
      cbn [app]. rewrite a2b_skip_space by reflexivity.
      rewrite IH.
      * rewrite rev_app_distr, rev_involutive, <- app_assoc.
        now rewrite firstn_skipn.
      * rewrite length_skipn. subst t. simpl in *.
        change MAXBINSIZE with 57 in *. lia.
    + rewrite firstn_all2 by lia. rewrite skipn_all2 by lia.
      rewrite encodebytes_nil. destruct (whole3 t); [|reflexivity].
      cbn [app]. rewrite a2b_skip_space by reflexivity.
      simpl. now rewrite rev_app_distr, rev_involutive.
Qed.

Lemma a2b_base64_encodebytes (s : bytes) :
  a2b_base64 (encodebytes s) = Ok s.
Proof. unfold a2b_base64. now rewrite (a2b_loop_encodebytes (length s)). Qed.

(** Leading and trailing whitespace does not change what is decoded. *)
Lemma a2b_loop_leading ws data q lc p acc :
  Forall (fun c => is_space c = true) ws ->
  a2b_loop (ws ++ data) q lc p acc = a2b_loop data q lc p acc.
Proof.
  induction 1 as [|c ws Hc _ IH]; simpl app; [reflexivity|].
  now rewrite a2b_skip_space.
Qed.

Lemma a2b_loop_trailing ws : Forall (fun c => is_space c = true) ws ->
  forall data q lc p acc,
  a2b_loop (data ++ ws) q lc p acc = a2b_loop data q lc p acc.
Proof.
  intros Hws. induction data as [|c data IH]; intros q lc p acc.
  - rewrite <- (app_nil_r ws) at 1. simpl app at 1.
    rewrite a2b_loop_leading by assumption. reflexivity.
  - simpl. destruct (Ascii.eqb c BASE64_PAD).
    + now rewrite !IH.
    + destruct (table_a2b_base64 c) as [v|]; [|apply IH].
      destruct q as [|[|[|q]]]; apply IH.
Qed.

Lemma a2b_base64_strip (s : bytes) :
  a2b_base64 (strip s) = a2b_base64 s.
Proof.
  destruct (strip_decomp s) as [ws1 [ws2 [Hs [H1 H2]]]].
  unfold a2b_base64. rewrite Hs at 2.
  rewrite a2b_loop_leading by assumption.
  now rewrite a2b_loop_trailing.
Qed.

(** The characters [encodebytes] writes are ASCII. *)
Lemma b2a_char_ascii (n : N) : is_ascii (b2a_char n) = true.
Proof.
  unfold b2a_char.
  destruct (nth_in_or_default (N.to_nat n) table_b2a_base64 BASE64_PAD) as [H| ->];
    [|reflexivity].
  revert H. generalize (nth (N.to_nat n) table_b2a_base64 BASE64_PAD).
  apply forallb_forall. vm_compute. reflexivity.
Qed.

Lemma b2a_ascii (s : bytes) : Forall (fun c => is_ascii c = true) (b2a s).
Proof.
  induction s as [|x|x y|x y z s IH] using bytes_ind3; cbn [b2a];
    repeat (constructor; try apply b2a_char_ascii; try reflexivity).
  exact IH.
Qed.

Lemma encodebytes_ascii (s : bytes) :
  Forall (fun c => is_ascii c = true) (encodebytes s).
Proof.
  unfold encodebytes.
  induction (range0 (length s) MAXBINSIZE) as [|i l IH]; simpl; [constructor|].
  apply Forall_app. split; [|exact IH].
  unfold b2a_base64. apply Forall_app. split; [apply b2a_ascii|].
  repeat constructor.
Qed.

(** What [get_fingerprint] prints for key octets [s] and what
    [SshClient.open] reads back from it. *)
Lemma printable_key (s : bytes) :
  decode_utf8 (strip (encodebytes s))
  = Ok (string_of_list_ascii (strip (encodebytes s))).
Proof. apply decode_utf8_ascii, strip_Forall, encodebytes_ascii. Qed.

Lemma b64decode_printable_key (s : bytes) :
  b64decode (string_of_list_ascii (strip (encodebytes s))) = Ok s.
Proof.
  unfold b64decode. rewrite list_ascii_of_string_of_list_ascii.
  assert (H : forallb is_ascii (strip (encodebytes s)) = true).
  { apply forallb_forall. apply List.Forall_forall.
    apply strip_Forall, encodebytes_ascii. }
  rewrite H, a2b_base64_strip. apply a2b_base64_encodebytes.
Qed.

End Base64RoundTrip.

(** ** Reasoning about monadic code *)

Lemma bind_ok {A B} (m : M A) (f : A -> M B) st a st' :
  m st = (Ok a, st') -> bind m f st = f a st'.
Proof. intros H. unfold bind. now rewrite H. Qed.

Lemma bind_raise {A B} (m : M A) (f : A -> M B) st e st' :
  m st = (Raise e, st') -> bind m f st = (Raise e, st').
Proof. intros H. unfold bind. now rewrite H. Qed.

Ltac munfold :=
  repeat (progress unfold bind, ret, raise, lift, lift_exn, get, modify, emit,
            call, call_exn, finally, try_except, self, update_self in *).

(** ** The session handle *)

Section Session.
Context {E : Env}.
Import Py.

Local Arguments base64.b64decode : simpl never.
Local Arguments split1 : simpl never.
Local Arguments String.eqb : simpl never.

Lemma _assert_open_zero st :
  open_count st = 0%Z -> _assert_open st = (Raise (SshClientNotOpen not_open_msg), st).
Proof. unfold open_count, _assert_open. munfold. simpl. now intros ->. Qed.

Lemma _assert_open_nonzero st :
  open_count st <> 0%Z -> _assert_open st = (Ok tt, st).
Proof.
  unfold open_count, _assert_open. munfold. simpl. intros H.
  destruct (Z.eqb_spec (SshClient._open_count (ssh_client st)) 0); [contradiction | reflexivity].
Qed.

(** Every [open] that returns has connected a new [SSHClient] object,
    whatever the count was. *)
Lemma open_connects st st' :
  open st = (Ok tt, st') ->
  exists req,
    trace st' = trace st ++ [EvConnect (next_client st) req]
    /\ connected st' = connected st ++ [next_client st]
    /\ SshClient.client (ssh_client st') = Some (next_client st)
    /\ next_client st' = S (next_client st)
    /\ open_count st' = (open_count st + 1)%Z.
Proof.
  unfold open, client_connect, new_SSHClient, open_count. munfold. simpl.
  intros H.
  repeat match type of H with
         | context [match ?x with _ => _ end] =>
             lazymatch x with
             | context [match _ with _ => _ end] => fail
             | _ => destruct x eqn:?; simpl in H; try discriminate H
             end
         end.
  all: injection H as <-; eexists; repeat split; reflexivity.
Qed.

(** What [open] makes of the stored host key: the connection is requested
    with the key type and the key that the text of the key splits and
    decodes to. *)
Lemma open_reads_host_key st st' text host_key_type host_key_data data :
  SshClient.host_key (ssh_client st) = Some text ->
  split1 " " text = [host_key_type; host_key_data] ->
  base64.b64decode host_key_data = Ok data ->
  open st = (Ok tt, st') ->
  exists req,
    trace st' = trace st ++ [EvConnect (next_client st) req]
    /\ cr_host_key_type req = host_key_type
    /\ cr_host_key req = (if String.eqb host_key_type "ssh-rsa" then RSAKey data
                          else ECDSAKey data).
Proof.
  intros Hk Hs Hb. unfold open, client_connect, new_SSHClient. munfold. simpl.
  rewrite Hk. simpl. rewrite Hs. simpl. rewrite Hb. simpl. intros H.
  repeat match type of H with
         | context [match ?x with _ => _ end] =>
             lazymatch x with
             | context [match _ with _ => _ end] => fail
             | _ => destruct x eqn:?; simpl in H; try discriminate H
             end
         end.
  all: injection H as <-; eexists; repeat split; reflexivity.
Qed.

(** [close] on a handle whose count is at least two only decrements. *)
Lemma close_decrements st :
  open_count st <> 1%Z ->
  close st = (Ok tt, set_ssh_client
                       (SshClient.set_open_count (open_count st - 1) (ssh_client st)) st).
Proof.
  unfold close, open_count. munfold. simpl. intros H.
  destruct (Z.eqb_spec (SshClient._open_count (ssh_client st) - 1) 0); [lia | reflexivity].
Qed.

(** C7, as amended.  On a handle whose count is 0, [close] raises nothing:
    it returns normally, leaves the count at -1, and changes nothing else
    (no client is closed, no event is issued). *)
Theorem close_at_zero_returns st :
  open_count st = 0%Z ->
  close st = (Ok tt, set_ssh_client
                       (SshClient.set_open_count (-1) (ssh_client st)) st).
Proof.
  intros H. rewrite close_decrements by lia. now rewrite H.
Qed.

(** C8, as amended.  With a count of exactly 0 each of [exec], [run],
    [write_file] and [read_file] raises [SshClientNotOpen] and does
    nothing else; with any other count, negative ones included, the guard
    passes and the operation goes to the client: on a connected client
    the command is executed, and the transfer channel is opened. *)
Theorem operations_guarded_by_zero st command flag path data :
  (open_count st = 0%Z ->
     exec command st = (Raise (SshClientNotOpen not_open_msg), st)
     /\ run command flag st = (Raise (SshClientNotOpen not_open_msg), st)
     /\ write_file path data st = (Raise (SshClientNotOpen not_open_msg), st)
     /\ read_file path st = (Raise (SshClientNotOpen not_open_msg), st))
  /\ (open_count st <> 0%Z ->
      _assert_open st = (Ok tt, st)
      /\ exec command st = client_exec_command command st
      /\ forall cid, SshClient.client (ssh_client st) = Some cid ->
           is_connected cid st = true ->
           exec command st
           = (exec_command E (trace st) command,
              set_trace (trace st ++ [EvExec cid command]) st)
           /\ trace (snd (run command flag st)) = trace st ++ [EvExec cid command]
           /\ (exists evs, trace (snd (write_file path data st))
                           = trace st ++ EvOpenSftp cid :: evs)
           /\ (exists evs, trace (snd (read_file path st))
                           = trace st ++ EvOpenSftp cid :: evs)).
Proof.
  split.
  - intros H. pose proof (_assert_open_zero st H) as Ha.
    unfold exec, run, write_file, read_file.
    rewrite !(bind_raise _ _ _ _ _ Ha). auto.
  - intros H. pose proof (_assert_open_nonzero st H) as Ha.
    split; [exact Ha|]. split.
    + unfold exec. now rewrite (bind_ok _ _ _ _ _ Ha).
    + intros cid Hc Hl.
      assert (Hx : exec command st
                   = (exec_command E (trace st) command,
                      set_trace (trace st ++ [EvExec cid command]) st)).
      { unfold exec. rewrite (bind_ok _ _ _ _ _ Ha).
        unfold client_exec_command. munfold. simpl. now rewrite Hc, Hl. }
      split; [exact Hx|]. split; [|split].
      * unfold run. rewrite (bind_ok _ _ _ _ _ Ha).
        unfold bind at 1. rewrite Hx.
        destruct (exec_command E (trace st) command) as [r|e]; [|reflexivity].
        munfold. simpl. repeat case_match; simplify_eq/=; reflexivity.
      * unfold write_file. rewrite (bind_ok _ _ _ _ _ Ha).
        unfold client_open_sftp. munfold. simpl. rewrite Hc, Hl. simpl.
        repeat case_match; simplify_eq/=; eexists; rewrite <- ?app_assoc; reflexivity.
      * unfold read_file. rewrite (bind_ok _ _ _ _ _ Ha).
        unfold client_open_sftp. munfold. simpl. rewrite Hc, Hl. simpl.
        repeat case_match; simplify_eq/=; eexists; rewrite <- ?app_assoc; reflexivity.
Qed.

End Session.

Section Nested.
Context {E : Env}.

Lemma connects_app tr1 tr2 : connects (tr1 ++ tr2) = connects tr1 + connects tr2.
Proof. unfold connects. now rewrite List.filter_app, length_app. Qed.

Lemma closes_app tr1 tr2 : closes (tr1 ++ tr2) = closes tr1 + closes tr2.
Proof. unfold closes. now rewrite List.filter_app, length_app. Qed.

(** [close] issues at most the closing of the current client, and that
    exactly when the count comes down to 0. *)
Lemma close_trace st st' :
  close st = (Ok tt, st') ->
  open_count st' = (open_count st - 1)%Z
  /\ trace st' = trace st
                 ++ (if (open_count st =? 1)%Z
                     then match SshClient.client (ssh_client st) with
                          | Some cid => [EvClose cid]
                          | None => []
                          end
                     else []).
Proof.
  unfold close, client_close, open_count. munfold. simpl.
  destruct (Z.eqb_spec (SshClient._open_count (ssh_client st) - 1) 0) as [H0|H0];
    destruct (Z.eqb_spec (SshClient._open_count (ssh_client st)) 1) as [H1|H1];
    try lia; intros H; repeat case_match; simplify_eq/=;
    rewrite ?app_nil_r; auto.
Qed.

(** The physical connection is opened once for every acquisition, not
    once for the outermost one. *)
Lemma connects_per_acquire (ops : list op) : forall st st',
  run_ops ops st = (Ok tt, st') ->
  connects (trace st') = connects (trace st) + acquires ops.
Proof.
  induction ops as [|[|] ops IH]; intros st st' H; simpl in H.
  - unfold ret in H. simplify_eq. unfold acquires. simpl. lia.
  - unfold bind in H. destruct (open st) as [[[]|e] st1] eqn:Ho; [|discriminate].
    apply open_connects in Ho as [req [Ht _]].
    rewrite (IH _ _ H), Ht, connects_app. unfold acquires, connects. simpl. lia.
  - unfold bind in H. destruct (close st) as [[[]|e] st1] eqn:Hc; [|discriminate].
    apply close_trace in Hc as [_ Ht].
    rewrite (IH _ _ H), Ht, connects_app. unfold acquires. simpl.
    repeat case_match; unfold connects; simpl; lia.
Qed.

End Nested.

(** *** The session handle in the scenario *)

(** C1.  Two nested acquisitions on one handle: the code connects twice,
    closes only the second client and leaves the first one connected when
    the count is back at 0. *)
Theorem nested_acquire_opens_twice :
  let ops := [Acquire; Acquire; Release; Release] in
  let out := run_ops (E:=Scenario.device 3 "SUCCESS" 0) ops
               (Scenario.start (Some "ssh-rsa AAEC")) in
  balanced ops = true
  /\ fst out = Ok tt
  /\ connects (trace (snd out)) = 2
  /\ closes (trace (snd out)) = 1
  /\ open_count (snd out) = 0%Z
  /\ connected (snd out) = [0].
Proof. vm_compute. repeat split; reflexivity. Qed.

(** C7 as stated fails: [close] on a handle that was never opened returns
    normally and leaves the count at -1. *)
Lemma close_unopened_is_silent :
  open_count (Scenario.start None) = 0%Z
  /\ fst (close (Scenario.start None)) = Ok tt
  /\ open_count (snd (close (Scenario.start None))) = (-1)%Z.
Proof. vm_compute. repeat split; reflexivity. Qed.

Lemma close_at_zero_returns_witness :
  open_count (Scenario.start None) = 0%Z
  /\ close (Scenario.start None)
     = (Ok tt, set_ssh_client
                 (SshClient.set_open_count (-1) (ssh_client (Scenario.start None)))
                 (Scenario.start None)).
Proof.
  split; [reflexivity | apply close_at_zero_returns; reflexivity].
Defined.

(** C8 as stated fails.  After [close; open; close] on a new handle the
    count is -1 and the client is connected: [exec] runs the command.
    After a lone [close] the count is -1 and there is no client: [exec]
    fails with [AttributeError], not with [SshClientNotOpen]. *)
Lemma exec_with_negative_count :
  let dev := Scenario.device 3 "SUCCESS" 0 in
  let st := snd ((close ;;; open (E:=dev) ;;; close)%py (Scenario.start (Some "ssh-rsa AAEC"))) in
  let st' := snd (close (Scenario.start None)) in
  (open_count st = (-1)%Z
   /\ fst (exec (E:=dev) "/export" st) = Ok (mk_exec_reply (Py.b "/ip address") [] 0)
   /\ trace (snd (exec (E:=dev) "/export" st)) = trace st ++ [EvExec 0 "/export"])
  /\ (open_count st' = (-1)%Z
      /\ fst (exec (E:=dev) "/export" st')
         = Raise (AttributeError "'NoneType' object has no attribute 'exec_command'")).
Proof. vm_compute. repeat split; reflexivity. Qed.

Lemma operations_guarded_by_zero_witness :
  let dev := Scenario.device 3 "SUCCESS" 0 in
  open_count (Scenario.start None) = 0%Z
  /\ exec (E:=dev) "/export" (Scenario.start None)
     = (Raise (SshClientNotOpen not_open_msg), Scenario.start None).
Proof.
  split; [reflexivity|].
  apply (operations_guarded_by_zero (E:=Scenario.device 3 "SUCCESS" 0)
           (Scenario.start None) "/export" true EmptyString []).
  reflexivity.
Defined.

(** ** The shape of what [encodebytes] writes *)

Section Base64Shape.
Import Py base64.

Lemma b2a_char_no_space (n : N) : is_space (b2a_char n) = false.
Proof.
  apply negb_true_iff. unfold b2a_char.
  destruct (nth_in_or_default (N.to_nat n) table_b2a_base64 BASE64_PAD) as [H| ->];
    [|reflexivity].
  revert H. generalize (nth (N.to_nat n) table_b2a_base64 BASE64_PAD).
  apply (forallb_forall (fun c => negb (is_space c))). vm_compute. reflexivity.
Qed.

Lemma b2a_no_space (s : bytes) : Forall (fun c => is_space c = false) (b2a s).
Proof.
  induction s as [|x|x y|x y z s IH] using bytes_ind3; cbn [b2a];
    repeat (constructor; try apply b2a_char_no_space; try reflexivity).
  exact IH.
Qed.

Lemma b2a_not_nil (s : bytes) : s <> [] -> b2a s <> [].
Proof. destruct s as [|x [|y [|z s]]]; [congruence | discriminate ..]. Qed.

Lemma b2a_app (s t : bytes) : whole3 s = true -> b2a (s ++ t) = b2a s ++ b2a t.
Proof.
  induction s as [|x|x y|x y z s IH] using bytes_ind3; cbn [whole3]; intros H;
    try discriminate; [reflexivity|].
  change ((x :: y :: z :: s) ++ t) with (x :: y :: z :: (s ++ t)).
  cbn [b2a]. rewrite IH by assumption. reflexivity.
Qed.

Lemma filter_not_LF_no_space (l : bytes) :
  Forall (fun c => is_space c = false) l -> List.filter not_LF l = l.
Proof.
  induction 1 as [|c l Hc _ IH]; simpl; [reflexivity|].
  unfold not_LF at 1. destruct (Ascii.eqb_spec c LF) as [->|_]; [discriminate|].
  simpl. now rewrite IH.
Qed.

(** A text that starts and ends with something else than whitespace and is
    followed by a newline is stripped to itself. *)
Lemma strip_line (c d : ascii) (mid : bytes) :
  is_space c = false -> is_space d = false ->
  strip ((c :: mid) ++ [d; LF]) = (c :: mid) ++ [d].
Proof.
  intros Hc Hd. unfold strip, rstrip.
  assert (Hl : lstrip ((c :: mid) ++ [d; LF]) = (c :: mid) ++ [d; LF]).
  { simpl. now rewrite Hc. }
  rewrite Hl.
  replace ((c :: mid) ++ [d; LF]) with (((c :: mid) ++ [d]) ++ [LF])
    by now rewrite <- app_assoc.
  rewrite rev_app_distr. cbn [rev app lstrip].
  change (is_space LF) with true. cbv iota.
  rewrite rev_app_distr. cbn [rev app lstrip]. rewrite Hd.
  cbn [rev]. rewrite rev_app_distr, rev_involutive. reflexivity.
Qed.

Lemma strip_one (c : ascii) : is_space c = false -> strip [c; LF] = [c].
Proof.
  intros Hc. unfold strip, rstrip. simpl. rewrite Hc. simpl.
  change (is_space LF) with true. cbv iota. simpl. now rewrite Hc.
Qed.

Lemma body_no_space (l : bytes) :
  l <> [] -> Forall (fun c => is_space c = false) l -> body l.
Proof.
  intros Hn H. destruct l as [|c l]; [congruence|].
  destruct (exists_last (l := c :: l)) as [init [d Hd]]; [discriminate|].
  destruct init as [|c' init].
  - simpl in Hd. injection Hd as -> ->. constructor. now inversion H.
  - rewrite Hd in *. simpl in Hd. injection Hd as <- _.
    apply body_more.
    + now inversion H.
    + apply Forall_app in H. destruct H as [_ H]. now inversion H.
Qed.

Lemma body_join (l1 l2 : bytes) (sep : bytes) :
  body l1 -> body l2 -> body (l1 ++ sep ++ l2).
Proof.
  intros H1 H2. destruct H1 as [c Hc|c mid d Hc Hd]; destruct H2 as [c2 Hc2|c2 mid2 d2 Hc2 Hd2].
  - change ([c] ++ sep ++ [c2]) with ((c :: sep) ++ [c2]). now apply body_more.
  - replace ([c] ++ sep ++ (c2 :: mid2) ++ [d2])
      with ((c :: sep ++ c2 :: mid2) ++ [d2]).
    + now apply body_more.
    + simpl. now rewrite <- app_assoc.
  - replace (((c :: mid) ++ [d]) ++ sep ++ [c2])
      with ((c :: mid ++ [d] ++ sep) ++ [c2]).
    + now apply body_more.
    + simpl. now rewrite <- !app_assoc.
  - replace (((c :: mid) ++ [d]) ++ sep ++ (c2 :: mid2) ++ [d2])
      with ((c :: mid ++ [d] ++ sep ++ c2 :: mid2) ++ [d2]).
    + now apply body_more.
    + simpl. rewrite <- !app_assoc. simpl. now rewrite <- !app_assoc.
Qed.

Lemma strip_body (l : bytes) : body l -> strip (l ++ [LF]) = l.
Proof.
  intros [c Hc|c mid d Hc Hd].
  - now apply strip_one.
  - rewrite <- app_assoc. now apply strip_line.
Qed.

(** [encodebytes] of a non-empty input is a body and a final newline; the
    body without its newlines is the base64 text of the input, and it is
    that text itself when the input fits one line. *)
Lemma encodebytes_body (n : nat) : forall s : bytes,
  length s <= n -> s <> [] ->
  exists l, encodebytes s = l ++ [LF]
            /\ body l
            /\ List.filter not_LF l = b64encode s
            /\ (length s <= MAXBINSIZE -> l = b64encode s).
Proof.
  induction n as [|n IH]; intros s Hn Hs.
  - destruct s; [congruence | simpl in Hn; lia].
  - rewrite encodebytes_line by assumption. unfold b2a_base64, b64encode.
    destruct (Nat.le_gt_cases (length s) MAXBINSIZE) as [Hshort|Hlong].
    + rewrite firstn_all2 by lia. rewrite skipn_all2 by lia.
      rewrite encodebytes_nil, app_nil_r.
      exists (b2a s). split; [reflexivity|]. split; [|split].
      * apply body_no_space; [now apply b2a_not_nil | apply b2a_no_space].
      * apply filter_not_LF_no_space, b2a_no_space.
      * reflexivity.
    + assert (Hr : skipn MAXBINSIZE s <> []).
      { intros H0. apply (f_equal (@length _)) in H0.
        rewrite length_skipn in H0. simpl in H0. lia. }
      destruct (IH (skipn MAXBINSIZE s)) as [l [El [Bl [Fl _]]]]; [|exact Hr|].
      { rewrite length_skipn. change MAXBINSIZE with 57 in *. lia. }
      assert (Hw : whole3 (firstn MAXBINSIZE s) = true).
      { apply (whole3_length 19). rewrite length_firstn.
        change MAXBINSIZE with 57 in *. lia. }
      assert (Hf : firstn MAXBINSIZE s <> []).
      { intros H0. apply (f_equal (@length _)) in H0.
        rewrite length_firstn in H0. change (length (@nil ascii)) with 0 in H0.
        change MAXBINSIZE with 57 in *. lia. }
      exists (b2a (firstn MAXBINSIZE s) ++ [LF] ++ l).
      split; [|split; [|split]].
      * rewrite El. now rewrite <- !app_assoc.
      * apply body_join; [|exact Bl].
        apply body_no_space; [now apply b2a_not_nil | apply b2a_no_space].
      * rewrite !List.filter_app. cbn [List.filter app].
        change (not_LF LF) with false. cbv iota.
        rewrite filter_not_LF_no_space by apply b2a_no_space.
        unfold b64encode in Fl. rewrite Fl. cbn [app].
        rewrite <- b2a_app by exact Hw. now rewrite firstn_skipn.
      * intros H0. lia.
Qed.

Lemma strip_encodebytes (s : bytes) :
  List.filter not_LF (strip (encodebytes s)) = b64encode s
  /\ (length s <= MAXBINSIZE -> strip (encodebytes s) = b64encode s).
Proof.
  destruct s as [|c s]; [split; reflexivity|].
  destruct (encodebytes_body (length (c :: s)) (c :: s)) as [l [El [Bl [Fl Sl]]]];
    [lia | discriminate |].
  rewrite El, strip_body by exact Bl. split; assumption.
Qed.

(** The text of an input that does not fit one line has a newline inside,
    also after [strip]. *)
Lemma strip_encodebytes_long (s : bytes) :
  MAXBINSIZE < length s -> In LF (strip (encodebytes s)).
Proof.
  intros Hlong.
  assert (Hs : s <> []) by (intros ->; simpl in Hlong; lia).
  assert (Hr : skipn MAXBINSIZE s <> []).
  { intros H0. apply (f_equal (@length _)) in H0.
    rewrite length_skipn in H0. simpl in H0. lia. }
  assert (Hf : firstn MAXBINSIZE s <> []).
  { intros H0. apply (f_equal (@length _)) in H0.
    rewrite length_firstn in H0. change (length (@nil ascii)) with 0 in H0.
    change MAXBINSIZE with 57 in *. lia. }
  destruct (encodebytes_body (length (skipn MAXBINSIZE s)) (skipn MAXBINSIZE s))
    as [l [El [Bl _]]]; [lia | exact Hr |].
  rewrite encodebytes_line by exact Hs. unfold b2a_base64. rewrite El.
  replace ((b2a (firstn MAXBINSIZE s) ++ [LF]) ++ l ++ [LF])
    with ((b2a (firstn MAXBINSIZE s) ++ [LF] ++ l) ++ [LF])
    by now rewrite <- !app_assoc.
  rewrite strip_body.
  - apply in_or_app. right. left. reflexivity.
  - apply body_join; [|exact Bl].
    apply body_no_space; [now apply b2a_not_nil | apply b2a_no_space].
Qed.

End Base64Shape.

(** ** Host keys *)

Section HostKeys.
Context {E : Env}.
Import Py.

Local Arguments decode_utf8 : simpl never.
Local Arguments strip : simpl never.
Local Arguments base64.encodebytes : simpl never.
Local Arguments existsb : simpl never.

(** [get_fingerprint], case by case. *)
Lemma get_fingerprint_run host port st :
  get_fingerprint host port st
  = match socket_connect E (trace st) host port with
    | Some e => (Raise e, set_trace (trace st ++ [EvSocketConnect host port]) st)
    | None =>
        let st' := set_trace (trace st ++ fetch_events host port) st in
        match remote_server_key E (trace st ++ [EvSocketConnect host port]) host with
        | Raise e => (Raise e, st')
        | Ok key =>
            if existsb (String.eqb (get_name key)) _preferred_keys
            then (Ok (printed key), st')
            else (Raise (SSHException "Incompatible ssh peer (no acceptable host key)"), st')
        end
    end.
Proof.
  unfold get_fingerprint, start_client, fetch_events, printed. munfold. simpl.
  destruct (socket_connect E (trace st) host port); [reflexivity|].
  destruct (remote_server_key E _ host) as [key|e]; simpl.
  - destruct (existsb (String.eqb (get_name key)) _preferred_keys); simpl.
    + rewrite printable_key. unfold set_trace. simpl.
      rewrite <- !app_assoc. reflexivity.
    + unfold set_trace. simpl. rewrite <- !app_assoc. reflexivity.
  - unfold set_trace. simpl. rewrite <- !app_assoc. reflexivity.
Qed.

(** A fetch only adds to the trace, and never a [save]. *)
Lemma get_fingerprint_frame host port st :
  exists evs, snd (get_fingerprint host port st) = set_trace (trace st ++ evs) st
              /\ forallb (fun ev => negb (is_save ev)) evs = true.
Proof.
  rewrite get_fingerprint_run. repeat case_match; simpl; eexists; split; reflexivity.
Qed.

Lemma get_fingerprint_fails host st e :
  fetch_failure st host e ->
  exists st', get_fingerprint host 22 st = (Raise e, st').
Proof.
  rewrite get_fingerprint_run.
  intros [e' H1 | e' H1 H2 | key H1 H2 H3]; rewrite H1; [|rewrite H2 ..]; cbv zeta;
    [| |rewrite H3]; eexists; reflexivity.
Qed.

Lemma printed_truthy key : truthy_str (printed key) = true.
Proof. unfold printed. destruct (get_name key); reflexivity. Qed.

Lemma fetch_host_key_run self st :
  fetch_host_key self true st
  = match get_fingerprint (SshHostKey.hostname self) 22 st with
    | (Ok text, st') => save (SshHostKey.set_host_key text self) st'
    | (Raise e, st') => (Raise e, st')
    end.
Proof. reflexivity. Qed.

Lemma for_hostname_cached st hostname row :
  objects st !! hostname = Some row ->
  truthy_str (SshHostKey.host_key row) = true ->
  for_hostname hostname st = (Ok row, st).
Proof.
  intros H Ht. unfold for_hostname, objects_get. munfold. simpl.
  rewrite H. simpl. now rewrite Ht.
Qed.

Lemma for_hostname_uncached st hostname :
  ~ cached st hostname ->
  for_hostname hostname st
  = fetch_host_key (match objects st !! hostname with
                    | Some row => row
                    | None => SshHostKey.__init__ hostname
                    end) true st.
Proof.
  intros Hn. unfold for_hostname, objects_get. munfold. simpl.
  destruct (objects st !! hostname) as [row|] eqn:Hrow; simpl.
  - destruct (truthy_str (SshHostKey.host_key row)) eqn:Ht; simpl; [|reflexivity].
    exfalso. apply Hn. now exists row.
  - reflexivity.
Qed.

Lemma cached_dec st hostname : cached st hostname \/ ~ cached st hostname.
Proof.
  unfold cached. destruct (objects st !! hostname) as [row|] eqn:Hrow.
  - destruct (truthy_str (SshHostKey.host_key row)) eqn:Ht.
    + left. now exists row.
    + right. intros [row' [H1 H2]]. congruence.
  - right. intros [row' [H1 H2]]. congruence.
Qed.

(** A [save] that raises leaves the table as it was; one that returns has
    stored the object it returns under its hostname. *)
Lemma save_run self st r st' :
  save self st = (r, st') ->
  match r with
  | Raise _ => objects st' = objects st /\ next_id st' = next_id st
  | Ok row =>
      objects st' = <[SshHostKey.hostname self := row]> (objects st)
      /\ SshHostKey.host_key row = SshHostKey.host_key self
      /\ SshHostKey.hostname row = SshHostKey.hostname self
  end.
Proof.
  unfold save. munfold. simpl. intros H.
  repeat case_match; simplify_eq/=; auto.
Qed.

(** C6.  When the trust-on-first-use fetch for a hostname without cached
    key fails (unreachable host or timeout, handshake failure, no accepted
    key algorithm), [for_hostname] raises the exception of the fetch and no
    record is persisted: the table is unchanged and no [save] is issued. *)
Theorem for_hostname_fetch_failure st hostname e :
  keyed_by_hostname st ->
  ~ cached st hostname ->
  fetch_failure st hostname e ->
  fst (for_hostname hostname st) = Raise e
  /\ objects (snd (for_hostname hostname st)) = objects st
  /\ exists evs, trace (snd (for_hostname hostname st)) = trace st ++ evs
                 /\ forallb (fun ev => negb (is_save ev)) evs = true.
Proof.
  intros Hk Hn Hf.
  rewrite for_hostname_uncached by assumption.
  rewrite fetch_host_key_run.
  assert (Hh : SshHostKey.hostname
                 (match objects st !! hostname with
                  | Some row => row
                  | None => SshHostKey.__init__ hostname
                  end) = hostname).
  { destruct (objects st !! hostname) as [row|] eqn:Hrow; [now apply Hk | reflexivity]. }
  rewrite Hh.
  destruct (get_fingerprint_fails _ _ _ Hf) as [st' Hg].
  destruct (get_fingerprint_frame hostname 22 st) as [evs [Hs He]].
  rewrite Hg in *. simpl in *. subst st'. simpl.
  split; [reflexivity|]. split; [reflexivity|]. now exists evs.
Qed.

(** C5.  Trust on first use is idempotent.
    (a) A cached record is returned unchanged and nothing happens: no
        fetch, no event, no change of state.
    (b) When [for_hostname] has returned, calling it again returns the same
        record and changes nothing: the key is the same on both calls and
        the second call fetches nothing.
    (c) [for_hostname] issues events, a fetch among them, only when the key
        material was absent. *)
Theorem for_hostname_idempotent hostname :
  (forall st row,
     objects st !! hostname = Some row ->
     truthy_str (SshHostKey.host_key row) = true ->
     for_hostname hostname st = (Ok row, st))
  /\ (forall st r1 st1,
        keyed_by_hostname st ->
        for_hostname hostname st = (Ok r1, st1) ->
        for_hostname hostname st1 = (Ok r1, st1)
        /\ objects st1 !! hostname = Some r1
        /\ truthy_str (SshHostKey.host_key r1) = true)
  /\ (forall st,
        trace (snd (for_hostname hostname st)) <> trace st ->
        ~ cached st hostname).
Proof.
  split; [|split].
  - intros st row. apply for_hostname_cached.
  - intros st r1 st1 Hk H.
    assert (Hc : objects st1 !! hostname = Some r1
                 /\ truthy_str (SshHostKey.host_key r1) = true).
    { destruct (cached_dec st hostname) as [[row [Hrow Ht]]|Hn].
      - rewrite (for_hostname_cached _ _ _ Hrow Ht) in H. now simplify_eq.
      - rewrite for_hostname_uncached, fetch_host_key_run in H by assumption.
        remember (match objects st !! hostname with
                  | Some row => row
                  | None => SshHostKey.__init__ hostname
                  end) as obj eqn:Hobj.
        assert (Hh : SshHostKey.hostname obj = hostname).
        { subst obj. destruct (objects st !! hostname) as [row|] eqn:Hrow;
            [now apply Hk | reflexivity]. }
        rewrite Hh, get_fingerprint_run in H.
        destruct (socket_connect E (trace st) hostname 22); [discriminate|].
        cbv zeta in H.
        destruct (remote_server_key E _ hostname) as [key|]; [|discriminate].
        destruct (existsb (String.eqb (get_name key)) _preferred_keys); [|discriminate].
        apply save_run in H. destruct H as [Ho [Hkey _]].
        simpl in Ho, Hkey. rewrite Ho, Hh, lookup_insert_eq. split; [reflexivity|].
        rewrite Hkey. apply printed_truthy. }
    destruct Hc as [Hl Ht]. split; [|split]; try assumption.
    now apply for_hostname_cached.
  - intros st Hneq [row [Hrow Ht]].
    apply Hneq. now rewrite (for_hostname_cached _ _ _ Hrow Ht).
Qed.

Lemma preferred_no_space (name : string) :
  In name _preferred_keys -> no_sep " "%char name.
Proof.
  unfold _preferred_keys, no_sep.
  intros [<-|[<-|[<-|[<-|[]]]]]; simpl; repeat constructor; discriminate.
Qed.

Lemma list_ascii_of_string_append (a c : string) :
  list_ascii_of_string (a ++ c) = list_ascii_of_string a ++ list_ascii_of_string c.
Proof. induction a as [|x a IH]; simpl; [reflexivity|]. now rewrite IH. Qed.

(** Every accepted key of more than 57 octets is printed on more than one
    line. *)
Lemma get_fingerprint_long_key host port st text st' :
  get_fingerprint host port st = (Ok text, st') ->
  exists key,
    remote_server_key E (trace st ++ [EvSocketConnect host port]) host = Ok key
    /\ text = printed key
    /\ (base64.MAXBINSIZE < length (asbytes key) -> In LF (list_ascii_of_string text)).
Proof.
  rewrite get_fingerprint_run. intros H.
  destruct (socket_connect E (trace st) host port); [discriminate|].
  cbv zeta in H.
  destruct (remote_server_key E _ host) as [key|]; [|discriminate].
  destruct (existsb (String.eqb (get_name key)) _preferred_keys) eqn:Hp; [|discriminate].
  injection H as <- <-.
  exists key. split; [reflexivity|]. split; [reflexivity|].
  intros Hlong. unfold printed.
  rewrite !list_ascii_of_string_append, list_ascii_of_string_of_list_ascii.
  apply in_or_app. right. apply in_or_app. right.
  now apply strip_encodebytes_long.
Qed.

(** X25.  The text [get_fingerprint] returns round-trips.  For every
    server key the fetcher accepts, the text is the algorithm name, a space,
    and what [strip] leaves of [encodebytes] of the key octets: the base64
    text of the key with newlines in it, and that text itself for keys of
    at most 57 octets.  Parsing the text as [SshClient.open] does (split at
    the first space, [b64decode] the remainder) gives back the algorithm
    name and the key octets, and an [open] on a handle that holds the text
    requests the connection with that name and that key. *)
Theorem fingerprint_round_trip host port st text st' :
  get_fingerprint host port st = (Ok text, st') ->
  exists key,
    remote_server_key E (trace st ++ [EvSocketConnect host port]) host = Ok key
    /\ In (get_name key) _preferred_keys
    /\ (exists data,
          text = (get_name key ++ " " ++ string_of_list_ascii data)%string
          /\ data = strip (base64.encodebytes (asbytes key))
          /\ List.filter not_LF data = base64.b64encode (asbytes key)
          /\ (length (asbytes key) <= base64.MAXBINSIZE ->
              data = base64.b64encode (asbytes key)))
    /\ (exists host_key_data,
          split1 " " text = [get_name key; host_key_data]
          /\ base64.b64decode host_key_data = Ok (asbytes key))
    /\ (forall s s',
          SshClient.host_key (ssh_client s) = Some text ->
          open s = (Ok tt, s') ->
          exists req,
            trace s' = trace s ++ [EvConnect (next_client s) req]
            /\ cr_host_key_type req = get_name key
            /\ cr_host_key req = (if String.eqb (get_name key) "ssh-rsa"
                                  then RSAKey (asbytes key)
                                  else ECDSAKey (asbytes key))).
Proof.
  rewrite get_fingerprint_run. intros H.
  destruct (socket_connect E (trace st) host port); [discriminate|].
  cbv zeta in H.
  destruct (remote_server_key E _ host) as [key|]; [|discriminate].
  destruct (existsb (String.eqb (get_name key)) _preferred_keys) eqn:Hp; [|discriminate].
  injection H as <- <-.
  assert (Hin : In (get_name key) _preferred_keys).
  { apply existsb_exists in Hp. destruct Hp as [name [Hin Heq]].
    apply String.eqb_eq in Heq. now rewrite Heq. }
  assert (Hsplit : split1 " " (printed key)
                   = [get_name key;
                      string_of_list_ascii (strip (base64.encodebytes (asbytes key)))]).
  { unfold printed. apply split1_first. now apply preferred_no_space. }
  exists key. split; [reflexivity|]. split; [exact Hin|]. split; [|split].
  - exists (strip (base64.encodebytes (asbytes key))).
    destruct (strip_encodebytes (asbytes key)) as [Hf Hs]. auto.
  - eexists. split; [exact Hsplit | apply b64decode_printable_key].
  - intros s s' Hk Ho.
    apply (open_reads_host_key _ _ _ _ _ _ Hk Hsplit (b64decode_printable_key _) Ho).
Qed.

End HostKeys.

(** *** Host keys in the scenario *)

Lemma for_hostname_fetch_failure_witness :
  let dev := Scenario.device 3 "SUCCESS" 0 in
  let st := Scenario.start None in
  fetch_failure (E:=dev) st "unreachable" (OSError "No route to host")
  /\ fst (for_hostname (E:=dev) "unreachable" st) = Raise (OSError "No route to host")
  /\ objects (snd (for_hostname (E:=dev) "unreachable" st)) = objects st.
Proof.
  assert (Hf : fetch_failure (E:=Scenario.device 3 "SUCCESS" 0) (Scenario.start None)
                 "unreachable" (OSError "No route to host")).
  { apply fetch_unreachable. reflexivity. }
  split; [exact Hf|].
  destruct (for_hostname_fetch_failure (E:=Scenario.device 3 "SUCCESS" 0)
              (Scenario.start None) "unreachable" (OSError "No route to host"))
    as [H1 [H2 _]].
  - intros h row H. simpl in H. rewrite lookup_empty in H. discriminate.
  - intros [row [H _]]. simpl in H. rewrite lookup_empty in H. discriminate.
  - exact Hf.
  - split; assumption.
Defined.

Lemma for_hostname_idempotent_witness :
  let dev := Scenario.device 3 "SUCCESS" 0 in
  let st := Scenario.start None in
  let r1 := SshHostKey.mk (Some 0) (Some 4) "router1" "ssh-rsa AAEC" in
  let st1 := snd (for_hostname (E:=dev) "router1" st) in
  for_hostname (E:=dev) "router1" st = (Ok r1, st1)
  /\ for_hostname (E:=dev) "router1" st1 = (Ok r1, st1).
Proof.
  assert (H : for_hostname (E:=Scenario.device 3 "SUCCESS" 0) "router1" (Scenario.start None)
              = (Ok (SshHostKey.mk (Some 0) (Some 4) "router1" "ssh-rsa AAEC"),
                 snd (for_hostname (E:=Scenario.device 3 "SUCCESS" 0) "router1"
                        (Scenario.start None)))).
  { vm_compute. reflexivity. }
  split; [exact H|].
  destruct (for_hostname_idempotent (E:=Scenario.device 3 "SUCCESS" 0) "router1")
    as [_ [Hb _]].
  apply (Hb (Scenario.start None)); [|exact H].
  intros h row H0. simpl in H0. rewrite lookup_empty in H0. discriminate.
Defined.

(** C9.  The text [get_fingerprint] returns is not the single-line text
    of the key: for an RSA key of 58 octets, which the fetcher accepts, the
    text has a newline in it and is not the algorithm name, a space and the
    base64 text of the key octets.  By [get_fingerprint_long_key] the text of
    every accepted key of more than 57 octets has a newline in it. *)
Lemma fingerprint_of_long_key_is_wrapped :
  let dev := Scenario.device 58 "SUCCESS" 0 in
  let key := mk_ssh_key "ssh-rsa" (Scenario.key_octets 58) in
  exists text,
    fst (get_fingerprint (E:=dev) "router1" 22 (Scenario.start None)) = Ok text
    /\ In Py.LF (list_ascii_of_string text)
    /\ text <> (get_name key ++ " "
                ++ string_of_list_ascii (base64.b64encode (asbytes key)))%string.
Proof.
  eexists. split; [vm_compute; reflexivity|]. split.
  - vm_compute. do 84 right. left. reflexivity.
  - apply String.eqb_neq. vm_compute. reflexivity.
Qed.

Lemma fingerprint_round_trip_witness :
  let dev := Scenario.device 3 "SUCCESS" 0 in
  let st := Scenario.start None in
  get_fingerprint (E:=dev) "router1" 22 st
  = (Ok "ssh-rsa AAEC", snd (get_fingerprint (E:=dev) "router1" 22 st))
  /\ exists host_key_data,
       Py.split1 " " "ssh-rsa AAEC" = ["ssh-rsa"; host_key_data]
       /\ base64.b64decode host_key_data = Ok (Scenario.key_octets 3).
Proof.
  assert (H : get_fingerprint (E:=Scenario.device 3 "SUCCESS" 0) "router1" 22 (Scenario.start None)
              = (Ok "ssh-rsa AAEC",
                 snd (get_fingerprint (E:=Scenario.device 3 "SUCCESS" 0) "router1" 22
                        (Scenario.start None)))).
  { vm_compute. reflexivity. }
  split; [exact H|].
  destruct (fingerprint_round_trip (E:=Scenario.device 3 "SUCCESS" 0) _ _ _ _ _ H)
    as [key [Hk [_ [_ [Hr _]]]]].
  vm_compute in Hk. injection Hk as <-. exact Hr.
Defined.

(** ** What a piece of code adds to the trace *)

Section Emits.
Context {A B : Type} (P : event -> bool).

Lemma emits_ret (a : A) : emits P (ret a).
Proof. intros st. exists []. split; [now rewrite app_nil_r | reflexivity]. Qed.

Lemma emits_raise (e : exn) : emits P (@raise A e).
Proof. intros st. exists []. split; [now rewrite app_nil_r | reflexivity]. Qed.

Lemma emits_lift (r : result A) : emits P (lift r).
Proof. intros st. exists []. split; [now rewrite app_nil_r | reflexivity]. Qed.

Lemma emits_call (ev : event) (oracle : list event -> result A) :
  P ev = true -> emits P (call ev oracle).
Proof. intros H st. exists [ev]. split; [reflexivity | simpl; now rewrite H]. Qed.

Lemma emits_bind (m : M A) (f : A -> M B) :
  emits P m -> (forall a, emits P (f a)) -> emits P (bind m f).
Proof.
  intros Hm Hf st. unfold bind.
  destruct (Hm st) as [evs1 [H1 F1]].
  destruct (m st) as [[a|e] st']; simpl in H1.
  - destruct (Hf a st') as [evs2 [H2 F2]].
    exists (evs1 ++ evs2). split.
    + now rewrite H2, H1, app_assoc.
    + now rewrite forallb_app, F1, F2.
  - now exists evs1.
Qed.

Lemma emits_finally (m : M A) (cleanup : M unit) :
  emits P m -> emits P cleanup -> emits P (finally m cleanup).
Proof.
  intros Hm Hc st. unfold finally.
  destruct (Hm st) as [evs1 [H1 F1]].
  destruct (m st) as [r st']; simpl in H1.
  destruct (Hc st') as [evs2 [H2 F2]].
  exists (evs1 ++ evs2). split.
  - destruct (cleanup st') as [[[]|e] st'']; simpl in *; now rewrite H2, H1, app_assoc.
  - now rewrite forallb_app, F1, F2.
Qed.

Lemma emits_try_except (m : M A) (handler : exn -> option (M A)) :
  emits P m -> (forall e h, handler e = Some h -> emits P h) ->
  emits P (try_except m handler).
Proof.
  intros Hm Hh st. unfold try_except.
  destruct (Hm st) as [evs1 [H1 F1]].
  destruct (m st) as [[a|e] st']; simpl in H1.
  - now exists evs1.
  - destruct (handler e) as [h|] eqn:He.
    + destruct (Hh e h He st') as [evs2 [H2 F2]].
      exists (evs1 ++ evs2). split.
      * now rewrite H2, H1, app_assoc.
      * now rewrite forallb_app, F1, F2.
    + now exists evs1.
Qed.

End Emits.

Lemma emits_weaken {A} (P Q : event -> bool) (m : M A) :
  (forall ev, P ev = true -> Q ev = true) -> emits P m -> emits Q m.
Proof.
  intros HPQ Hm st. destruct (Hm st) as [evs [H1 F1]].
  exists evs. split; [exact H1|].
  rewrite forallb_forall in *. auto.
Qed.

Lemma emits_lift_exn P (r : option exn) : emits P (lift_exn r).
Proof. destruct r; [apply emits_raise | apply emits_ret]. Qed.

Lemma emits_get P : emits P get.
Proof. intros st. exists []. split; [now rewrite app_nil_r | reflexivity]. Qed.

Lemma emits_self P : emits P self.
Proof. intros st. exists []. split; [now rewrite app_nil_r | reflexivity]. Qed.

Lemma emits_modify P (f : State -> State) :
  (forall st, trace (f st) = trace st) -> emits P (modify f).
Proof.
  intros H st. exists []. split; [simpl; now rewrite H, app_nil_r | reflexivity].
Qed.

Lemma emits_emit P (ev : event) : P ev = true -> emits P (emit ev).
Proof. intros H st. exists [ev]. split; [reflexivity | simpl; now rewrite H]. Qed.

Lemma emits_call_exn P (ev : event) (oracle : list event -> option exn) :
  P ev = true -> emits P (call_exn ev oracle).
Proof. intros H st. exists [ev]. split; [reflexivity | simpl; now rewrite H]. Qed.

Lemma emits_new_SSHClient P : emits P new_SSHClient.
Proof. intros st. exists []. split; [simpl; now rewrite app_nil_r | reflexivity]. Qed.

Ltac emits_tac :=
  repeat first
    [ apply emits_ret | apply emits_raise | apply emits_lift | apply emits_lift_exn
    | apply emits_get | apply emits_self | apply emits_new_SSHClient
    | apply emits_modify; intros ?; reflexivity
    | apply emits_emit; reflexivity
    | apply emits_call; reflexivity
    | apply emits_call_exn; reflexivity
    | apply emits_bind; [|intros ?]
    | apply emits_finally
    | match goal with
      | |- emits _ (match ?x with _ => _ end) => destruct x
      end ].

Section EmitsProgram.
Context {E : Env}.
Import Py.

Lemma emits_get_fingerprint host port : emits session_event (get_fingerprint host port).
Proof. unfold get_fingerprint, start_client. emits_tac. Qed.

Lemma emits_save row : emits session_event (save row).
Proof. unfold save. emits_tac. Qed.

Lemma emits_for_hostname hostname : emits session_event (for_hostname hostname).
Proof.
  unfold for_hostname, fetch_host_key, objects_get.
  apply emits_bind.
  - apply emits_try_except; [emits_tac|].
    intros e h He. destruct e; simplify_eq. emits_tac.
  - intros row. destruct (negb _); [|emits_tac].
    apply emits_bind; [apply emits_get_fingerprint|].
    intros text. apply emits_save.
Qed.

Lemma emits_open : emits session_event open.
Proof. unfold open, client_connect, update_self. emits_tac. Qed.

Lemma emits_close : emits session_event close.
Proof. unfold close, client_close, update_self. emits_tac. Qed.

Lemma emits__enter__ : emits session_event __enter__.
Proof.
  unfold __enter__, update_self. apply emits_bind; [apply emits_self|].
  intros c. apply emits_bind; [|intros _; apply emits_open].
  destruct (negb _); [|emits_tac].
  apply emits_bind; [apply emits_for_hostname|]. intros r. emits_tac.
Qed.

Lemma emits__assert_open P : emits P _assert_open.
Proof. unfold _assert_open. emits_tac. Qed.

Lemma emits_exec P command :
  (forall cid, P (EvExec cid command) = true) -> emits P (exec command).
Proof.
  intros H. unfold exec, client_exec_command.
  apply emits_bind; [apply emits__assert_open|]. intros _.
  apply emits_bind; [apply emits_self|]. intros c.
  destruct (SshClient.client c) as [cid|]; [|emits_tac].
  apply emits_bind; [apply emits_get|]. intros st.
  destruct (is_connected cid st); [|emits_tac].
  apply emits_call, H.
Qed.

Lemma emits_write_file P path data :
  (forall cid, P (EvOpenSftp cid) = true) ->
  (forall cid, P (EvSftpWrite cid path data) = true) ->
  (forall cid, P (EvSftpClose cid) = true) ->
  emits P (write_file path data).
Proof.
  intros H1 H2 H3. unfold write_file, client_open_sftp.
  apply emits_bind; [apply emits__assert_open|]. intros _.
  apply emits_bind.
  - apply emits_bind; [apply emits_self|]. intros c.
    destruct (SshClient.client c) as [cid|]; [|emits_tac].
    apply emits_bind; [apply emits_get|]. intros st.
    destruct (is_connected cid st); [|emits_tac].
    apply emits_bind; [apply emits_call_exn, H1 | intros _; apply emits_ret].
  - intros cid. apply emits_finally; [apply emits_call_exn, H2 | apply emits_emit, H3].
Qed.

Lemma emits_with_ssh_client {A} P (body : M A) :
  (forall ev, session_event ev = true -> P ev = true) ->
  emits P body -> emits P (with_ssh_client body).
Proof.
  intros HP Hb. unfold with_ssh_client, __exit__.
  apply emits_bind.
  - apply (emits_weaken session_event); [exact HP | apply emits__enter__].
  - intros _. apply emits_finally; [exact Hb|].
    apply (emits_weaken session_event); [exact HP | apply emits_close].
Qed.

Lemma emits_get_config P (full : bool) :
  (forall ev, session_event ev = true -> P ev = true) ->
  (forall cid, P (EvExec cid (if full then "/export verbose" else "/export")) = true) ->
  emits P (get_config full).
Proof.
  intros HP Hx. unfold get_config. apply emits_with_ssh_client; [exact HP|].
  apply emits_bind; [now apply emits_exec|]. intros r. emits_tac.
Qed.

Lemma emits_candidate_diff P filename config current_config current_config_verbose :
  (forall ev, session_event ev = true -> P ev = true) ->
  (forall cid, P (EvExec cid "/export") = true) ->
  emits P (candidate_diff filename config current_config current_config_verbose).
Proof.
  intros HP Hx. unfold candidate_diff.
  destruct (negb (truthy_opt filename) && negb (truthy_config config)); [emits_tac|].
  apply emits_bind; [emits_tac|]. intros config'.
  apply emits_bind.
  - pose proof (emits_get_config P false HP Hx) as Hg.
    destruct current_config as [[s|c]|]; [destruct (truthy_str s)| |];
      try (apply emits_bind; [exact Hg | intros ?]); emits_tac.
  - intros cur. emits_tac.
Qed.

End EmitsProgram.

(** ** Deployment *)

Section Deployment.
Context {E : Env}.
Import Py.

Lemma exec_returns command st r st' :
  exec command st = (Ok r, st') ->
  exists cid,
    SshClient.client (ssh_client st) = Some cid
    /\ exec_command E (trace st) command = Ok r
    /\ st' = set_trace (trace st ++ [EvExec cid command]) st.
Proof.
  unfold exec, _assert_open, client_exec_command. munfold. simpl. intros H.
  repeat case_match; simplify_eq/=.
  eexists. repeat split; eauto.
Qed.

Lemma write_file_returns path data st st' :
  write_file path data st = (Ok tt, st') ->
  exists cid,
    SshClient.client (ssh_client st) = Some cid
    /\ st' = set_trace (trace st ++ [EvOpenSftp cid; EvSftpWrite cid path data;
                                     EvSftpClose cid]) st.
Proof.
  unfold write_file, _assert_open, client_open_sftp. munfold. simpl. intros H.
  repeat case_match; simplify_eq/=.
  eexists. split; [eassumption|]. unfold set_trace. simpl.
  now rewrite <- !app_assoc.
Qed.

(** With a client on the handle [close] does not raise; it issues the
    closing of that client when the count comes down to 0 and nothing
    otherwise. *)
Lemma close_returns st cid :
  SshClient.client (ssh_client st) = Some cid ->
  exists st', close st = (Ok tt, st')
              /\ trace st' = trace st ++ (if (open_count st =? 1)%Z then [EvClose cid] else []).
Proof.
  intros Hc. unfold close, client_close, open_count. munfold. simpl. rewrite Hc.
  destruct (Z.eqb_spec (SshClient._open_count (ssh_client st) - 1) 0) as [H0|H0];
    destruct (Z.eqb_spec (SshClient._open_count (ssh_client st)) 1) as [H1|H1];
    try lia; eexists; (split; [reflexivity|]); simpl; now rewrite ?app_nil_r.
Qed.

(** The second half of [load_replace_candidate] on a run that reaches the
    execution of the script. *)
Lemma apply_diff_run d st1 st2 st3 r st4 :
  let file_name := ("script-" ++ now_isoformat E (trace st1) ++ ".rsc")%string in
  sections E d <> [] ->
  __enter__ (set_trace (trace st1 ++ [EvNow]) st1) = (Ok tt, st2) ->
  write_file file_name (encode_utf8 (script_of d file_name)) st2 = (Ok tt, st3) ->
  exec (import_command file_name) st3 = (Ok r, st4) ->
  exists st5,
    close st4 = (Ok tt, st5)
    /\ apply_diff d st1
       = (if bytes_in SUCCESS (stdout r) then Ok tt
          else Raise (CommandErrorException (failure_message file_name)),
          st5).
Proof.
  intros file_name Hd He Hw Hx.
  destruct (exec_returns _ _ _ _ Hx) as [cid [Hc [_ Hst]]].
  destruct (close_returns st4 cid) as [st5 [Hcl _]].
  { subst st4. exact Hc. }
  exists st5. split; [exact Hcl|].
  unfold apply_diff. destruct (sections E d); [congruence|].
  unfold with_ssh_client, __exit__.
  unfold bind at 1. unfold call at 1. cbv beta iota.
  fold file_name.
  rewrite (bind_ok _ _ _ _ _ He).
  unfold finally. rewrite (bind_ok _ _ _ _ _ Hw), (bind_ok _ _ _ _ _ Hx).
  destruct (bytes_in SUCCESS (stdout r)); simpl; unfold raise, ret; now rewrite Hcl.
Qed.

(** C4.  When the diff between the desired and the current configuration
    has no sections, [load_replace_candidate] returns normally in the state
    in which the diff was computed: it reads no clock for a file name,
    writes no file and runs no import.  The events of the whole call are
    those of fetching the current configuration (a session and the export
    command), and there are none at all when the caller supplied the current
    configuration. *)
Theorem empty_diff_is_noop filename config current_config current_config_verbose st d st1 :
  candidate_diff filename config current_config current_config_verbose st = (Ok d, st1) ->
  sections E d = [] ->
  load_replace_candidate filename config current_config current_config_verbose st
  = (Ok tt, st1)
  /\ (exists evs, trace st1 = trace st ++ evs
                  /\ forallb fetch_current_event evs = true)
  /\ (truthy_config current_config = true -> st1 = st).
Proof.
  intros Hd Hs. split; [|split].
  - unfold load_replace_candidate. rewrite (bind_ok _ _ _ _ _ Hd).
    unfold apply_diff. now rewrite Hs.
  - destruct (emits_candidate_diff fetch_current_event filename config current_config
                current_config_verbose) with (st := st) as [evs [H1 H2]].
    + intros ev H. now destruct ev.
    + reflexivity.
    + rewrite Hd in H1. now exists evs.
  - intros Ht. revert Hd. unfold candidate_diff. munfold.
    destruct current_config as [[s|c]|]; simpl in Ht; try discriminate.
    + rewrite Ht. intros Hd. repeat case_match; simplify_eq/=; reflexivity.
    + intros Hd. repeat case_match; simplify_eq/=; reflexivity.
Qed.


Lemma emits_apply_diff d : emits (fun ev => negb (is_file_remove ev)) (apply_diff d).
Proof.
  unfold apply_diff. destruct (sections E d); [apply emits_ret|].
  apply emits_bind; [now apply emits_call|]. intros now.
  apply emits_with_ssh_client; [intros ev H; now destruct ev|].
  apply emits_bind; [now apply emits_write_file|]. intros _.
  apply emits_bind; [now apply emits_exec|]. intros r. emits_tac.
Qed.

(** No call of [load_replace_candidate] ever issues a command that removes
    a file. *)
Lemma emits_load_replace_candidate filename config current_config current_config_verbose :
  emits (fun ev => negb (is_file_remove ev))
    (load_replace_candidate filename config current_config current_config_verbose).
Proof.
  unfold load_replace_candidate. apply emits_bind.
  - apply emits_candidate_diff; [intros ev H; now destruct ev | reflexivity].
  - intros d. apply emits_apply_diff.
Qed.

Lemma load_replace_candidate_run filename config current_config current_config_verbose
    st file_name st2 r st4 :
  reaches_execution filename config current_config current_config_verbose st
    file_name st2 r st4 ->
  exists st5,
    close st4 = (Ok tt, st5)
    /\ load_replace_candidate filename config current_config current_config_verbose st
       = (if bytes_in SUCCESS (stdout r) then Ok tt
          else Raise (CommandErrorException (failure_message file_name)),
          st5).
Proof.
  intros [d [st1 [st3 [Hd [Hs [Hn [He [Hw Hx]]]]]]]]. subst file_name.
  destruct (apply_diff_run d st1 st2 st3 r st4 Hs He Hw Hx) as [st5 [Hc Ha]].
  exists st5. split; [exact Hc|].
  unfold load_replace_candidate. now rewrite (bind_ok _ _ _ _ _ Hd).
Qed.

(** C3.  On a run whose script was executed and whose captured output lacks
    the marker, [load_replace_candidate] raises [CommandErrorException] with
    a message that ends in the name of the uploaded file.  From entering the
    session to the end of the execution the deployer has uploaded that file
    and imported it, and nothing else; after the execution it at most closes
    the session; and no event of the whole call is a command that removes a
    file. *)
Theorem verification_failure_keeps_file filename config current_config
    current_config_verbose st file_name st2 r st4 :
  reaches_execution filename config current_config current_config_verbose st
    file_name st2 r st4 ->
  bytes_in SUCCESS (stdout r) = false ->
  exists st5 cid data,
    load_replace_candidate filename config current_config current_config_verbose st
    = (Raise (CommandErrorException
                ("Error while executing script. File remains on the router in file "
                 ++ file_name)%string), st5)
    /\ trace st4 = trace st2 ++ [EvOpenSftp cid; EvSftpWrite cid file_name data;
                                 EvSftpClose cid; EvExec cid (import_command file_name)]
    /\ (exists closing, trace st5 = trace st4 ++ closing
                        /\ forallb is_close closing = true)
    /\ (exists evs, trace st5 = trace st ++ evs
                    /\ forallb (fun ev => negb (is_file_remove ev)) evs = true).
Proof.
  intros Hr Hm.
  destruct (load_replace_candidate_run _ _ _ _ _ _ _ _ _ Hr) as [st5 [Hc Hl]].
  rewrite Hm in Hl.
  destruct Hr as [d [st1 [st3 [Hd [Hs [Hn [He [Hw Hx]]]]]]]].
  destruct (write_file_returns _ _ _ _ Hw) as [cid [Hcid Hst3]].
  destruct (exec_returns _ _ _ _ Hx) as [cid' [Hcid' [_ Hst4]]].
  assert (cid' = cid) by (subst st3; simpl in Hcid'; congruence). subst cid'.
  exists st5, cid, (encode_utf8 (script_of d file_name)).
  split; [exact Hl|]. split; [|split].
  - subst st4 st3. simpl. now rewrite <- app_assoc.
  - destruct (close_returns st4 cid) as [st5' [Hc' Ht]].
    { subst st4 st3. exact Hcid. }
    rewrite Hc in Hc'. injection Hc' as <-.
    eexists. split; [exact Ht|]. now destruct (open_count st4 =? 1)%Z.
  - destruct (emits_load_replace_candidate filename config current_config
                current_config_verbose st) as [evs [H1 H2]].
    rewrite Hl in H1. now exists evs.
Qed.

Lemma exec_status_independent k command st :
  (let (r, st') := exec (E:=E) command st in
   (match r with Ok r => Ok (stdout r) | Raise e => Raise e end, st'))
  = (let (r, st') := exec (E:=with_import_status k E) command st in
     (match r with Ok r => Ok (stdout r) | Raise e => Raise e end, st')).
Proof.
  unfold exec, _assert_open, client_exec_command. munfold. simpl.
  destruct (SshClient._open_count (ssh_client st) =? 0)%Z; [reflexivity|].
  destruct (SshClient.client (ssh_client st)) as [cid|]; [|reflexivity].
  destruct (is_connected cid st); [|reflexivity].
  destruct (String.prefix "/import " command); [|reflexivity].
  now destruct (exec_command E (trace st) command).
Qed.

(** C2.  On a run that reaches the execution of the script,
    [load_replace_candidate] returns normally exactly when [SUCCESS] occurs
    in the captured standard output; and replacing the exit status of the
    import by any other value changes neither the outcome nor the final
    state of any call. *)
Theorem success_iff_marker filename config current_config current_config_verbose st :
  (forall file_name st2 r st4,
     reaches_execution filename config current_config current_config_verbose st
       file_name st2 r st4 ->
     (fst (load_replace_candidate filename config current_config
             current_config_verbose st) = Ok tt
      <-> bytes_in SUCCESS (stdout r) = true)
     /\ (fst (load_replace_candidate filename config current_config
                current_config_verbose st) = Ok tt
         <-> exists pre post, stdout r = pre ++ SUCCESS ++ post))
  /\ (forall k,
        load_replace_candidate (E:=with_import_status k E) filename config
          current_config current_config_verbose st
        = load_replace_candidate (E:=E) filename config current_config
            current_config_verbose st).
Proof.
  split.
  - intros file_name st2 r st4 Hr.
    destruct (load_replace_candidate_run _ _ _ _ _ _ _ _ _ Hr) as [st5 [_ Hl]].
    rewrite Hl. simpl.
    assert (Hi : (if bytes_in SUCCESS (stdout r)
                  then Ok tt
                  else Raise (CommandErrorException (failure_message file_name)))
                 = Ok tt <-> bytes_in SUCCESS (stdout r) = true).
    { destruct (bytes_in SUCCESS (stdout r)); split; congruence. }
    split; [exact Hi|]. rewrite Hi. apply bytes_in_spec.
  - intros k. unfold load_replace_candidate, bind.
    change (candidate_diff (E:=with_import_status k E) filename config current_config
              current_config_verbose st)
      with (candidate_diff (E:=E) filename config current_config
              current_config_verbose st).
    destruct (candidate_diff filename config current_config current_config_verbose st)
      as [[d|e] st1]; [|reflexivity].
    unfold apply_diff.
    change (sections (with_import_status k E) d) with (sections E d).
    destruct (sections E d); [reflexivity|].
    unfold with_ssh_client, bind, call, finally.
    change (now_isoformat (with_import_status k E)) with (now_isoformat E).
    change (__enter__ (E:=with_import_status k E)) with (__enter__ (E:=E)).
    destruct (__enter__ _) as [[[]|e] st2]; [|reflexivity].
    change (script_of (E:=with_import_status k E)) with (script_of (E:=E)).
    change (write_file (E:=with_import_status k E)) with (write_file (E:=E)).
    destruct (write_file _ _ st2) as [[[]|e] st3]; [|reflexivity].
    pose proof (exec_status_independent k
                  (import_command ("script-" ++ now_isoformat E (trace st1) ++ ".rsc"))
                  st3) as Hx.
    destruct (exec (E:=E) _ st3) as [[r|e] st4];
      destruct (exec (E:=with_import_status k E) _ st3) as [[r'|e'] st4'];
      simplify_eq/=; try reflexivity.
    match goal with H : stdout _ = stdout _ |- _ => now rewrite H end.
Qed.

End Deployment.

(** *** Deployment in the scenario *)

Lemma reaches_execution_good :
  reaches_execution (E:=Scenario.good) None (Some (ConfigStr "/ip dns")) None None
    (Scenario.start None) Scenario.script_name (Scenario.entered Scenario.good)
    (mk_exec_reply (Py.b "SUCCESS") [] 0) (Scenario.executed Scenario.good).
Proof.
  exists ["/ip dns"], (Scenario.diffed Scenario.good), (Scenario.uploaded Scenario.good).
  split; [vm_compute; reflexivity|].
  split; [discriminate|].
  split; [vm_compute; reflexivity|].
  split; [vm_compute; reflexivity|].
  split; vm_compute; reflexivity.
Qed.

Lemma reaches_execution_bad :
  reaches_execution (E:=Scenario.bad) None (Some (ConfigStr "/ip dns")) None None
    (Scenario.start None) Scenario.script_name (Scenario.entered Scenario.bad)
    (mk_exec_reply (Py.b "failure: no such item") [] 0) (Scenario.executed Scenario.bad).
Proof.
  exists ["/ip dns"], (Scenario.diffed Scenario.bad), (Scenario.uploaded Scenario.bad).
  split; [vm_compute; reflexivity|].
  split; [discriminate|].
  split; [vm_compute; reflexivity|].
  split; [vm_compute; reflexivity|].
  split; vm_compute; reflexivity.
Qed.

Lemma success_iff_marker_witness :
  fst (load_replace_candidate (E:=Scenario.good) None (Some (ConfigStr "/ip dns")) None None
         (Scenario.start None)) = Ok tt
  <-> Py.bytes_in SUCCESS (Py.b "SUCCESS") = true.
Proof.
  destruct (success_iff_marker (E:=Scenario.good) None (Some (ConfigStr "/ip dns")) None None
              (Scenario.start None)) as [H _].
  exact (proj1 (H _ _ _ _ reaches_execution_good)).
Defined.

Lemma verification_failure_keeps_file_witness :
  Py.bytes_in SUCCESS (Py.b "failure: no such item") = false
  /\ exists st5,
       load_replace_candidate (E:=Scenario.bad) None (Some (ConfigStr "/ip dns")) None None
         (Scenario.start None)
       = (Raise (CommandErrorException
                   "Error while executing script. File remains on the router in file script-2021-03-04T05:06:07.rsc"),
          st5).
Proof.
  split; [reflexivity|].
  destruct (verification_failure_keeps_file (E:=Scenario.bad) None
              (Some (ConfigStr "/ip dns")) None None (Scenario.start None)
              _ _ _ _ reaches_execution_bad eq_refl)
    as [st5 [cid [data [H _]]]].
  exists st5. exact H.
Defined.

Lemma empty_diff_is_noop_witness :
  let st := Scenario.start None in
  let st1 := snd (candidate_diff (E:=Scenario.good) None (Some (ConfigStr "/ip address"))
                    None None st) in
  candidate_diff (E:=Scenario.good) None (Some (ConfigStr "/ip address")) None None st
  = (Ok [], st1)
  /\ load_replace_candidate (E:=Scenario.good) None (Some (ConfigStr "/ip address"))
       None None st = (Ok tt, st1).
Proof.
  assert (H : candidate_diff (E:=Scenario.good) None (Some (ConfigStr "/ip address"))
                None None (Scenario.start None)
              = (Ok [],
                 snd (candidate_diff (E:=Scenario.good) None
                        (Some (ConfigStr "/ip address")) None None (Scenario.start None)))).
  { vm_compute. reflexivity. }
  split; [exact H|].
  exact (proj1 (empty_diff_is_noop (E:=Scenario.good) _ _ _ _ _ _ _ H eq_refl)).
Defined.


(** ** What a piece of code leaves alone *)

Section Keeps.
Context {A B X : Type} (f : State -> X).

Lemma keeps_ret (a : A) : keeps f (ret a).
Proof. intros st. reflexivity. Qed.

Lemma keeps_raise (e : exn) : keeps f (@raise A e).
Proof. intros st. reflexivity. Qed.

Lemma keeps_lift (r : result A) : keeps f (lift r).
Proof. intros st. reflexivity. Qed.

Lemma keeps_bind (m : M A) (k : A -> M B) :
  keeps f m -> (forall a, keeps f (k a)) -> keeps f (bind m k).
Proof.
  intros Hm Hk st. unfold bind. specialize (Hm st).
  destruct (m st) as [[a|e] st']; simpl in Hm; [|exact Hm].
  now rewrite (Hk a st').
Qed.

Lemma keeps_finally (m : M A) (cleanup : M unit) :
  keeps f m -> keeps f cleanup -> keeps f (finally m cleanup).
Proof.
  intros Hm Hc st. unfold finally. specialize (Hm st).
  destruct (m st) as [r st']; simpl in Hm. specialize (Hc st').
  destruct (cleanup st') as [[[]|e] st'']; simpl in *; congruence.
Qed.

Lemma keeps_try_except (m : M A) (handler : exn -> option (M A)) :
  keeps f m -> (forall e h, handler e = Some h -> keeps f h) ->
  keeps f (try_except m handler).
Proof.
  intros Hm Hh st. unfold try_except. specialize (Hm st).
  destruct (m st) as [[a|e] st']; simpl in Hm; [exact Hm|].
  destruct (handler e) as [h|] eqn:He; [|exact Hm].
  now rewrite (Hh e h He st').
Qed.

Lemma keeps_call (ev : event) (oracle : list event -> result A) :
  (forall tr st, f (set_trace tr st) = f st) -> keeps f (call ev oracle).
Proof. intros Hf st. apply Hf. Qed.

End Keeps.

Lemma keeps_lift_exn {X} (f : State -> X) (r : option exn) : keeps f (lift_exn r).
Proof. destruct r; [apply keeps_raise | apply keeps_ret]. Qed.

Lemma keeps_get {X} (f : State -> X) : keeps f get.
Proof. intros st. reflexivity. Qed.

Lemma keeps_self {X} (f : State -> X) : keeps f self.
Proof. intros st. reflexivity. Qed.

Lemma keeps_modify {X} (f : State -> X) (g : State -> State) :
  (forall st, f (g st) = f st) -> keeps f (modify g).
Proof. intros H st. apply H. Qed.

Lemma keeps_emit {X} (f : State -> X) (ev : event) :
  (forall tr st, f (set_trace tr st) = f st) -> keeps f (emit ev).
Proof. intros Hf st. apply Hf. Qed.

Lemma keeps_call_exn {X} (f : State -> X) (ev : event) (oracle : list event -> option exn) :
  (forall tr st, f (set_trace tr st) = f st) -> keeps f (call_exn ev oracle).
Proof. intros Hf st. apply Hf. Qed.

Ltac keeps_tac :=
  repeat first
    [ apply keeps_ret | apply keeps_raise | apply keeps_lift | apply keeps_lift_exn
    | apply keeps_get | apply keeps_self
    | apply keeps_modify; intros ?; reflexivity
    | apply keeps_emit; intros ? ?; reflexivity
    | apply keeps_call; intros ? ?; reflexivity
    | apply keeps_call_exn; intros ? ?; reflexivity
    | apply keeps_bind; [|intros ?]
    | apply keeps_finally
    | match goal with
      | |- keeps _ (match ?x with _ => _ end) => destruct x
      end ].

Section KeepsProgram.
Context {E : Env}.
Import Py.

Lemma keeps_get_fingerprint {X} (f : State -> X) host port :
  (forall tr st, f (set_trace tr st) = f st) -> keeps f (get_fingerprint host port).
Proof.
  intros Hf st. rewrite get_fingerprint_run. repeat case_match; simpl; apply Hf.
Qed.

Lemma keeps_session_for_hostname hostname : keeps session_part (for_hostname hostname).
Proof.
  unfold for_hostname, fetch_host_key, objects_get, save.
  apply keeps_bind.
  - apply keeps_try_except; [keeps_tac|].
    intros e h He. destruct e; simplify_eq. keeps_tac.
  - intros row. destruct (negb _); [|keeps_tac].
    apply keeps_bind; [apply keeps_get_fingerprint; reflexivity|].
    intros text. keeps_tac.
Qed.

Lemma keeps_handle__assert_open : keeps ssh_client _assert_open.
Proof. unfold _assert_open. keeps_tac. Qed.

Lemma keeps_handle_exec command : keeps ssh_client (exec command).
Proof. unfold exec, _assert_open, client_exec_command. keeps_tac. Qed.

Lemma keeps_handle_run command flag : keeps ssh_client (run command flag).
Proof.
  unfold run. apply keeps_bind; [apply keeps_handle__assert_open|]. intros _.
  apply keeps_bind; [apply keeps_handle_exec|]. intros r. keeps_tac.
Qed.

Lemma keeps_handle_write_file path data : keeps ssh_client (write_file path data).
Proof. unfold write_file, _assert_open, client_open_sftp. keeps_tac. Qed.

Lemma keeps_handle_read_file path : keeps ssh_client (read_file path).
Proof. unfold read_file, _assert_open, client_open_sftp. keeps_tac. Qed.

(** The four operations do not touch the cache, the handle or the set of
    connected clients: they only add to the trace. *)
Lemma keeps_table_exec command : keeps table_part (exec command).
Proof. unfold exec, _assert_open, client_exec_command. keeps_tac. Qed.

End KeepsProgram.

(** ** More on the session handle *)

Section SessionMore.
Context {E : Env}.
Import Py.

Local Arguments base64.b64decode : simpl never.
Local Arguments split1 : simpl never.
Local Arguments String.eqb : simpl never.

(** X1.  An [open] that raises is not rolled back: the count stays
    incremented although no client got connected, so on a handle that was
    closed (count 0) the guard of the operations passes afterwards. *)
Theorem failed_open_is_not_rolled_back st e st' :
  open st = (Raise e, st') ->
  open_count st' = (open_count st + 1)%Z
  /\ connected st' = connected st
  /\ (open_count st = 0%Z -> _assert_open st' = (Ok tt, st')).
Proof.
  intros H.
  assert (Hc : open_count st' = (open_count st + 1)%Z /\ connected st' = connected st).
  { revert H. unfold open, client_connect, new_SSHClient, open_count. munfold. simpl.
    intros H.
    repeat match type of H with
           | context [match ?x with _ => _ end] =>
               lazymatch x with
               | context [match _ with _ => _ end] => fail
               | _ => destruct x eqn:?; simpl in H; try discriminate H
               end
           end.
    all: injection H as <- <-; split; reflexivity. }
  destruct Hc as [Hc Hl]. split; [exact Hc|]. split; [exact Hl|].
  intros H0. apply _assert_open_nonzero. lia.
Qed.

Lemma keeps_compose {A X Y} (f : State -> X) (g : X -> Y) (m : M A) :
  keeps f m -> keeps (fun st => g (f st)) m.
Proof. intros H st. now rewrite (H st). Qed.

(** Entering the session: when [__enter__] returns it has connected a new
    client, which is the handle's client, and incremented the count. *)
Lemma __enter___returns st st2 :
  __enter__ st = (Ok tt, st2) ->
  SshClient.client (ssh_client st2) = Some (next_client st)
  /\ open_count st2 = (open_count st + 1)%Z
  /\ connected st2 = connected st ++ [next_client st].
Proof.
  unfold __enter__. unfold bind at 1. unfold self at 1. cbv beta iota.
  set (pre := if negb (truthy_opt (SshClient.host_key (ssh_client st)))
              then bind (for_hostname (SshClient.host (ssh_client st)))
                     (fun r => update_self
                                 (SshClient.set_host_key (Some (SshHostKey.host_key r))))
              else ret tt).
  assert (Hpre : keeps (fun s => (open_count s, connected s, next_client s)) pre).
  { subst pre. destruct (negb _); [|apply keeps_ret].
    apply keeps_bind.
    - apply (keeps_compose session_part
               (fun p => (SshClient._open_count (fst (fst p)), snd (fst p), snd p))).
      apply keeps_session_for_hostname.
    - intros r. unfold update_self. apply keeps_modify. intros s. reflexivity. }
  unfold bind. specialize (Hpre st).
  destruct (pre st) as [[[]|e] sa]; [|discriminate]. simpl in Hpre.
  injection Hpre as Hcount Hconn Hnext.
  intros Ho. apply open_connects in Ho as [req [_ [Hc [Hcl [_ Hn]]]]].
  rewrite Hcl, Hn, Hc, Hcount, Hconn, Hnext. auto.
Qed.

(** [close] on a handle that has a client. *)
Lemma close_run st cid :
  SshClient.client (ssh_client st) = Some cid ->
  close st
  = (Ok tt,
     if (open_count st =? 1)%Z
     then set_connected (List.remove Nat.eq_dec cid (connected st))
            (set_trace (trace st ++ [EvClose cid])
               (set_ssh_client (SshClient.set_open_count 0 (ssh_client st)) st))
     else set_ssh_client (SshClient.set_open_count (open_count st - 1) (ssh_client st)) st).
Proof.
  intros Hc. unfold close, client_close, open_count. munfold. simpl. rewrite Hc.
  destruct (Z.eqb_spec (SshClient._open_count (ssh_client st) - 1) 0) as [H0|H0];
    destruct (Z.eqb_spec (SshClient._open_count (ssh_client st)) 1) as [H1|H1];
    try lia; [|reflexivity].
  now rewrite H0.
Qed.

(** The run of a [with] block whose [__enter__] has returned, for a body
    that leaves the handle's attributes alone. *)
Lemma with_ssh_client_releases {A} (body : M A) st st2 :
  keeps ssh_client body ->
  __enter__ st = (Ok tt, st2) ->
  exists st4,
    with_ssh_client body st = (fst (body st2), st4)
    /\ open_count st4 = open_count st
    /\ trace st4 = trace (snd (body st2))
                   ++ (if (open_count st =? 0)%Z then [EvClose (next_client st)] else [])
    /\ (open_count st = 0%Z -> ~ In (next_client st) (connected st4)).
Proof.
  intros Hk He.
  destruct (__enter___returns _ _ He) as [Hc [Hn _]].
  unfold with_ssh_client, __exit__. rewrite (bind_ok _ _ _ _ _ He). unfold finally.
  specialize (Hk st2). destruct (body st2) as [r st3]. simpl in Hk. simpl.
  assert (Hc3 : SshClient.client (ssh_client st3) = Some (next_client st))
    by now rewrite Hk.
  assert (Hn3 : open_count st3 = (open_count st + 1)%Z)
    by (unfold open_count in *; now rewrite Hk).
  rewrite (close_run _ _ Hc3), Hn3.
  destruct (Z.eqb_spec (open_count st + 1) 1) as [H1|H1];
    destruct (Z.eqb_spec (open_count st) 0) as [H0|H0]; try lia.
  - eexists. split; [reflexivity|]. unfold open_count in *. simpl.
    split; [lia|]. split; [reflexivity|]. intros _. apply remove_In.
  - eexists. split; [reflexivity|]. unfold open_count in *. simpl.
    split; [lia|]. split; [now rewrite app_nil_r|]. intros H. contradiction.
Qed.

Lemma keeps_connected_exec command : keeps connected (exec command).
Proof. unfold exec, _assert_open, client_exec_command. keeps_tac. Qed.

(** The state a [with] block ends in, once [__enter__] has returned, for a
    body that leaves the handle's attributes alone. *)
Lemma with_ssh_client_run {A} (body : M A) st st2 :
  keeps ssh_client body ->
  __enter__ st = (Ok tt, st2) ->
  with_ssh_client body st
  = (fst (body st2),
     let st3 := snd (body st2) in
     if (open_count st =? 0)%Z
     then set_connected (List.remove Nat.eq_dec (next_client st) (connected st3))
            (set_trace (trace st3 ++ [EvClose (next_client st)])
               (set_ssh_client (SshClient.set_open_count 0 (ssh_client st3)) st3))
     else set_ssh_client (SshClient.set_open_count (open_count st) (ssh_client st3)) st3).
Proof.
  intros Hk He.
  destruct (__enter___returns _ _ He) as [Hc [Hn _]].
  unfold with_ssh_client, __exit__. rewrite (bind_ok _ _ _ _ _ He). unfold finally.
  specialize (Hk st2). destruct (body st2) as [r st3]. simpl in Hk. simpl.
  assert (Hc3 : SshClient.client (ssh_client st3) = Some (next_client st))
    by now rewrite Hk.
  assert (Hn3 : open_count st3 = (open_count st + 1)%Z)
    by (unfold open_count in *; now rewrite Hk).
  rewrite (close_run _ _ Hc3), Hn3.
  destruct (Z.eqb_spec (open_count st + 1) 1) as [H1|H1];
    destruct (Z.eqb_spec (open_count st) 0) as [H0|H0]; try lia; [reflexivity|].
  now replace (open_count st + 1 - 1)%Z with (open_count st) by lia.
Qed.

(** X2.  The [with] block releases the session on every exit of a body
    that uses the handle without acquiring or releasing it.  Let the body
    leave the handle's attributes and the set of connected clients as they
    are (as [exec], [run], [write_file] and [read_file] do, and as [open],
    [close] and a nested [with] block do not).  Once [__enter__] has
    returned, the outcome of the block is the outcome of the body, returned
    or raised, and the count is back at its value before the block.  When
    that value is 0, the last event of the block closes the client that
    [__enter__] connected, which is no longer among the connected ones;
    when it is not 0 (the block is the inner one of a nested use), nothing
    is closed and the client that [__enter__] connected stays connected. *)
Theorem with_block_releases {A} (body : M A) st st2 :
  keeps ssh_client body -> keeps connected body ->
  __enter__ st = (Ok tt, st2) ->
  exists st4,
    with_ssh_client body st = (fst (body st2), st4)
    /\ open_count st4 = open_count st
    /\ trace st4 = trace (snd (body st2))
                   ++ (if (open_count st =? 0)%Z then [EvClose (next_client st)] else [])
    /\ connected st4 = (if (open_count st =? 0)%Z
                        then List.remove Nat.eq_dec (next_client st) (connected st)
                        else connected st ++ [next_client st]).
Proof.
  intros Hk Hconn He.
  destruct (__enter___returns _ _ He) as [_ [_ Hl]].
  specialize (Hconn st2). rewrite Hl in Hconn.
  eexists. split; [exact (with_ssh_client_run body st st2 Hk He)|].
  cbv zeta. destruct (Z.eqb_spec (open_count st) 0) as [H0|H0]; unfold open_count in *; simpl.
  - split; [now rewrite H0|]. split; [reflexivity|].
    rewrite Hconn, remove_app. simpl.
    destruct (Nat.eq_dec (next_client st) (next_client st)); [|contradiction].
    now rewrite app_nil_r.
  - split; [reflexivity|]. split; [now rewrite app_nil_r|exact Hconn].
Qed.

Lemma code_points_str_take (n : nat) (s : string) : code_points (str_take n s) <= n.
Proof.
  revert n. induction s as [|c s IH]; intros n; simpl; [lia|].
  destruct (is_continuation c) eqn:Hc; simpl; rewrite ?Hc.
  - apply IH.
  - destruct n as [|n]; simpl; [lia|]. rewrite Hc. specialize (IH n). lia.
Qed.

Lemma is_connected_last cid st st' :
  connected st' = connected st ++ [cid] -> is_connected cid st' = true.
Proof.
  intros H. unfold is_connected. rewrite H, existsb_app. simpl.
  now rewrite Nat.eqb_refl, orb_true_r.
Qed.

(** On a handle with a non-zero count and a connected client, [exec] asks
    the device and records the command. *)
Lemma exec_dispatch command st cid :
  open_count st <> 0%Z ->
  SshClient.client (ssh_client st) = Some cid ->
  is_connected cid st = true ->
  exec command st
  = (exec_command E (trace st) command, set_trace (trace st ++ [EvExec cid command]) st).
Proof.
  intros Hn Hc Hl. unfold exec.
  rewrite (bind_ok _ _ _ _ _ (_assert_open_nonzero st Hn)).
  unfold client_exec_command. munfold. simpl. now rewrite Hc, Hl.
Qed.

(** X3.  [get_config], once its session is entered and the export has
    run: with exit status 0 the result is the decoded standard output; with
    any other status it raises [CommandErrorException] whose message is the
    first 150 code points of the error output, or of the standard output
    when the error output is empty.  Either way the handle's count is back
    at its value before the call. *)
Theorem get_config_outcome (full : bool) st st2 r :
  (0 <= open_count st)%Z ->
  __enter__ st = (Ok tt, st2) ->
  exec_command E (trace st2) (if full then "/export verbose" else "/export") = Ok r ->
  fst (get_config full st)
  = (if (exit_status r =? 0)%Z then decode_utf8 (stdout r)
     else match decode_utf8 (bytes_or (stderr r) (stdout r)) with
          | Ok msg => Raise (CommandErrorException (str_take 150 msg))
          | Raise e => Raise e
          end)
  /\ (forall msg, fst (get_config full st) = Raise (CommandErrorException msg) ->
        code_points msg <= 150)
  /\ open_count (snd (get_config full st)) = open_count st.
Proof.
  intros Hpos He Hx.
  destruct (__enter___returns _ _ He) as [Hc [Hn Hl]].
  set (cmd := if full then "/export verbose" else "/export") in *.
  set (body := bind (exec cmd)
                 (fun r => if negb (exit_status r =? 0)%Z
                           then bind (lift (decode_utf8 (bytes_or (stderr r) (stdout r))))
                                  (fun msg => raise (CommandErrorException (str_take 150 msg)))
                           else lift (decode_utf8 (stdout r)))).
  assert (Hb : keeps ssh_client body).
  { subst body. apply keeps_bind; [apply keeps_handle_exec|]. intros r'.
    destruct (negb _); keeps_tac. }
  destruct (with_ssh_client_releases body st st2 Hb He) as [st4 [Hw [Hcount _]]].
  change (get_config full st) with (with_ssh_client body st). rewrite Hw. simpl.
  assert (Hexec : exec cmd st2
                  = (Ok r, set_trace (trace st2 ++ [EvExec (next_client st) cmd]) st2)).
  { assert (Hnz : open_count st2 <> 0%Z) by lia.
    rewrite (exec_dispatch cmd st2 _ Hnz Hc (is_connected_last _ _ _ Hl)).
    now rewrite Hx. }
  assert (Hres : fst (body st2)
                 = (if (exit_status r =? 0)%Z then decode_utf8 (stdout r)
                    else match decode_utf8 (bytes_or (stderr r) (stdout r)) with
                         | Ok msg => Raise (CommandErrorException (str_take 150 msg))
                         | Raise e => Raise e
                         end)).
  { subst body. rewrite (bind_ok _ _ _ _ _ Hexec).
    destruct (exit_status r =? 0)%Z; simpl; [reflexivity|].
    unfold bind, lift, raise.
    now destruct (decode_utf8 (bytes_or (stderr r) (stdout r))). }
  split; [exact Hres|]. split; [|exact Hcount].
  rewrite Hres. intros msg.
  destruct (exit_status r =? 0)%Z.
  - unfold decode_utf8. destruct (utf8_wf _ _ _ _); discriminate.
  - unfold decode_utf8. destruct (utf8_wf _ _ _ _); [|discriminate].
    intros H. injection H as <-. apply code_points_str_take.
Qed.

End SessionMore.

(** ** More on transfers, commands and host keys *)

Section TransfersMore.
Context {E : Env}.
Import Py.

(** X4.  Every transfer closes the channel it opened, also when the
    transfer fails: on an open session, once [open_sftp] has returned,
    [write_file] and [read_file] issue the opening, the transfer and the
    closing of the channel and end with the outcome of the transfer; when
    [open_sftp] fails, its error is raised and there is nothing to close. *)
Theorem transfer_closes_its_channel st cid path data :
  open_count st <> 0%Z ->
  SshClient.client (ssh_client st) = Some cid ->
  is_connected cid st = true ->
  (open_sftp E (trace st) = None ->
     write_file path data st
     = (match sftp_write E (trace st ++ [EvOpenSftp cid]) path data with
        | None => Ok tt
        | Some e => Raise e
        end,
        set_trace (trace st ++ [EvOpenSftp cid; EvSftpWrite cid path data;
                                EvSftpClose cid]) st)
     /\ read_file path st
        = (sftp_read E (trace st ++ [EvOpenSftp cid]) path,
           set_trace (trace st ++ [EvOpenSftp cid; EvSftpRead cid path;
                                   EvSftpClose cid]) st))
  /\ (forall e, open_sftp E (trace st) = Some e ->
        write_file path data st
        = (Raise e, set_trace (trace st ++ [EvOpenSftp cid]) st)
        /\ read_file path st
           = (Raise e, set_trace (trace st ++ [EvOpenSftp cid]) st)).
Proof.
  intros Hn Hc Hl.
  pose proof (_assert_open_nonzero st Hn) as Ha.
  split.
  - intros Ho. split.
    + unfold write_file. rewrite (bind_ok _ _ _ _ _ Ha).
      unfold client_open_sftp. munfold. simpl. rewrite Hc, Hl. simpl. rewrite Ho.
      unfold set_trace. simpl. rewrite <- !app_assoc.
      now destruct (sftp_write E _ path data).
    + unfold read_file. rewrite (bind_ok _ _ _ _ _ Ha).
      unfold client_open_sftp. munfold. simpl. rewrite Hc, Hl. simpl. rewrite Ho.
      unfold set_trace. simpl. rewrite <- !app_assoc. reflexivity.
  - intros e Ho. split.
    + unfold write_file. rewrite (bind_ok _ _ _ _ _ Ha).
      unfold client_open_sftp. munfold. simpl. now rewrite Hc, Hl, Ho.
    + unfold read_file. rewrite (bind_ok _ _ _ _ _ Ha).
      unfold client_open_sftp. munfold. simpl. now rewrite Hc, Hl, Ho.
Qed.

(** X5.  [run], once its command has been executed (a single time, the
    two guards notwithstanding): with exit status 0, or when the caller
    opted out of exceptions, it gives the decoded and stripped lines of the
    standard output and raises no [SshCommandException]; otherwise it raises
    [SshCommandException] with the command and the error output, the
    standard output standing in only when the error output is empty. *)
Theorem run_outcome command (raise_exceptions : bool) st r st' :
  exec command st = (Ok r, st') ->
  run command raise_exceptions st
  = (if (exit_status r =? 0)%Z || negb raise_exceptions
     then match readlines (stdout r) with
          | Ok ls => Ok (map (str_strip E) ls)
          | Raise e => Raise e
          end
     else match decode_utf8 (match stderr r with [] => stdout r | _ :: _ => stderr r end) with
          | Ok error =>
              Raise (SshCommandException
                       ("Error executing: " ++ command ++ nl ++ "Error: " ++ error)%string)
          | Raise e => Raise e
          end,
     st').
Proof.
  intros Hx. unfold run.
  assert (Ha : _assert_open st = (Ok tt, st)).
  { revert Hx. unfold exec, bind. destruct (_assert_open st) as [[[]|e] s] eqn:Ha.
    - intros _. revert Ha. unfold _assert_open. munfold.
      repeat case_match; intros; simplify_eq/=; reflexivity.
    - discriminate. }
  rewrite (bind_ok _ _ _ _ _ Ha), (bind_ok _ _ _ _ _ Hx).
  destruct ((exit_status r =? 0)%Z || negb raise_exceptions).
  - unfold bind, lift, ret. now destruct (readlines (stdout r)).
  - unfold bind, lift, raise, bytes_or.
    destruct (stderr r); simpl; now destruct (decode_utf8 _).
Qed.

(** X6.  A key fetch never leaves a transport or a socket behind, and it
    changes nothing but the trace: once the TCP connection is up, the
    handshake is followed by the closing of the transport and of the socket
    whether it succeeded or not; when the connection cannot be made, its
    error is raised and nothing else is done. *)
Theorem get_fingerprint_tears_down host port st :
  snd (get_fingerprint host port st)
  = set_trace (trace (snd (get_fingerprint host port st))) st
  /\ (socket_connect E (trace st) host port = None ->
      trace (snd (get_fingerprint host port st))
      = trace st ++ [EvSocketConnect host port; EvStartClient host;
                     EvTransportClose host; EvSocketClose host])
  /\ (forall e, socket_connect E (trace st) host port = Some e ->
        get_fingerprint host port st
        = (Raise e, set_trace (trace st ++ [EvSocketConnect host port]) st)).
Proof.
  rewrite get_fingerprint_run. split; [|split].
  - repeat case_match; reflexivity.
  - intros ->. cbv zeta. repeat case_match; reflexivity.
  - intros e ->. reflexivity.
Qed.

(** X7.  [fetch_host_key(commit=False)] persists nothing: the table and
    its key counter are unchanged and no [save] is issued.  When it returns,
    the server presented a key, [get_fingerprint] returned the text printed
    for that key, and the object is the one it was called on with that text
    as its [host_key]. *)
Theorem fetch_without_commit self st :
  table_part (snd (fetch_host_key self false st)) = table_part st
  /\ (exists evs, trace (snd (fetch_host_key self false st)) = trace st ++ evs
                  /\ forallb (fun ev => negb (is_save ev)) evs = true)
  /\ (forall r st', fetch_host_key self false st = (Ok r, st') ->
        exists key,
          remote_server_key E (trace st ++ [EvSocketConnect (SshHostKey.hostname self) 22])
            (SshHostKey.hostname self) = Ok key
          /\ get_fingerprint (SshHostKey.hostname self) 22 st = (Ok (printed key), st')
          /\ r = SshHostKey.set_host_key (printed key) self
          /\ truthy_str (SshHostKey.host_key r) = true).
Proof.
  unfold fetch_host_key, bind. rewrite get_fingerprint_run.
  destruct (socket_connect E (trace st) (SshHostKey.hostname self) 22) as [e|].
  { split; [reflexivity|]. split; [|discriminate].
    eexists. split; reflexivity. }
  cbv zeta.
  destruct (remote_server_key E _ (SshHostKey.hostname self)) as [key|e].
  - destruct (existsb (String.eqb (get_name key)) _preferred_keys).
    + split; [reflexivity|]. split; [eexists; split; reflexivity|].
      intros r st' H. injection H as <- <-. exists key.
      split; [reflexivity|]. split; [reflexivity|]. split; [reflexivity|].
      apply printed_truthy.
    + split; [reflexivity|]. split; [|discriminate].
      eexists. split; reflexivity.
  - split; [reflexivity|]. split; [|discriminate].
    eexists. split; reflexivity.
Qed.

Lemma for_hostname_fetch_path hostname st r st1 :
  keyed_by_hostname st -> ~ cached st hostname ->
  for_hostname hostname st = (Ok r, st1) ->
  exists key,
    save (SshHostKey.set_host_key (printed key)
            (match objects st !! hostname with
             | Some row => row
             | None => SshHostKey.__init__ hostname
             end))
         (set_trace (trace st ++ fetch_events hostname 22) st) = (Ok r, st1)
    /\ SshHostKey.hostname (match objects st !! hostname with
                            | Some row => row
                            | None => SshHostKey.__init__ hostname
                            end) = hostname.
Proof.
  intros Hk Hn H.
  rewrite for_hostname_uncached, fetch_host_key_run in H by assumption.
  remember (match objects st !! hostname with
            | Some row => row
            | None => SshHostKey.__init__ hostname
            end) as obj eqn:Hobj.
  assert (Hh : SshHostKey.hostname obj = hostname).
  { subst obj. destruct (objects st !! hostname) as [row|] eqn:Hrow;
      [now apply Hk | reflexivity]. }
  rewrite Hh, get_fingerprint_run in H.
  destruct (socket_connect E (trace st) hostname 22); [discriminate|].
  cbv zeta in H.
  destruct (remote_server_key E _ hostname) as [key|]; [|discriminate].
  destruct (existsb (String.eqb (get_name key)) _preferred_keys); [|discriminate].
  exists key. split; assumption.
Qed.

(** X8.  [for_hostname] keeps the table keyed by hostname and touches no
    row but that of the hostname it is asked for, whatever its outcome. *)
Theorem for_hostname_touches_one_row hostname st :
  keyed_by_hostname st ->
  keyed_by_hostname (snd (for_hostname hostname st))
  /\ (forall h, h <> hostname ->
        objects (snd (for_hostname hostname st)) !! h = objects st !! h).
Proof.
  intros Hk.
  destruct (cached_dec st hostname) as [[row [Hrow Ht]]|Hn].
  { rewrite (for_hostname_cached _ _ _ Hrow Ht). simpl. auto. }
  destruct (for_hostname hostname st) as [[r|e] st1] eqn:H.
  - destruct (for_hostname_fetch_path _ _ _ _ Hk Hn H) as [key [Hs Hh]].
    apply save_run in Hs. simpl in Hs. destruct Hs as [Ho [_ Hrh]].
    rewrite Hh in Ho, Hrh. simpl. split.
    + intros h row. rewrite Ho. destruct (decide (hostname = h)) as [<-|Hne].
      * rewrite lookup_insert_eq. intros [= <-]. exact Hrh.
      * rewrite lookup_insert_ne by assumption. apply Hk.
    + intros h Hne. rewrite Ho. now rewrite lookup_insert_ne by congruence.
  - assert (Ho : objects st1 = objects st).
    { revert H. rewrite for_hostname_uncached, fetch_host_key_run by assumption.
      destruct (get_fingerprint_frame
                  (SshHostKey.hostname
                     (match objects st !! hostname with
                      | Some row => row
                      | None => SshHostKey.__init__ hostname
                      end)) 22 st) as [evs [Hs _]].
      destruct (get_fingerprint _ 22 st) as [[text|e'] st'].
      - simpl in Hs. subst st'. intros Hsave. apply save_run in Hsave.
        now destruct Hsave.
      - simpl in Hs. subst st'. now intros [= _ <-]. }
    simpl. split.
    + intros h row. rewrite Ho. apply Hk.
    + intros h _. now rewrite Ho.
Qed.

(** The successful fetch behind a [for_hostname] that returns for a
    hostname without cached key. *)
Lemma for_hostname_fetch_key hostname st r st1 :
  keyed_by_hostname st -> ~ cached st hostname ->
  for_hostname hostname st = (Ok r, st1) ->
  exists key,
    remote_server_key E (trace st ++ [EvSocketConnect hostname 22]) hostname = Ok key
    /\ get_fingerprint hostname 22 st
       = (Ok (printed key), set_trace (trace st ++ fetch_events hostname 22) st)
    /\ save (SshHostKey.set_host_key (printed key)
               (match objects st !! hostname with
                | Some row => row
                | None => SshHostKey.__init__ hostname
                end))
            (set_trace (trace st ++ fetch_events hostname 22) st) = (Ok r, st1)
    /\ SshHostKey.hostname (match objects st !! hostname with
                            | Some row => row
                            | None => SshHostKey.__init__ hostname
                            end) = hostname.
Proof.
  intros Hk Hn H.
  rewrite for_hostname_uncached, fetch_host_key_run in H by assumption.
  remember (match objects st !! hostname with
            | Some row => row
            | None => SshHostKey.__init__ hostname
            end) as obj eqn:Hobj.
  assert (Hh : SshHostKey.hostname obj = hostname).
  { subst obj. destruct (objects st !! hostname) as [row|] eqn:Hrow;
      [now apply Hk | reflexivity]. }
  rewrite Hh in H. rewrite get_fingerprint_run in *.
  destruct (socket_connect E (trace st) hostname 22); [discriminate|].
  cbv zeta in *.
  destruct (remote_server_key E _ hostname) as [key|]; [|discriminate].
  destruct (existsb (String.eqb (get_name key)) _preferred_keys); [|discriminate].
  exists key. repeat split; assumption.
Qed.

(** X9.  A first use inserts, a later one updates in place.  When
    [for_hostname] fetches a key and returns, the server presented a key
    and the record's [host_key] is the text [get_fingerprint] returned for
    it.  For a hostname without row the record is a new row with the next
    primary key, and the key counter advances; for a row whose key material
    was empty the record is that row with the fetched text, its [id] and
    [created_at] kept, and the counter stays.  In both cases the record is
    what the table holds for the hostname afterwards. *)
Theorem for_hostname_inserts_or_updates hostname st r st1 :
  keyed_by_hostname st -> ~ cached st hostname ->
  for_hostname hostname st = (Ok r, st1) ->
  (exists key,
     remote_server_key E (trace st ++ [EvSocketConnect hostname 22]) hostname = Ok key
     /\ fst (get_fingerprint hostname 22 st) = Ok (printed key)
     /\ SshHostKey.host_key r = printed key)
  /\ objects st1 = <[hostname := r]> (objects st)
  /\ SshHostKey.hostname r = hostname
  /\ match objects st !! hostname with
     | None =>
         SshHostKey.id r = Some (next_id st) /\ next_id st1 = S (next_id st)
     | Some row =>
         r = SshHostKey.set_host_key (SshHostKey.host_key r) row
         /\ next_id st1 = next_id st
     end.
Proof.
  intros Hk Hn H.
  destruct (for_hostname_fetch_key _ _ _ _ Hk Hn H) as [key [Hkey [Hg [Hs Hh]]]].
  pose proof (save_run _ _ _ _ Hs) as Hr. simpl in Hr.
  destruct Hr as [Ho [Hhk Hrh]]. rewrite Hh in Ho, Hrh.
  split.
  { exists key. split; [exact Hkey|]. split; [now rewrite Hg | exact Hhk]. }
  split; [exact Ho|]. split; [exact Hrh|].
  clear Ho Hrh H Hhk Hg.
  revert Hs Hh. unfold save. munfold. simpl.
  destruct (objects st !! hostname) as [row|] eqn:Hrow; simpl.
  - intros Hs Hh. rewrite Hh, Hrow in Hs.
    destruct (SshHostKey.id row); [|discriminate].
    injection Hs as <- <-. simpl. auto.
  - intros Hs _. rewrite Hrow in Hs. injection Hs as <- <-. simpl. auto.
Qed.

End TransfersMore.

(** ** More on deployment *)

Section DeploymentMore.
Context {E : Env}.
Import Py.

(** X10.  The deployment releases its session on every exit.  Once the
    session is entered for a non-empty diff, then however the upload, the
    execution and the verification end, the handle's count is back at its
    value before the call, and when that is 0 the last event closes the
    client the session connected, which is no longer connected. *)
Theorem deployment_releases_session d st1 st2 :
  sections E d <> [] ->
  __enter__ (set_trace (trace st1 ++ [EvNow]) st1) = (Ok tt, st2) ->
  open_count (snd (apply_diff d st1)) = open_count st1
  /\ (open_count st1 = 0%Z ->
      (exists tr, trace (snd (apply_diff d st1)) = tr ++ [EvClose (next_client st1)])
      /\ ~ In (next_client st1) (connected (snd (apply_diff d st1)))).
Proof.
  intros Hd He.
  set (file_name := ("script-" ++ now_isoformat E (trace st1) ++ ".rsc")%string).
  set (body := bind (write_file file_name (encode_utf8 (script_of d file_name)))
                 (fun _ => bind (exec (import_command file_name))
                   (fun r => if negb (bytes_in SUCCESS (stdout r))
                             then raise (CommandErrorException (failure_message file_name))
                             else ret tt))).
  assert (Ha : apply_diff d st1
               = with_ssh_client body (set_trace (trace st1 ++ [EvNow]) st1)).
  { unfold apply_diff. destruct (sections E d); [congruence | reflexivity]. }
  assert (Hb : keeps ssh_client body).
  { subst body. apply keeps_bind; [apply keeps_handle_write_file|]. intros _.
    apply keeps_bind; [apply keeps_handle_exec|]. intros r. keeps_tac. }
  destruct (with_ssh_client_releases body _ st2 Hb He) as [st4 [Hw [Hc [Ht Hn]]]].
  rewrite Ha, Hw. simpl. split; [exact Hc|].
  intros H0. change (open_count (set_trace (trace st1 ++ [EvNow]) st1))
               with (open_count st1) in *.
  rewrite H0 in Ht. simpl in Ht. split; [eexists; exact Ht | now apply Hn].
Qed.

(** [write_file] on a handle with a non-zero count and a connected
    client. *)
Lemma write_file_dispatch path data st cid :
  open_count st <> 0%Z ->
  SshClient.client (ssh_client st) = Some cid ->
  is_connected cid st = true ->
  write_file path data st
  = match open_sftp E (trace st) with
    | Some e => (Raise e, set_trace (trace st ++ [EvOpenSftp cid]) st)
    | None =>
        (match sftp_write E (trace st ++ [EvOpenSftp cid]) path data with
         | None => Ok tt
         | Some e => Raise e
         end,
         set_trace (trace st ++ [EvOpenSftp cid; EvSftpWrite cid path data;
                                 EvSftpClose cid]) st)
    end.
Proof.
  intros Hn Hc Hl. unfold write_file.
  rewrite (bind_ok _ _ _ _ _ (_assert_open_nonzero st Hn)).
  unfold client_open_sftp. munfold. simpl. rewrite Hc, Hl. simpl.
  destruct (open_sftp E (trace st)); [reflexivity|].
  unfold set_trace. simpl. rewrite <- !app_assoc.
  now destruct (sftp_write E _ path data).
Qed.

(** X11.  What [load_replace_candidate] uploads.  When the diff has
    sections, the session is entered and the channel opens, the call
    writes one file, named [script-<timestamp>.rsc] for the timestamp read
    after the diff, whose text is the text of the diff, a line that removes
    the file of that very name, and the line that prints the marker; when
    the file was written it imports that same file, and otherwise it runs no
    command; after that it only closes the session. *)
Theorem uploaded_script_layout filename config current_config current_config_verbose
    st d st1 st2 :
  candidate_diff filename config current_config current_config_verbose st = (Ok d, st1) ->
  sections E d <> [] ->
  (0 <= open_count st1)%Z ->
  __enter__ (set_trace (trace st1 ++ [EvNow]) st1) = (Ok tt, st2) ->
  open_sftp E (trace st2) = None ->
  let cid := next_client st1 in
  let file_name := ("script-" ++ now_isoformat E (trace st1) ++ ".rsc")%string in
  let data := encode_utf8 (diff_str E d
                           ++ (nl ++ "/file remove " ++ dquote ++ file_name ++ dquote)
                           ++ (nl ++ ":put SUCCESS"))%string in
  trace (snd (load_replace_candidate filename config current_config
                current_config_verbose st))
  = trace st2
    ++ [EvOpenSftp cid; EvSftpWrite cid file_name data; EvSftpClose cid]
    ++ match sftp_write E (trace st2 ++ [EvOpenSftp cid]) file_name data with
       | None => [EvExec cid ("/import " ++ dquote ++ file_name ++ dquote)%string]
       | Some _ => []
       end
    ++ (if (open_count st1 =? 0)%Z then [EvClose cid] else []).
Proof.
  intros Hd Hs Hpos He Ho cid file_name data.
  set (st0 := set_trace (trace st1 ++ [EvNow]) st1) in *.
  destruct (__enter___returns _ _ He) as [Hc [Hn Hl]].
  change (next_client st0) with cid in Hc, Hl.
  change (open_count st0) with (open_count st1) in Hn.
  set (body := bind (write_file file_name (encode_utf8 (script_of d file_name)))
                 (fun _ => bind (exec (import_command file_name))
                   (fun r => if negb (bytes_in SUCCESS (stdout r))
                             then raise (CommandErrorException (failure_message file_name))
                             else ret tt))).
  assert (Ha : apply_diff d st1 = with_ssh_client body st0).
  { unfold apply_diff. destruct (sections E d); [congruence | reflexivity]. }
  assert (Hb : keeps ssh_client body).
  { subst body. apply keeps_bind; [apply keeps_handle_write_file|]. intros _.
    apply keeps_bind; [apply keeps_handle_exec|]. intros r. keeps_tac. }
  unfold load_replace_candidate. rewrite (bind_ok _ _ _ _ _ Hd), Ha.
  rewrite (with_ssh_client_run body st0 st2 Hb He). cbv zeta.
  change (open_count st0) with (open_count st1).
  change (next_client st0) with cid.
  assert (Hnz : open_count st2 <> 0%Z) by lia.
  assert (Hconn : is_connected cid st2 = true) by (eapply is_connected_last; exact Hl).
  assert (Hbody : trace (snd (body st2))
                  = trace st2
                    ++ [EvOpenSftp cid; EvSftpWrite cid file_name data; EvSftpClose cid]
                    ++ match sftp_write E (trace st2 ++ [EvOpenSftp cid]) file_name data with
                       | None => [EvExec cid ("/import " ++ dquote ++ file_name ++ dquote)%string]
                       | Some _ => []
                       end).
  { subst body. unfold bind at 1.
    rewrite (write_file_dispatch _ _ st2 cid Hnz Hc Hconn), Ho.
    change (encode_utf8 (script_of d file_name)) with data.
    destruct (sftp_write E (trace st2 ++ [EvOpenSftp cid]) file_name data) as [e|].
    - simpl. reflexivity.
    - unfold bind.
      rewrite (exec_dispatch (import_command file_name) _ cid); [| exact Hnz | exact Hc | exact Hconn].
      destruct (exec_command E _ (import_command file_name)) as [r|e]; simpl.
      + destruct (negb (bytes_in SUCCESS (stdout r))); simpl;
          now rewrite <- !app_assoc.
      + now rewrite <- !app_assoc. }
  destruct (open_count st1 =? 0)%Z; simpl; rewrite Hbody;
    destruct (sftp_write E (trace st2 ++ [EvOpenSftp cid]) file_name data);
    simpl; rewrite <- ?app_assoc; reflexivity.
Qed.

(** X12.  A current configuration that the caller supplies is parsed, not
    fetched: computing the diff then leaves the state as it is (no session,
    no command, no event), whether it returns or raises. *)
Theorem supplied_current_config_needs_no_device filename config current_config
    current_config_verbose st :
  truthy_config current_config = true ->
  snd (candidate_diff filename config current_config current_config_verbose st) = st.
Proof.
  intros Ht. unfold candidate_diff. munfold.
  destruct current_config as [[s|c]|]; simpl in Ht; try discriminate.
  - rewrite Ht. repeat case_match; simplify_eq/=; reflexivity.
  - repeat case_match; simplify_eq/=; reflexivity.
Qed.

End DeploymentMore.

(** ** The session, the transfers and the deployment in the scenario *)

Lemma failed_open_is_not_rolled_back_witness :
  let st := Scenario.start (Some "garbage") in
  let st' := snd (open (E:=Scenario.good) st) in
  open_count st' = (open_count st + 1)%Z
  /\ connected st' = connected st
  /\ (open_count st = 0%Z -> _assert_open st' = (Ok tt, st')).
Proof.
  refine (failed_open_is_not_rolled_back (E:=Scenario.good)
            (Scenario.start (Some "garbage")) _ _ _).
  vm_compute. reflexivity.
Defined.

Lemma with_block_releases_witness :
  let st := Scenario.start (Some "ssh-rsa AAEC") in
  let st2 := snd (__enter__ (E:=Scenario.good) st) in
  let body := exec (E:=Scenario.good) "/export" in
  exists st4,
    with_ssh_client (E:=Scenario.good) body st = (fst (body st2), st4)
    /\ open_count st4 = open_count st
    /\ trace st4 = trace (snd (body st2))
                   ++ (if (open_count st =? 0)%Z then [EvClose (next_client st)] else [])
    /\ connected st4 = (if (open_count st =? 0)%Z
                        then List.remove Nat.eq_dec (next_client st) (connected st)
                        else connected st ++ [next_client st]).
Proof.
  refine (with_block_releases (E:=Scenario.good) (exec (E:=Scenario.good) "/export")
            (Scenario.start (Some "ssh-rsa AAEC")) _ _ _ _).
  - apply keeps_handle_exec.
  - apply keeps_connected_exec.
  - vm_compute. reflexivity.
Defined.

Lemma get_config_outcome_witness :
  fst (get_config (E:=Scenario.good) false (Scenario.start (Some "ssh-rsa AAEC")))
  = Ok "/ip address".
Proof.
  assert (H0 : (0 <= open_count (Scenario.start (Some "ssh-rsa AAEC")))%Z)
    by (vm_compute; discriminate).
  assert (H1 : __enter__ (E:=Scenario.good) (Scenario.start (Some "ssh-rsa AAEC"))
               = (Ok tt, snd (__enter__ (E:=Scenario.good)
                                (Scenario.start (Some "ssh-rsa AAEC")))))
    by (vm_compute; reflexivity).
  destruct (get_config_outcome (E:=Scenario.good) false
              (Scenario.start (Some "ssh-rsa AAEC")) _
              (mk_exec_reply (Py.b "/ip address") [] 0) H0 H1 eq_refl) as [H _].
  exact H.
Defined.

Lemma transfer_closes_its_channel_witness :
  let st := Scenario.entered Scenario.good in
  write_file (E:=Scenario.good) "candidate.rsc" (Py.b "/ip dns") st
  = (Ok tt,
     set_trace (trace st ++ [EvOpenSftp 1; EvSftpWrite 1 "candidate.rsc" (Py.b "/ip dns");
                             EvSftpClose 1]) st).
Proof.
  destruct (transfer_closes_its_channel (E:=Scenario.good) (Scenario.entered Scenario.good)
              1 "candidate.rsc" (Py.b "/ip dns")) as [H _].
  - vm_compute. discriminate.
  - vm_compute. reflexivity.
  - vm_compute. reflexivity.
  - destruct (H eq_refl) as [Hw _]. exact Hw.
Defined.

Lemma run_outcome_witness :
  fst (run (E:=Scenario.good) "/export" true (Scenario.entered Scenario.good))
  = Ok ["/ip address"].
Proof.
  assert (H : exec (E:=Scenario.good) "/export" (Scenario.entered Scenario.good)
              = (Ok (mk_exec_reply (Py.b "/ip address") [] 0),
                 snd (exec (E:=Scenario.good) "/export" (Scenario.entered Scenario.good))))
    by (vm_compute; reflexivity).
  exact (f_equal fst (run_outcome (E:=Scenario.good) "/export" true _ _ _ H)).
Defined.

Lemma fetch_without_commit_witness :
  let self := SshHostKey.__init__ "router1" in
  let st := Scenario.start None in
  exists key,
    remote_server_key Scenario.good (trace st ++ [EvSocketConnect "router1" 22]) "router1"
    = Ok key
    /\ get_fingerprint (E:=Scenario.good) "router1" 22 st
       = (Ok (printed key), snd (fetch_host_key (E:=Scenario.good) self false st))
    /\ SshHostKey.set_host_key "ssh-rsa AAEC" self = SshHostKey.set_host_key (printed key) self
    /\ Py.truthy_str "ssh-rsa AAEC" = true.
Proof.
  refine (proj2 (proj2 (fetch_without_commit (E:=Scenario.good)
                          (SshHostKey.__init__ "router1") (Scenario.start None)))
                (SshHostKey.set_host_key "ssh-rsa AAEC" (SshHostKey.__init__ "router1"))
                _ _).
  vm_compute. reflexivity.
Defined.

Lemma for_hostname_touches_one_row_witness :
  let st := Scenario.start None in
  keyed_by_hostname (snd (for_hostname (E:=Scenario.good) "router1" st))
  /\ (forall h, h <> "router1" ->
        objects (snd (for_hostname (E:=Scenario.good) "router1" st)) !! h = objects st !! h).
Proof.
  apply (for_hostname_touches_one_row (E:=Scenario.good) "router1" (Scenario.start None)).
  intros h row H. simpl in H. rewrite lookup_empty in H. discriminate.
Defined.

Lemma for_hostname_inserts_or_updates_witness :
  let st := Scenario.start None in
  let r := SshHostKey.mk (Some 0) (Some 4) "router1" "ssh-rsa AAEC" in
  let st1 := snd (for_hostname (E:=Scenario.good) "router1" st) in
  (exists key,
     remote_server_key Scenario.good (trace st ++ [EvSocketConnect "router1" 22]) "router1"
     = Ok key
     /\ fst (get_fingerprint (E:=Scenario.good) "router1" 22 st) = Ok (printed key)
     /\ SshHostKey.host_key r = printed key)
  /\ objects st1 = <["router1" := r]> (objects st)
  /\ SshHostKey.id r = Some (next_id st) /\ next_id st1 = S (next_id st).
Proof.
  destruct (for_hostname_inserts_or_updates (E:=Scenario.good) "router1"
              (Scenario.start None)
              (SshHostKey.mk (Some 0) (Some 4) "router1" "ssh-rsa AAEC")
              (snd (for_hostname (E:=Scenario.good) "router1" (Scenario.start None))))
    as [Hkey [Ho [_ Hn]]].
  - intros h row H. simpl in H. rewrite lookup_empty in H. discriminate.
  - intros [row [H _]]. simpl in H. rewrite lookup_empty in H. discriminate.
  - vm_compute. reflexivity.
  - split; [exact Hkey|]. split; [exact Ho | exact Hn].
Defined.

Lemma deployment_releases_session_witness :
  open_count (snd (apply_diff (E:=Scenario.good) ["/ip dns"] (Scenario.diffed Scenario.good)))
  = open_count (Scenario.diffed Scenario.good).
Proof.
  destruct (deployment_releases_session (E:=Scenario.good) ["/ip dns"]
              (Scenario.diffed Scenario.good) (Scenario.entered Scenario.good)) as [H _].
  - discriminate.
  - vm_compute. reflexivity.
  - exact H.
Defined.

Lemma uploaded_script_layout_witness :
  trace (snd (load_replace_candidate (E:=Scenario.good) None (Some (ConfigStr "/ip dns"))
                None None (Scenario.start None)))
  = trace (Scenario.entered Scenario.good)
    ++ [EvOpenSftp 1;
        EvSftpWrite 1 Scenario.script_name
          (Py.encode_utf8
             ("/ip dns"
              ++ (Py.nl ++ "/file remove " ++ Py.dquote ++ Scenario.script_name ++ Py.dquote)
              ++ (Py.nl ++ ":put SUCCESS"))%string);
        EvSftpClose 1]
    ++ [EvExec 1 ("/import " ++ Py.dquote ++ Scenario.script_name ++ Py.dquote)%string]
    ++ [EvClose 1].
Proof.
  refine (uploaded_script_layout (E:=Scenario.good) None (Some (ConfigStr "/ip dns"))
            None None (Scenario.start None) ["/ip dns"] (Scenario.diffed Scenario.good)
            (Scenario.entered Scenario.good) _ _ _ _ _).
  - vm_compute. reflexivity.
  - discriminate.
  - vm_compute. discriminate.
  - vm_compute. reflexivity.
  - reflexivity.
Defined.

Lemma supplied_current_config_needs_no_device_witness :
  snd (candidate_diff (E:=Scenario.good) None (Some (ConfigStr "/ip dns"))
         (Some (ConfigStr "/ip address")) None (Scenario.start None))
  = Scenario.start None.
Proof.
  apply (supplied_current_config_needs_no_device (E:=Scenario.good) None
           (Some (ConfigStr "/ip dns")) (Some (ConfigStr "/ip address")) None
           (Scenario.start None)).
  reflexivity.
Defined.

(** ** The helpers of [ros.py] on rows *)

Section RosHelpers.
Import ros.

Lemma split_nonempty sep s : split sep s <> [].
Proof.
  destruct s as [|c s]; simpl; [discriminate|].
  destruct (Ascii.eqb c sep); [discriminate|].
  destruct (split sep s); discriminate.
Qed.

Lemma join_split sep s : join (String sep EmptyString) (split sep s) = s.
Proof.
  induction s as [|c s IH]; simpl; [reflexivity|].
  pose proof (split_nonempty sep s) as Hne.
  destruct (Ascii.eqb_spec c sep) as [->|Hc].
  - destruct (split sep s) as [|h t] eqn:E; [done|].
    rewrite <- IH. reflexivity.
  - destruct (split sep s) as [|h t] eqn:E; [done|].
    rewrite <- IH. destruct t; reflexivity.
Qed.

Lemma split_contains sep s : Forall (fun x => contains sep x = false) (split sep s).
Proof.
  induction s as [|c s IH]; simpl.
  - constructor; [reflexivity|constructor].
  - destruct (Ascii.eqb c sep) eqn:Hc.
    + constructor; [reflexivity|exact IH].
    + destruct (split sep s) as [|h t]; [repeat constructor; simpl; by rewrite Hc|].
      inversion IH; subst. constructor; [simpl; by rewrite Hc|done].
Qed.

Lemma split_app sep h t :
  contains sep h = false -> split sep (h ++ String sep t)%string = h :: split sep t.
Proof.
  induction h as [|c h IH]; simpl; intros Hh.
  - by rewrite Ascii.eqb_refl.
  - apply orb_false_iff in Hh as [Hc Hh]. rewrite Hc, (IH Hh). reflexivity.
Qed.

Lemma split_single sep s : contains sep s = false -> split sep s = [s].
Proof.
  induction s as [|c s IH]; simpl; intros Hs; [reflexivity|].
  apply orb_false_iff in Hs as [Hc Hs]. rewrite Hc, (IH Hs). reflexivity.
Qed.

Lemma length_split sep s : length (split sep s) = S (count sep s).
Proof.
  induction s as [|c s IH]; simpl; [reflexivity|].
  destruct (Ascii.eqb c sep); simpl; [by rewrite IH|].
  pose proof (split_nonempty sep s).
  destruct (split sep s); [done|]. exact IH.
Qed.

Lemma count_contains sep s : count sep s = 0 <-> contains sep s = false.
Proof.
  induction s as [|c s IH]; simpl; [done|].
  destruct (Ascii.eqb c sep); simpl; [split; [lia|discriminate]|exact IH].
Qed.

Lemma count_app sep a b : count sep (a ++ b)%string = count sep a + count sep b.
Proof. induction a as [|c a IH]; simpl; [reflexivity|]. rewrite IH. lia. Qed.

(** What [fromApi] returns comes from a text with exactly one comma. *)
Lemma fromApi_inv v i :
  fromApi v = Return i ->
  exists s, v = VStr s /\ count "," s = 1 /\ s = (child i ++ "," ++ parent i)%string /\
            contains "," (child i) = false /\ contains "," (parent i) = false.
Proof.
  intros Hi. destruct v; unfold fromApi in Hi; simpl in Hi; try discriminate.
  exists s. split; [reflexivity|].
  destruct (rev (split "," s)) as [|a [|b' [|c' l]]] eqn:Hr; try discriminate.
  injection Hi as <-. simpl.
  assert (Hs : split "," s = [b'; a]).
  { rewrite <- (rev_involutive (split "," s)), Hr. reflexivity. }
  pose proof (length_split "," s) as Hl. rewrite Hs in Hl. simpl in Hl.
  pose proof (split_contains "," s) as Hall. rewrite Hs in Hall.
  inversion Hall as [|? ? Hb Hall']. inversion Hall' as [|? ? Ha _]. subst.
  split; [lia|]. split; [|done].
  rewrite <- (join_split "," s), Hs. reflexivity.
Qed.

(** X13. [LLDPInterfaces.fromApi] reverses the two parts of the API's
    interface field: for [child,parent], with no comma in either part, it
    gives the interface with that parent and that child, and its [str] is
    [parent/child]. *)
Theorem fromApi_reverses (c p : string) :
  contains "," c = false -> contains "," p = false ->
  exists i, fromApi (VStr (c ++ "," ++ p)%string) = Return i /\
            parent i = p /\ child i = c /\ __str__ i = (p ++ "/" ++ c)%string.
Proof.
  intros Hc Hp. exists (mkLLDPInterfaces p c).
  unfold fromApi, split_value.
  change (c ++ "," ++ p)%string with (c ++ String "," p)%string.
  rewrite (split_app _ _ _ Hc), (split_single _ _ Hp). simpl.
  repeat split; reflexivity.
Qed.

Lemma fromApi_reverses_witness :
  exists i, fromApi (VStr "sfp-sfpplus1,bridge") = Return i /\
            parent i = "bridge" /\ child i = "sfp-sfpplus1" /\
            __str__ i = "bridge/sfp-sfpplus1".
Proof. apply (fromApi_reverses "sfp-sfpplus1" "bridge"); reflexivity. Defined.

(** X14. [LLDPInterfaces.fromApi] accepts nothing but a text with exactly
    one comma: a text with none or with more than one raises [ValueError]
    from the unpacking, and a value that is no text raises
    [AttributeError]. *)
Theorem fromApi_rejects (v : pyval) :
  (forall s, v = VStr s -> count "," s <> 1 ->
     exists msg, fromApi v = Throw (ValueError msg)) /\
  ((forall s, v <> VStr s) -> exists msg, fromApi v = Throw (AttributeError msg)) /\
  (forall i, fromApi v = Return i ->
     exists s, v = VStr s /\ count "," s = 1 /\ s = (child i ++ "," ++ parent i)%string).
Proof.
  split; [|split].
  - intros s -> Hn. unfold fromApi, split_value.
    pose proof (length_split "," s) as Hl. rewrite <- length_rev in Hl.
    destruct (rev (split "," s)) as [|a [|b' [|c' l]]]; simpl in Hl; eauto.
    lia.
  - intros Hv. destruct v; unfold fromApi; simpl; eauto. by destruct (Hv s).
  - intros i Hi. destruct (fromApi_inv v i Hi) as (s & -> & Hc & Hs & _). eauto.
Qed.

Lemma fromApi_rejects_witness :
  (exists msg, fromApi (VStr "ether1") = Throw (ValueError msg)) /\
  (exists msg, fromApi VNone = Throw (AttributeError msg)).
Proof.
  split.
  - apply (proj1 (fromApi_rejects (VStr "ether1")) "ether1"); [reflexivity|vm_compute; lia].
  - apply (proj1 (proj2 (fromApi_rejects VNone))). discriminate.
Defined.

End RosHelpers.
Section RosTables.
Import ros.

(** X15. When [flatten_split] returns, the set holds exactly the
    comma-separated items of the rows' values for the key: every row has a
    text there, no item contains a comma, and rows that are not empty give a
    set that is not empty. *)
Theorem flatten_split_members (rows : list row) (key : string) (items : gset string) :
  flatten_split rows key = Return items ->
  (forall r, r ∈ rows -> exists s, r !! key = Some (VStr s)) /\
  (forall x, x ∈ items <->
     exists r s, r ∈ rows /\ r !! key = Some (VStr s) /\ x ∈ split "," s) /\
  (forall x, x ∈ items -> contains "," x = false) /\
  (rows <> [] -> items <> ∅).
Proof.
  revert items. induction rows as [|r rows IH]; simpl; intros items H.
  - injection H as <-. repeat split.
    + intros r Hr. by apply elem_of_nil in Hr.
    + intros Hx. by apply elem_of_empty in Hx.
    + intros (r & s & Hr & _). by apply elem_of_nil in Hr.
    + intros x Hx. by apply elem_of_empty in Hx.
    + done.
  - unfold item in H. destruct (r !! key) as [v|] eqn:Hk; [|discriminate].
    destruct v as [| | |s]; try discriminate. simpl in H.
    destruct (flatten_split rows key) as [acc|] eqn:Hrest; [|discriminate].
    injection H as <-. destruct (IH acc eq_refl) as (IH1 & IH2 & IH3 & _).
    repeat split.
    + intros r' Hr'. apply elem_of_cons in Hr' as [->|Hr']; eauto.
    + intros Hx. apply elem_of_union in Hx as [Hx|Hx].
      * apply elem_of_list_to_set in Hx. exists r, s. split; [left|done].
      * apply IH2 in Hx as (r' & s' & Hr' & Hs' & Hx).
        exists r', s'. split; [by right|done].
    + intros (r' & s' & Hr' & Hs' & Hx). apply elem_of_union.
      apply elem_of_cons in Hr' as [->|Hr'].
      * left. apply elem_of_list_to_set. congruence.
      * right. apply IH2. eauto.
    + intros x Hx. apply elem_of_union in Hx as [Hx|Hx]; [|by apply IH3].
      apply elem_of_list_to_set in Hx.
      pose proof (split_contains "," s) as Hall.
      rewrite List.Forall_forall in Hall. apply Hall.
      by apply list_elem_of_In.
    + intros _ He.
      pose proof (split_nonempty "," s) as Hne.
      destruct (split "," s) as [|h t] eqn:Hs; [done|].
      assert (Hh : h ∈ (list_to_set (h :: t) ∪ acc : gset string)).
      { apply elem_of_union. left. apply elem_of_list_to_set. left. }
      rewrite He in Hh. by apply elem_of_empty in Hh.
Qed.

Lemma flatten_split_members_witness :
  let rows : list row := [ {["interfaces" := VStr "ether1,ether2"]};
                           {["interfaces" := VStr "bridge,ether1"]} ] in
  let items : gset string := {["ether1"; "ether2"]} ∪ ({["bridge"; "ether1"]} ∪ ∅) in
  (forall r, r ∈ rows -> exists s, r !! "interfaces" = Some (VStr s)) /\
  (forall x, x ∈ items <->
     exists r s, r ∈ rows /\ r !! "interfaces" = Some (VStr s) /\ x ∈ split "," s) /\
  (forall x, x ∈ items -> contains "," x = false) /\
  (rows <> [] -> items <> ∅).
Proof.
  apply (flatten_split_members
           [ {["interfaces" := VStr "ether1,ether2"]}; {["interfaces" := VStr "bridge,ether1"]} ]
           "interfaces"
           ({["ether1"; "ether2"]} ∪ ({["bridge"; "ether1"]} ∪ ∅))).
  vm_compute. reflexivity.
Defined.

(** X16. [flatten_split] raises for the first row that lacks the key or
    holds no text there, whatever the rows after it are: [KeyError] for a
    missing key, [AttributeError] for a value that is no text. *)
Theorem flatten_split_first_offender (good rest : list row) (bad : row) (key : string) :
  Forall (fun r => exists s, r !! key = Some (VStr s)) good ->
  (bad !! key = None -> flatten_split (good ++ bad :: rest) key = Throw (KeyError key)) /\
  (forall v, bad !! key = Some v -> (forall s, v <> VStr s) ->
     flatten_split (good ++ bad :: rest) key = Throw (no_attribute v "split")).
Proof.
  intros Hgood. induction Hgood as [|r good (s & Hs) _ [IH1 IH2]]; simpl.
  - unfold item. split.
    + intros ->. reflexivity.
    + intros v -> Hv. destruct v; try reflexivity. by destruct (Hv s).
  - unfold item. rewrite Hs. simpl. split.
    + intros Hb. by rewrite (IH1 Hb).
    + intros v Hb Hv. by rewrite (IH2 v Hb Hv).
Qed.

Lemma flatten_split_first_offender_witness :
  flatten_split ([ {["interfaces" := VStr "ether1"]}; {["name" := VStr "x"]}; ∅ ] : list row)
    "interfaces"
  = Throw (KeyError "interfaces").
Proof.
  apply (proj1 (flatten_split_first_offender
                  [ {["interfaces" := VStr "ether1"]} ] [∅] {["name" := VStr "x"]}
                  "interfaces"
                  ltac:(repeat constructor; exists "ether1"; reflexivity))).
  reflexivity.
Defined.

Lemma has_mac_item entry :
  has_mac entry = true -> exists m, entry !! "mac-address" = Some m.
Proof. unfold has_mac. destruct (entry !! "mac-address"); [eauto|discriminate]. Qed.

(** X17. [convert_arp_table] skips the rows without a [mac-address], whatever
    else they lack, and when it returns it gives one entry per remaining row,
    in the rows' order, with the row's interface, the casts of its MAC and IP
    address, and the age -1. *)
Theorem convert_arp_table_entries (cast_mac cast_ip : pyval -> outcome string)
    (table : list row) :
  convert_arp_table cast_mac cast_ip (List.filter has_mac table)
  = convert_arp_table cast_mac cast_ip table /\
  forall entries, convert_arp_table cast_mac cast_ip table = Return entries ->
    Forall2 (fun r a =>
               r !! "interface" = Some (arp_interface a) /\
               (exists m, r !! "mac-address" = Some m /\ cast_mac m = Return (arp_mac a)) /\
               (exists i, r !! "address" = Some i /\ cast_ip i = Return (arp_ip a)) /\
               arp_age a = (-1)%Z)
            (List.filter has_mac table) entries.
Proof.
  split.
  - induction table as [|r table IH]; [reflexivity|].
    cbn [List.filter]. destruct (has_mac r) eqn:Hm.
    + cbn [convert_arp_table]. rewrite Hm, IH. reflexivity.
    + cbn [convert_arp_table]. rewrite Hm. exact IH.
  - induction table as [|r table IH]; intros entries H.
    + injection H as <-. constructor.
    + cbn [List.filter]. cbn [convert_arp_table] in H.
      destruct (has_mac r) eqn:Hm; cbn [negb] in H; [|by apply IH].
      unfold item in H.
      destruct (r !! "interface") as [i|] eqn:Hi; [|discriminate].
      destruct (r !! "mac-address") as [m|] eqn:Hmac; [|discriminate].
      destruct (cast_mac m) as [mac|] eqn:Hcm; [|discriminate].
      destruct (r !! "address") as [a|] eqn:Ha; [|discriminate].
      destruct (cast_ip a) as [ip|] eqn:Hci; [|discriminate].
      destruct (convert_arp_table cast_mac cast_ip table) as [rest|]; [|discriminate].
      injection H as <-. constructor; [|by apply IH].
      simpl. repeat split; eauto.
Qed.

Lemma convert_arp_table_entries_witness :
  Forall2 (fun r a =>
             r !! "interface" = Some (arp_interface a) /\
             (exists m, r !! "mac-address" = Some m /\ Return "AA" = Return (arp_mac a)) /\
             (exists i, r !! "address" = Some i /\ Return "10.0.0.1" = Return (arp_ip a)) /\
             arp_age a = (-1)%Z)
          (List.filter has_mac
             ([ {["interface" := VStr "ether1"]};
                {["interface" := VStr "ether2"; "mac-address" := VStr "aa";
                  "address" := VStr "10.0.0.1"]} ] : list row))
          [mk_arp_entry (VStr "ether2") "AA" "10.0.0.1" (-1)].
Proof.
  apply (proj2 (convert_arp_table_entries (fun _ => Return "AA") (fun _ => Return "10.0.0.1")
    [ {["interface" := VStr "ether1"]};
      {["interface" := VStr "ether2"; "mac-address" := VStr "aa";
        "address" := VStr "10.0.0.1"]} ])).
  vm_compute. reflexivity.
Defined.

Lemma py_eq_refl x : py_eq x x = true.
Proof.
  destruct x; simpl; auto using String.eqb_refl, Z.eqb_refl.
  by destruct b.
Qed.

Lemma py_eq_sym x y : py_eq x y = py_eq y x.
Proof.
  destruct x, y; simpl; auto using String.eqb_sym, Z.eqb_sym.
  by destruct b, b0.
Qed.

Lemma py_eq_trans x y z : py_eq x y = true -> py_eq y z = true -> py_eq x z = true.
Proof.
  destruct x as [|[|]|a|a], y as [|[|]|b|b], z as [|[|]|c|c];
    cbv beta iota delta [py_eq Bool.eqb]; try discriminate; try done; intros H1 H2;
    repeat match goal with
           | H : (_ =? _)%Z = true |- _ => apply Z.eqb_eq in H
           | H : String.eqb _ _ = true |- _ => apply String.eqb_eq in H
           end; subst; try discriminate;
    auto using Z.eqb_refl, String.eqb_refl.
Qed.

Lemma py_eq_congr x y z : py_eq x y = true -> py_eq x z = py_eq y z.
Proof.
  intros H. destruct (py_eq y z) eqn:Hyz.
  - by apply py_eq_trans with y.
  - destruct (py_eq x z) eqn:Hxz; [|done].
    rewrite <- Hyz. symmetry. apply py_eq_trans with x; [by rewrite py_eq_sym|done].
Qed.

Lemma dict_get_set {V} (k k' : pyval) (v : V) d :
  dict_get k' (dict_set k v d) = if py_eq k k' then Some v else dict_get k' d.
Proof.
  induction d as [|[k0 v0] d IH]; simpl; [reflexivity|].
  destruct (py_eq k0 k) eqn:H0; simpl.
  - rewrite (py_eq_congr _ _ k' H0). by destruct (py_eq k k').
  - rewrite IH. destruct (py_eq k0 k') eqn:H1; [|reflexivity].
    destruct (py_eq k k') eqn:H2; [|reflexivity].
    exfalso. rewrite (py_eq_congr _ _ k H1), py_eq_sym, H2 in H0. discriminate.
Qed.

Lemma find_snoc {A} (f : A -> bool) l x :
  List.find f (l ++ [x]) =
  match List.find f l with
  | Some y => Some y
  | None => if f x then Some x else None
  end.
Proof. induction l as [|a l IH]; simpl; [reflexivity|]. by destruct (f a). Qed.

Lemma convert_vrf_loop_lookup table : forall instances result mark,
  convert_vrf_loop table instances = Return result ->
  dict_get mark result =
  match last_marked mark table with
  | Some entry =>
      Some (mk_vrf (get entry "routing-mark") "L3VRF" (get entry "route-distinguisher")
              (list_to_set (split "," (match get entry "interfaces" with
                                       | VStr s => s
                                       | _ => EmptyString
                                       end))))
  | None => dict_get mark instances
  end.
Proof.
  induction table as [|entry table IH]; intros instances result mark H.
  - injection H as <-. reflexivity.
  - simpl in H. unfold vrf_of, split_value, item in H.
    destruct (get entry "interfaces") as [| | |s] eqn:Hi; try discriminate.
    destruct (entry !! "routing-mark") as [m|] eqn:Hm; [|discriminate].
    rewrite (IH _ _ mark H). unfold last_marked. simpl. rewrite find_snoc.
    destruct (List.find _ (rev table)); [reflexivity|].
    assert (Hg : get entry "routing-mark" = m) by (unfold get; by rewrite Hm).
    rewrite dict_get_set, !Hg.
    destruct (py_eq m mark); [|reflexivity].
    rewrite Hg, Hi. reflexivity.
Qed.

(** X18. When [convert_vrf_table] returns, the instance stored for a routing
    mark is the one built from the last entry with that mark: an earlier
    entry with the same mark is replaced, and a mark that no entry has is no
    key of the result. *)
Theorem convert_vrf_table_last_wins (table : list row) (result : list (pyval * vrf))
    (mark : pyval) :
  convert_vrf_table table = Return result ->
  match last_marked mark table with
  | Some entry =>
      exists s, entry !! "interfaces" = Some (VStr s) /\
        dict_get mark result =
        Some (mk_vrf (get entry "routing-mark") "L3VRF" (get entry "route-distinguisher")
                (list_to_set (split "," s)))
  | None => dict_get mark result = None
  end.
Proof.
  intros H. pose proof (convert_vrf_loop_lookup table [] result mark H) as Hl.
  destruct (last_marked mark table) as [entry|] eqn:Hlast; [|exact Hl].
  assert (Hin : In entry table).
  { apply in_rev. unfold last_marked in Hlast. by apply find_some in Hlast as [? _]. }
  assert (Hall : forall t acc r, convert_vrf_loop t acc = Return r ->
                 forall e, In e t -> exists s, e !! "interfaces" = Some (VStr s)).
  { clear. induction t as [|e0 t IH]; intros acc r H e He; [done|].
    simpl in H. destruct (vrf_of e0) as [[m v]|] eqn:Hv; [|discriminate].
    destruct He as [<-|He]; [|by eapply IH].
    unfold vrf_of, split_value, get in Hv.
    destruct (e0 !! "interfaces") as [[| | |s]|]; try discriminate. eauto. }
  destruct (Hall _ _ _ H _ Hin) as [s Hs]. exists s. split; [exact Hs|].
  rewrite Hl. unfold get at 3. rewrite Hs. reflexivity.
Qed.

Lemma convert_vrf_table_last_wins_witness :
  exists s, ({["routing-mark" := VStr "blue"; "interfaces" := VStr "ether3"]} : row)
            !! "interfaces" = Some (VStr s) /\
    dict_get (VStr "blue")
      [(VStr "blue", mk_vrf (VStr "blue") "L3VRF" VNone {["ether3"]})]
    = Some (mk_vrf (get {["routing-mark" := VStr "blue"; "interfaces" := VStr "ether3"]}
                      "routing-mark") "L3VRF"
              (get {["routing-mark" := VStr "blue"; "interfaces" := VStr "ether3"]}
                 "route-distinguisher")
              (list_to_set (split "," s))).
Proof.
  refine (convert_vrf_table_last_wins
    [ {["routing-mark" := VStr "blue"; "interfaces" := VStr "ether1,ether2";
        "route-distinguisher" := VStr "1:1"]};
      {["routing-mark" := VStr "blue"; "interfaces" := VStr "ether3"]} ]
    [(VStr "blue", mk_vrf (VStr "blue") "L3VRF" VNone {["ether3"]})]
    (VStr "blue") _).
  vm_compute. reflexivity.
Defined.

End RosTables.
Section RosGetters.
Import ros.

Lemma is_key_set {V} (k k' : pyval) (v : V) d :
  is_key k' (dict_set k v d) = py_eq k k' || is_key k' d.
Proof. unfold is_key. rewrite dict_get_set. by destruct (py_eq k k'). Qed.

Lemma is_key_fold (k : pyval) (names : list string) : forall d : list (pyval * unit),
  is_key k (fold_left (fun d ntp_peer => dict_set (VStr ntp_peer) tt d) names d)
  = is_key k d || existsb (fun n => py_eq (VStr n) k) names.
Proof.
  induction names as [|n names IH]; intros d; cbn [fold_left existsb];
    [by rewrite orb_false_r|].
  rewrite IH, is_key_set. by destruct (py_eq (VStr n) k), (is_key k d).
Qed.

(** The keys of the dictionary [get_ntp_servers] returns. *)
Lemma get_ntp_servers_keys rows servers :
  get_ntp_servers rows = Return servers ->
  exists r names,
    head rows = Some r /\
    split_value (get_or r "server-dns-names" (VStr EmptyString)) = Return names /\
    forall k, is_key k servers =
      existsb (fun n => py_eq (VStr n) k) (List.filter Py.truthy_str names)
      || (truthy (get r "primary-ntp")
          && negb (py_eq (get r "primary-ntp") (VStr "0.0.0.0"))
          && py_eq (get r "primary-ntp") k)
      || (negb (py_eq (get r "secondary-ntp") (VStr "0.0.0.0"))
          && py_eq (get r "secondary-ntp") k).
Proof.
  unfold get_ntp_servers. destruct rows as [|r rest]; cbn [first_row]; [discriminate|].
  destruct (split_value _) as [names|] eqn:Hn; [|discriminate].
  intros H. injection H as <-. exists r, names.
  split; [reflexivity|]. split; [exact Hn|]. intros k.
  set (P := truthy (get r "primary-ntp")
            && negb (py_eq (get r "primary-ntp") (VStr "0.0.0.0"))).
  set (S := negb (py_eq (get r "secondary-ntp") (VStr "0.0.0.0"))).
  destruct S, P; rewrite ?is_key_set, ?is_key_fold; cbn [is_key dict_get andb orb];
    destruct (py_eq (get r "secondary-ntp") k), (py_eq (get r "primary-ntp") k),
             (existsb _ _); reflexivity.
Qed.

Lemma existsb_VStr_None names : existsb (fun n => py_eq (VStr n) VNone) names = false.
Proof. induction names; simpl; auto. Qed.

(** X19. The servers [get_ntp_servers] returns: the placeholder address
    0.0.0.0 is among them only when it is one of the [server-dns-names];
    every name of [server-dns-names] that is not empty is among them; and
    [None] is among them exactly when the client row has no
    [secondary-ntp] (or has [None] there). *)
Theorem get_ntp_servers_placeholders (rows : list row) (servers : list (pyval * unit)) :
  get_ntp_servers rows = Return servers ->
  exists r names,
    head rows = Some r /\
    split_value (get_or r "server-dns-names" (VStr EmptyString)) = Return names /\
    (is_key (VStr "0.0.0.0") servers = true <-> In "0.0.0.0" names) /\
    (forall n, In n names -> n <> EmptyString -> is_key (VStr n) servers = true) /\
    (is_key VNone servers = true <-> get r "secondary-ntp" = VNone).
Proof.
  intros H. destruct (get_ntp_servers_keys _ _ H) as (r & names & Hr & Hn & Hk).
  exists r, names. split; [done|]. split; [done|]. split; [|split].
  - rewrite Hk.
    rewrite <- andb_assoc, !andb_negb_l, andb_false_r.
    rewrite !orb_false_r, existsb_exists. split.
    + intros (n & Hin & He). apply filter_In in Hin as [Hin _].
      apply String.eqb_eq in He. by subst.
    + intros Hin. exists "0.0.0.0". split; [|reflexivity].
      apply filter_In. by split.
  - intros n Hin Hne. rewrite Hk.
    assert (He : existsb (fun n0 => py_eq (VStr n0) (VStr n)) (List.filter Py.truthy_str names)
                 = true).
    { apply existsb_exists. exists n. split; [|apply py_eq_refl].
      apply filter_In. split; [done|]. by destruct n. }
    by rewrite He.
  - rewrite Hk.
    assert (Hf : forall l, existsb (fun n => py_eq (VStr n) VNone) l = false)
      by (induction l; simpl; auto).
    assert (Hp : forall p, truthy p && negb (py_eq p (VStr "0.0.0.0")) && py_eq p VNone = false)
      by (intros [| | |]; cbn [py_eq truthy]; rewrite ?andb_false_r; reflexivity).
    rewrite Hf, Hp. cbn [orb].
    destruct (get r "secondary-ntp"); cbn [py_eq negb andb]; rewrite ?andb_false_r;
      split; (discriminate || done).
Qed.

Lemma get_ntp_servers_placeholders_witness :
  exists r names,
    head ([ {["primary-ntp" := VStr "0.0.0.0"; "server-dns-names" := VStr "pool.ntp.org,"]} ]
          : list row) = Some r /\
    split_value (get_or r "server-dns-names" (VStr EmptyString)) = Return names /\
    (is_key (VStr "0.0.0.0") [(VStr "pool.ntp.org", tt); (VNone, tt)] = true
     <-> In "0.0.0.0" names) /\
    (forall n, In n names -> n <> EmptyString ->
       is_key (VStr n) [(VStr "pool.ntp.org", tt); (VNone, tt)] = true) /\
    (is_key VNone [(VStr "pool.ntp.org", tt); (VNone, tt)] = true
     <-> get r "secondary-ntp" = VNone).
Proof.
  refine (get_ntp_servers_placeholders
    [ {["primary-ntp" := VStr "0.0.0.0"; "server-dns-names" := VStr "pool.ntp.org,"]} ]
    [(VStr "pool.ntp.org", tt); (VNone, tt)] _).
  vm_compute. reflexivity.
Defined.

Lemma extend_all f rows ms : forall table,
  Forall2 (fun r m => f r = Return m) rows ms ->
  extend f rows table = (table ++ ms, None).
Proof.
  intros table H. revert table.
  induction H as [|r m rows ms Hr _ IH]; intros table; simpl.
  - by rewrite app_nil_r.
  - rewrite Hr, IH, <- app_assoc. reflexivity.
Qed.

(** X20. In [get_mac_address_table] a [TrapError] that ends the switch query
    is swallowed and the entries read until then are kept, so the result is
    the one of a switch query that ended normally; the same error from the
    bridge query is raised. *)
Theorem switch_trap_is_ignored (bridge_rows switch_rows : list row)
    (bridge_table switch_table : list mac_entry) (msg : string) :
  Forall2 (fun r m => bridge_entry r = Return m) bridge_rows bridge_table ->
  Forall2 (fun r m => switch_entry r = Return m) switch_rows switch_table ->
  get_mac_address_table (bridge_rows, None) (switch_rows, Some (TrapError msg))
  = Return (bridge_table ++ switch_table) /\
  get_mac_address_table (bridge_rows, None) (switch_rows, None)
  = Return (bridge_table ++ switch_table) /\
  get_mac_address_table (bridge_rows, Some (TrapError msg)) (switch_rows, None)
  = Throw (TrapError msg).
Proof.
  intros Hb Hs. unfold get_mac_address_table, iterate. simpl.
  rewrite (extend_all _ _ _ [] Hb). simpl.
  rewrite (extend_all _ _ _ bridge_table Hs). done.
Qed.

Lemma switch_trap_is_ignored_witness :
  get_mac_address_table
    ([ {["mac-address" := VStr "AA:BB:CC:DD:EE:FF"; "interface" := VStr "ether1";
         "dynamic" := VBool true; "invalid" := VBool false]} ], None)
    ([], Some (TrapError "no such command"))
  = Return ([mk_mac_entry (VStr "AA:BB:CC:DD:EE:FF") (VStr "ether1") (VInt 1) false
               (VBool true) 0 0] ++ []).
Proof.
  refine (proj1 (switch_trap_is_ignored
    [ {["mac-address" := VStr "AA:BB:CC:DD:EE:FF"; "interface" := VStr "ether1";
        "dynamic" := VBool true; "invalid" := VBool false]} ] []
    [mk_mac_entry (VStr "AA:BB:CC:DD:EE:FF") (VStr "ether1") (VInt 1) false (VBool true) 0 0]
    [] "no such command" _ _)).
  - constructor; [vm_compute; reflexivity|constructor].
  - constructor.
Defined.



Lemma lldp_loop_lookup rows : forall table result k,
  lldp_loop rows table = Return result ->
  default [] (result !! k) = default [] (table !! k) ++ neighbors_at k rows.
Proof.
  induction rows as [|entry rows IH]; intros table result k H; simpl in *.
  - injection H as <-. by rewrite app_nil_r.
  - destruct (lldp_of entry) as [[k' n]|]; [|discriminate].
    rewrite (IH _ _ k H).
    destruct (String.eqb_spec k' k) as [->|Hne].
    + rewrite lookup_insert_eq. simpl. by rewrite <- app_assoc.
    + by rewrite lookup_insert_ne.
Qed.

Lemma lldp_loop_no_empty rows : forall table result,
  lldp_loop rows table = Return result ->
  (forall k, table !! k <> Some []) -> forall k, result !! k <> Some [].
Proof.
  induction rows as [|entry rows IH]; intros table result H Ht; simpl in *.
  - by injection H as <-.
  - destruct (lldp_of entry) as [[k' n]|]; [|discriminate].
    apply (IH _ _ H). intros k.
    destruct (decide (k' = k)) as [->|Hne].
    + rewrite lookup_insert_eq. intros Hs. injection Hs as Hs.
      by destruct (default [] (table !! k)).
    + rewrite lookup_insert_ne by done. apply Ht.
Qed.

Lemma lldp_of_key entry k n :
  lldp_of entry = Return (k, n) ->
  exists c p, entry !! "interface" = Some (VStr (c ++ "," ++ p)%string) /\
              contains "," c = false /\ contains "," p = false /\
              k = (p ++ "/" ++ c)%string /\
              entry !! "identity" = Some (lldp_hostname n) /\
              entry !! "interface-name" = Some (lldp_port n).
Proof.
  unfold lldp_of, item. intros H.
  destruct (entry !! "interface") as [v|]; [|discriminate].
  destruct (fromApi v) as [i|] eqn:Hi; [|discriminate].
  destruct (entry !! "identity") as [h|]; [|discriminate].
  destruct (entry !! "interface-name") as [pt|]; [|discriminate].
  injection H as <- <-.
  destruct (fromApi_inv v i Hi) as (s & -> & Hc & Hs & Hcc & Hcp).
  exists (child i), (parent i). rewrite Hs. repeat split; done.
Qed.

(** Every entry's neighbor is listed under the key of its interface. *)
Lemma lldp_entries_listed rows table :
  get_lldp_neighbors rows = Return table ->
  forall entry, In entry rows ->
    exists c p h n,
      entry !! "interface" = Some (VStr (c ++ "," ++ p)%string) /\
      contains "," c = false /\ contains "," p = false /\
      entry !! "identity" = Some h /\ entry !! "interface-name" = Some n /\
      In (mk_lldp_neighbor h n) (default [] (table !! (p ++ "/" ++ c)%string)).
Proof.
  unfold get_lldp_neighbors. intros H.
  assert (Hall : forall rows t r, lldp_loop rows t = Return r ->
            forall entry, In entry rows ->
            exists k n, lldp_of entry = Return (k, n) /\ In n (neighbors_at k rows)).
  { clear. induction rows as [|e0 rows IH]; intros t r H entry Hin; [done|].
    simpl in H. destruct (lldp_of e0) as [[k0 n0]|] eqn:H0; [|discriminate].
    destruct Hin as [<-|Hin].
    - exists k0, n0. split; [done|]. simpl. rewrite H0, String.eqb_refl. by left.
    - destruct (IH _ _ H entry Hin) as (k & n & Hk & Hn).
      exists k, n. split; [done|]. simpl. rewrite H0.
      destruct (String.eqb k0 k); [by right|done]. }
  intros entry Hin. destruct (Hall _ _ _ H entry Hin) as (k & [h n] & Hk & Hn).
  destruct (lldp_of_key _ _ _ Hk) as (c & p & Hi & Hc & Hp & -> & Hh & Hpt).
  exists c, p, h, n. repeat split; try done.
  rewrite (lldp_loop_lookup rows ∅ table _ H), lookup_empty. exact Hn.
Qed.

(** X22. When [get_lldp_neighbors] returns, the table lists under every key
    the neighbors of the entries with that key, in the entries' order, and
    has no key with an empty list; the key of an entry is [parent/child] for
    its interface field [child,parent], and its neighbor is listed there
    with the entry's identity and interface name. *)
Theorem get_lldp_neighbors_groups (rows : list row)
    (table : gmap string (list lldp_neighbor)) :
  get_lldp_neighbors rows = Return table ->
  (forall k, table !! k = match neighbors_at k rows with
                          | [] => None
                          | l => Some l
                          end) /\
  (forall entry, In entry rows ->
     exists c p h n,
       entry !! "interface" = Some (VStr (c ++ "," ++ p)%string) /\
       contains "," c = false /\ contains "," p = false /\
       entry !! "identity" = Some h /\ entry !! "interface-name" = Some n /\
       In (mk_lldp_neighbor h n) (default [] (table !! (p ++ "/" ++ c)%string))).
Proof.
  intros H. split.
  - unfold get_lldp_neighbors in H.
    intros k. pose proof (lldp_loop_lookup rows ∅ table k H) as Hl.
    pose proof (lldp_loop_no_empty rows ∅ table H) as Hne.
    rewrite lookup_empty in Hl. simpl in Hl.
    specialize (Hne ltac:(intros k0; by rewrite lookup_empty) k).
    destruct (table !! k) as [l|]; simpl in Hl; subst.
    + by destruct (neighbors_at k rows).
    + by rewrite <- Hl.
  - by apply lldp_entries_listed.
Qed.

Lemma get_lldp_neighbors_groups_witness :
  let rows : list row :=
    [ {["interface" := VStr "ether1,bridge"; "identity" := VStr "sw1";
        "interface-name" := VStr "ge-0/0/1"]};
      {["interface" := VStr "ether1,bridge"; "identity" := VStr "sw2";
        "interface-name" := VStr "ge-0/0/2"]} ] in
  let table : gmap string (list lldp_neighbor) :=
    {["bridge/ether1" := [mk_lldp_neighbor (VStr "sw1") (VStr "ge-0/0/1");
                          mk_lldp_neighbor (VStr "sw2") (VStr "ge-0/0/2")]]} in
  (forall k, table !! k = match neighbors_at k rows with
                          | [] => None
                          | l => Some l
                          end) /\
  (forall entry, In entry rows ->
     exists c p h n,
       entry !! "interface" = Some (VStr (c ++ "," ++ p)%string) /\
       contains "," c = false /\ contains "," p = false /\
       entry !! "identity" = Some h /\ entry !! "interface-name" = Some n /\
       In (mk_lldp_neighbor h n) (default [] (table !! (p ++ "/" ++ c)%string))).
Proof.
  refine (get_lldp_neighbors_groups
    [ {["interface" := VStr "ether1,bridge"; "identity" := VStr "sw1";
        "interface-name" := VStr "ge-0/0/1"]};
      {["interface" := VStr "ether1,bridge"; "identity" := VStr "sw2";
        "interface-name" := VStr "ge-0/0/2"]} ]
    {["bridge/ether1" := [mk_lldp_neighbor (VStr "sw1") (VStr "ge-0/0/1");
                          mk_lldp_neighbor (VStr "sw2") (VStr "ge-0/0/2")]]} _).
  vm_compute. reflexivity.
Defined.

(** X23. One neighbor on an interface whose field has no comma, or more
    than one, makes [get_lldp_neighbors] fail as a whole: no table is
    returned, whatever the other entries are. *)
Theorem get_lldp_neighbors_plain_interface (rows : list row) (entry : row) (s : string) :
  In entry rows -> entry !! "interface" = Some (VStr s) -> count "," s <> 1 ->
  exists e, get_lldp_neighbors rows = Throw e.
Proof.
  intros Hin Hi Hc.
  destruct (get_lldp_neighbors rows) as [table|e] eqn:H; [|eauto].
  destruct (lldp_entries_listed rows table H entry Hin)
    as (c & p & _ & _ & Hi' & Hcc & Hcp & _).
  rewrite Hi in Hi'. injection Hi' as ->.
  exfalso. apply Hc. rewrite !count_app. simpl.
  apply count_contains in Hcc, Hcp. lia.
Qed.

Lemma get_lldp_neighbors_plain_interface_witness :
  exists e, get_lldp_neighbors
              [ {["interface" := VStr "ether1"; "identity" := VStr "sw1";
                  "interface-name" := VStr "ge-0/0/1"]} ] = Throw e.
Proof.
  refine (get_lldp_neighbors_plain_interface _
            {["interface" := VStr "ether1"; "identity" := VStr "sw1";
              "interface-name" := VStr "ge-0/0/1"]} "ether1" _ _ _).
  - left. reflexivity.
  - vm_compute. reflexivity.
  - vm_compute. lia.
Defined.

End RosGetters.
Section RosInit.
Context {E : Env}.
Variable path_exists : string -> bool.
Variable path_str : string -> string.

(** X24. [ROSDriver(...)] without [optional_args] raises [AttributeError]:
    the private key is looked up in the argument itself, which is [None].
    With a dictionary it returns exactly when [private_key_file] is falsy or
    names an existing path; the driver then has no API connection, the port
    of the dictionary or 8728, and an SSH handle that is not open, so that
    the handle's guard raises [SshClientNotOpen]. *)
Theorem driver_init_outcome (hostname username password : string) (timeout : Z) :
  (exists msg, ros.__init__ path_exists path_str hostname username password timeout None
               = ros.Throw (ros.AttributeError msg)) /\
  forall d : ros.row,
    (ros.is_return (ros.__init__ path_exists path_str hostname username password timeout
                      (Some d)) = true
     <-> ros.truthy (ros.get d "private_key_file") = false \/
         exists p, d !! "private_key_file" = Some (ros.VStr p) /\ path_exists p = true) /\
    forall drv,
      ros.__init__ path_exists path_str hostname username password timeout (Some d)
      = ros.Return drv ->
      ros.port drv = ros.get_or d "port" (ros.VInt 8728) /\
      ros.api drv = None /\
      SshClient.client (ros.ssh_client drv) = None /\
      SshClient.host_key (ros.ssh_client drv) = None /\
      forall st,
        _assert_open (set_ssh_client (ros.ssh_client drv) st)
        = (Raise (SshClientNotOpen not_open_msg), set_ssh_client (ros.ssh_client drv) st).
Proof.
  split; [eexists; reflexivity|]. intros d.
  assert (Hd : (if decide (d = ∅) then ∅ else d) = d) by (by destruct (decide (d = ∅))).
  assert (Hget : forall p, ros.get d "private_key_file" = ros.VStr p <->
                           d !! "private_key_file" = Some (ros.VStr p)).
  { unfold ros.get. intros p. destruct (d !! "private_key_file"); simpl; split;
      intros H; congruence. }
  unfold ros.__init__. rewrite Hd.
  remember (ros.get d "private_key_file") as key eqn:Hk. symmetry in Hk.
  assert (Hfresh : forall key' drv,
            ros.Return (ros.mkROSDriver hostname username password timeout d
                          (ros.get_or d "port" (ros.VInt 8728)) None
                          (SshClient.__init__ hostname username None key' (Some password)
                             timeout)) = ros.Return drv ->
            ros.port drv = ros.get_or d "port" (ros.VInt 8728) /\
            ros.api drv = None /\
            SshClient.client (ros.ssh_client drv) = None /\
            SshClient.host_key (ros.ssh_client drv) = None /\
            forall st,
              _assert_open (set_ssh_client (ros.ssh_client drv) st)
              = (Raise (SshClientNotOpen not_open_msg),
                 set_ssh_client (ros.ssh_client drv) st)).
  { intros key' drv Hdrv. injection Hdrv as <-. simpl.
    split; [reflexivity|]. split; [reflexivity|]. split; [reflexivity|].
    split; [reflexivity|]. intros st. by apply _assert_open_zero. }
  destruct (ros.truthy key) eqn:Ht.
  - destruct key as [|b|z|p].
    + discriminate Ht.
    + simpl. split; [split; [discriminate|]|discriminate].
      intros [?|(p & Hp & _)]; [discriminate|]. apply Hget in Hp. congruence.
    + simpl. split; [split; [discriminate|]|discriminate].
      intros [?|(p & Hp & _)]; [discriminate|]. apply Hget in Hp. congruence.
    + destruct (path_exists p) eqn:Hp; simpl.
      * split; [|apply Hfresh]. split; [|done]. intros _. right. exists p.
        split; [by apply Hget|done].
      * split; [split; [discriminate|]|discriminate].
        intros [?|(p' & Hp' & He)]; [discriminate|]. apply Hget in Hp'. congruence.
  - split; [|apply Hfresh]. split; [by left|done].
Qed.

End RosInit.

Lemma driver_init_outcome_witness :
  ros.port (ros.mkROSDriver "router1" "admin" "secret" 60
              {["private_key_file" := ros.VStr "/etc/key"]} (ros.VInt 8728) None
              (SshClient.__init__ "router1" "admin" None (Some "/etc/key") (Some "secret") 60))
  = ros.get_or {["private_key_file" := ros.VStr "/etc/key"]} "port" (ros.VInt 8728).
Proof.
  refine (proj1 (proj2 (proj2 (driver_init_outcome (fun _ => true) (fun p => p)
                                 "router1" "admin" "secret" 60)
                          {["private_key_file" := ros.VStr "/etc/key"]}) _ _)).
  vm_compute. reflexivity.
Defined.
